(** * node-http-file-server: a shallow embedding of the request handler

    The repository ships one script in three revisions: version 0.1 and
    version 0.2.1 ([http-file-server.js]), which read a whole file with
    [fs.readFile], and the streaming revision, which opens a descriptor,
    stats it and pipes a read stream into the response.  Version 0.1 differs
    from 0.2.1 only in its command line handling and in logging, so two
    handlers are embedded: [Streaming.handler] and [V021.handler].

    JavaScript strings are sequences of UTF-16 code units, modelled as
    [list N].  The calls the handler makes on [fs] and on the response object
    are recorded in a trace; what the file system answers is given by a
    [World].  [console.log] calls (guarded by [debug]) have no effect on the
    response and are left out.

    The script was written for Node 0.10.  Where a later runtime behaves
    otherwise, which is the second status line after a failed read, the
    streaming handler is embedded for both runtimes in [StreamingOn].

    The code around the handler, which is the argument loop, the expansion
    of the root path and the callback of [listen], is embedded in [Startup]
    and, for version 0.1, in [V01]; whether [listen] succeeds is an answer
    of the environment. *)

From Stdlib Require Import List Arith Wf_nat NArith Lia Bool Ascii String.
From Stdlib Require Import Sorting.Sorted Sorting.Permutation.
From Stdlib Require Import Numbers.DecimalString.
Import ListNotations.

Local Open Scope N_scope.
Local Open Scope list_scope.

(** ** JavaScript strings *)

Definition jsstring := list N.

(** An ASCII literal as a JavaScript string. *)
Definition js (s : string) : jsstring :=
  map N_of_ascii (list_ascii_of_string s).

(** Code units used by the script. *)
Definition c_dquote : N := 34.
Definition c_hash : N := 35.
Definition c_dollar : N := 36.
Definition c_percent : N := 37.
Definition c_amp : N := 38.
Definition c_quote : N := 39.
Definition c_plus : N := 43.
Definition c_dot : N := 46.
Definition c_slash : N := 47.
Definition c_space : N := 32.
Definition c_backtick : N := 96.

(** [a === b] on strings. *)
Fixpoint jseqb (a b : jsstring) : bool :=
  match a, b with
  | [], [] => true
  | x :: a', y :: b' => (x =? y) && jseqb a' b'
  | _, _ => false
  end.

(** The abstract relational comparison of two strings: code unit by code
    unit, a proper prefix being smaller. *)
Fixpoint js_compare (a b : jsstring) : comparison :=
  match a, b with
  | [], [] => Eq
  | [], _ :: _ => Lt
  | _ :: _, [] => Gt
  | x :: a', y :: b' =>
      match x ?= y with
      | Eq => js_compare a' b'
      | c => c
      end
  end.

Definition js_ltb (a b : jsstring) : bool :=
  match js_compare a b with Lt => true | _ => false end.

Definition js_leb (a b : jsstring) : bool := negb (js_ltb b a).

Definition js_le (a b : jsstring) : Prop := js_leb a b = true.

(** [Array.prototype.sort()] without a comparator on an array of strings:
    the result is the ascending arrangement for [js_compare]. *)
Fixpoint sort_insert (x : jsstring) (l : list jsstring) : list jsstring :=
  match l with
  | [] => [x]
  | y :: l' => if js_leb x y then x :: y :: l' else y :: sort_insert x l'
  end.

Fixpoint sort (l : list jsstring) : list jsstring :=
  match l with
  | [] => []
  | x :: l' => sort_insert x (sort l')
  end.

(** [s.split(sep)] for a separator of one code unit. *)
Fixpoint split (sep : N) (s : jsstring) : list jsstring :=
  match s with
  | [] => [[]]
  | c :: r =>
      if c =? sep then [] :: split sep r
      else match split sep r with
           | h :: t => (c :: h) :: t
           | [] => [[c]]
           end
  end.

(** [parts.join(sep)]. *)
Fixpoint join (sep : jsstring) (parts : list jsstring) : jsstring :=
  match parts with
  | [] => []
  | [x] => x
  | x :: rest => x ++ sep ++ join sep rest
  end.

(** Decimal rendering of a number, as string concatenation does it. *)
Definition N_to_js (n : N) : jsstring :=
  js (NilEmpty.string_of_uint (N.to_uint n)).

(** ** UTF-8, as [Buffer] and the response encode a string *)

Definition is_high_surrogate (c : N) : bool := (0xD800 <=? c) && (c <=? 0xDBFF).
Definition is_low_surrogate (c : N) : bool := (0xDC00 <=? c) && (c <=? 0xDFFF).

Definition utf8_of_codepoint (v : N) : list N :=
  if v <? 0x80 then [v]
  else if v <? 0x800 then [0xC0 + v / 64; 0x80 + v mod 64]
  else if v <? 0x10000 then
    [0xE0 + v / 4096; 0x80 + (v / 64) mod 64; 0x80 + v mod 64]
  else
    [0xF0 + v / 262144; 0x80 + (v / 4096) mod 64;
     0x80 + (v / 64) mod 64; 0x80 + v mod 64].

Definition utf8_replacement : list N := [0xEF; 0xBF; 0xBD].

Fixpoint utf8_encode (s : jsstring) : list N :=
  match s with
  | [] => []
  | c :: r =>
      if is_high_surrogate c then
        match r with
        | d :: r' =>
            if is_low_surrogate d then
              utf8_of_codepoint (0x10000 + (c - 0xD800) * 1024 + (d - 0xDC00))
                ++ utf8_encode r'
            else utf8_replacement ++ utf8_encode r
        | [] => utf8_replacement
        end
      else if is_low_surrogate c then utf8_replacement ++ utf8_encode r
      else utf8_of_codepoint c ++ utf8_encode r
  end.

(** [Buffer.byteLength(s, 'utf-8')]. *)
Definition byteLength (s : jsstring) : N := N.of_nat (List.length (utf8_encode s)).

(** ** [decodeURIComponent]

    The standard's Decode operation with an empty reserved set: every
    escape is two hexadecimal digits after a percent sign, an octet below
    0x80 stands for itself, and a longer sequence must be the UTF-8
    encoding of one code point.  [None] stands for the URIError thrown on
    malformed input. *)

Definition hex_val (c : N) : option N :=
  if (48 <=? c) && (c <=? 57) then Some (c - 48)
  else if (65 <=? c) && (c <=? 70) then Some (c - 55)
  else if (97 <=? c) && (c <=? 102) then Some (c - 87)
  else None.

Inductive UriTok : Type :=
| Lit (c : N)
| Oct (b : N).

Fixpoint uri_tokens (s : jsstring) : option (list UriTok) :=
  match s with
  | [] => Some []
  | c :: r =>
      if c =? c_percent then
        match r with
        | h :: l :: r' =>
            match hex_val h, hex_val l, uri_tokens r' with
            | Some hv, Some lv, Some ts => Some (Oct (16 * hv + lv) :: ts)
            | _, _, _ => None
            end
        | _ => None
        end
      else option_map (cons (Lit c)) (uri_tokens r)
  end.

Record Pending : Type := mkPending {
  need : nat;   (* continuation octets still expected *)
  acc : N;      (* bits collected so far *)
  lo : N        (* smallest code point this length may encode *)
}.

Definition utf16_of_codepoint (v : N) : jsstring :=
  if v <? 0x10000 then [v]
  else [0xD800 + (v - 0x10000) / 1024; 0xDC00 + (v - 0x10000) mod 1024].

Definition valid_codepoint (least v : N) : bool :=
  (least <=? v) && (v <=? 0x10FFFF) && negb ((0xD800 <=? v) && (v <=? 0xDFFF)).

Fixpoint utf8_tokens (p : option Pending) (ts : list UriTok) : option jsstring :=
  match ts with
  | [] => match p with None => Some [] | Some _ => None end
  | Lit c :: r =>
      match p with
      | None => option_map (cons c) (utf8_tokens None r)
      | Some _ => None
      end
  | Oct b :: r =>
      match p with
      | None =>
          if b <? 0x80 then option_map (cons b) (utf8_tokens None r)
          else if b <? 0xC0 then None
          else if b <? 0xE0 then utf8_tokens (Some (mkPending 1 (b - 0xC0) 0x80)) r
          else if b <? 0xF0 then utf8_tokens (Some (mkPending 2 (b - 0xE0) 0x800)) r
          else if b <? 0xF8 then utf8_tokens (Some (mkPending 3 (b - 0xF0) 0x10000)) r
          else None
      | Some q =>
          if (0x80 <=? b) && (b <? 0xC0) then
            let v := acc q * 64 + (b - 0x80) in
            match need q with
            | O => None
            | S O =>
                if valid_codepoint (lo q) v
                then option_map (app (utf16_of_codepoint v)) (utf8_tokens None r)
                else None
            | S k => utf8_tokens (Some (mkPending k v (lo q))) r
            end
          else None
      end
  end.

Definition decodeURIComponent (s : jsstring) : option jsstring :=
  match uri_tokens s with
  | Some ts => utf8_tokens None ts
  | None => None
  end.

(** ** Node's [path] module (POSIX flavour) *)

(** [normalizeArray]: walking from the last part to the first, [.] is
    dropped, [..] is dropped and cancels the nearest earlier part. *)
Fixpoint normalizeArray_up (parts : list jsstring) : list jsstring * nat :=
  match parts with
  | [] => ([], O)
  | p :: rest =>
      let '(kept, up) := normalizeArray_up rest in
      if jseqb p (js ".") then (kept, up)
      else if jseqb p (js "..") then (kept, S up)
      else match up with
           | S u => (kept, u)
           | O => (p :: kept, O)
           end
  end.

Definition normalizeArray (parts : list jsstring) (allowAboveRoot : bool)
  : list jsstring :=
  let '(kept, up) := normalizeArray_up parts in
  if allowAboveRoot then repeat (js "..") up ++ kept else kept.

Definition nonempty (s : jsstring) : bool :=
  match s with [] => false | _ :: _ => true end.

Definition normalize (p : jsstring) : jsstring :=
  let isAbsolute := match p with c :: _ => c =? c_slash | [] => false end in
  let trailingSlash := match rev p with c :: _ => c =? c_slash | [] => false end in
  let p1 := join (js "/")
              (normalizeArray (filter nonempty (split c_slash p)) (negb isAbsolute)) in
  let p2 := if negb (nonempty p1) && negb isAbsolute then js "." else p1 in
  let p3 := if nonempty p2 && trailingSlash then p2 ++ js "/" else p2 in
  (if isAbsolute then js "/" else []) ++ p3.

(** [path.join(a, b)]. *)
Definition path_join (a b : jsstring) : jsstring :=
  normalize (join (js "/") (filter nonempty [a; b])).

(** The last non-empty component of a path. *)
Definition final_segment (p : jsstring) : jsstring :=
  last (filter nonempty (split c_slash p)) [].

(** The suffix of a segment that starts at its last dot, if it has a dot. *)
Fixpoint from_last_dot (seg : jsstring) : option jsstring :=
  match seg with
  | [] => None
  | c :: r =>
      match from_last_dot r with
      | Some e => Some e
      | None => if c =? c_dot then Some seg else None
      end
  end.

(** [path.extname(p)]: from the last dot of the final component to its end;
    empty when there is no dot, when the only dot is the first character,
    and for the component [..]. *)
Definition extname (p : jsstring) : jsstring :=
  let seg := final_segment p in
  if jseqb seg (js "..") then []
  else match seg with
       | [] => []
       | _ :: r => match from_last_dot r with Some e => e | None => [] end
       end.

(** ** [String.prototype.replace] with a global literal pattern

    The five patterns of the script ([/#TYPE#/g] and the like) contain no
    regular expression operator, so a match is an occurrence of the pattern
    text, found from left to right without overlap.  The replacement is a
    string, so its dollar sequences are expanded at every match: a doubled
    dollar sign gives one dollar sign, dollar-ampersand the matched text,
    dollar-backtick the text before the match and dollar-quote the text after
    it.  With no capture group a dollar sign followed by anything else stays
    as it is. *)

Fixpoint expand (repl matched before after : jsstring) : jsstring :=
  match repl with
  | [] => []
  | c :: r =>
      if c =? c_dollar then
        match r with
        | d :: r' =>
            if d =? c_dollar then c_dollar :: expand r' matched before after
            else if d =? c_amp then matched ++ expand r' matched before after
            else if d =? c_backtick then before ++ expand r' matched before after
            else if d =? c_quote then after ++ expand r' matched before after
            else c_dollar :: expand r matched before after
        | [] => [c_dollar]
        end
      else c :: expand r matched before after
  end.

Fixpoint starts_with (pat s : jsstring) : bool :=
  match pat, s with
  | [], _ => true
  | x :: pat', y :: s' => (x =? y) && starts_with pat' s'
  | _ :: _, [] => false
  end.

(** [before] is the part of the subject already scanned; [skip] counts the
    code units of the current match that are still to be passed over. *)
Fixpoint replace_from (pat repl before : jsstring) (skip : nat) (rest : jsstring)
  : jsstring :=
  match rest with
  | [] => []
  | c :: rest' =>
      match skip with
      | S k => replace_from pat repl (before ++ [c]) k rest'
      | O =>
          if starts_with pat rest then
            expand repl pat before (skipn (List.length pat) rest)
              ++ replace_from pat repl (before ++ [c]) (List.length pat - 1) rest'
          else c :: replace_from pat repl (before ++ [c]) O rest'
      end
  end.

(** [subject.replace(/pat/g, repl)] for a non-empty literal [pat]. *)
Definition replace_all (pat repl subject : jsstring) : jsstring :=
  replace_from pat repl [] O subject.

(** ** JavaScript objects used as string-keyed maps

    Keys keep their insertion order, which is the order [for ... in] visits
    them in. *)

Section Obj.
Context {V : Type}.

Fixpoint obj_get (k : jsstring) (o : list (jsstring * V)) : option V :=
  match o with
  | [] => None
  | (k', v) :: o' => if jseqb k' k then Some v else obj_get k o'
  end.

Definition obj_has (k : jsstring) (o : list (jsstring * V)) : bool :=
  match obj_get k o with Some _ => true | None => false end.

Fixpoint obj_set (k : jsstring) (v : V) (o : list (jsstring * V))
  : list (jsstring * V) :=
  match o with
  | [] => [(k, v)]
  | (k', v') :: o' =>
      if jseqb k' k then (k', v) :: o' else (k', v') :: obj_set k v o'
  end.
End Obj.

(** ** The environment of a request *)

Inductive InodeKind : Type :=
| S_IFREG | S_IFDIR | S_IFIFO | S_IFSOCK | S_IFCHR | S_IFBLK.

Record Stats : Type := mkStats {
  st_kind : InodeKind;
  size : N
}.

Definition isFile (st : Stats) : bool :=
  match st_kind st with S_IFREG => true | _ => false end.

Definition isDirectory (st : Stats) : bool :=
  match st_kind st with S_IFDIR => true | _ => false end.

(** What a read stream emits: some [data] events, then [end] or [error]. *)
Inductive ReadOutcome : Type :=
| ReadEnd (chunks : list (list N))
| ReadError (chunks : list (list N)).

(** The answers of the file system.  [None] is an error: passed to the
    callback by the asynchronous calls, thrown by [fs.statSync].  [fs_stat]
    answers both [fs.stat] and [fs.statSync], which follow symbolic links. *)
Record World : Type := mkWorld {
  fs_exists : jsstring -> bool;
  fs_open : jsstring -> option N;
  fs_fstat : N -> option Stats;
  fs_stat : jsstring -> option Stats;
  fs_readdir : jsstring -> option (list jsstring);
  fs_readFile : jsstring -> option (list N);
  fs_createReadStream : jsstring -> ReadOutcome
}.

(** The part of the configuration the handler reads. *)
Record Config : Type := mkConfig {
  filesPath : jsstring;
  noCache : bool
}.

Inductive HeaderValue : Type :=
| HStr (s : jsstring)
| HNum (n : N).

Definition Headers := list (jsstring * HeaderValue).

Inductive Body : Type :=
| NoData
| Text (s : jsstring)
| Bytes (b : list N).

Inductive Exn : Type :=
| URIError      (* decodeURIComponent on a malformed escape *)
| StatError     (* fs.statSync failed *)
| TypeError     (* a method called on undefined *)
| HeadersSent.  (* res.writeHead refused: the status line is out already *)

(** The calls a handler makes, in order. *)
Inductive Event : Type :=
| FsExists (p : jsstring)
| FsOpen (p : jsstring) (fd : option N)
| FsFstat (fd : N)
| FsStat (p : jsstring)
| FsStatSync (p : jsstring)
| FsReaddir (p : jsstring)
| FsReadFile (p : jsstring)
| FsClose (fd : N)
| StreamOpen (p : jsstring)       (* fs.createReadStream *)
| StreamClose (p : jsstring)      (* the stream closes its own descriptor *)
| ResWriteHead (status : N) (head : Headers)
| ResWrite (chunk : list N)
| ResEnd (data : Body)
| Uncaught (e : Exn).

Definition Trace := list Event.

(** Calls in sequence, cut short by an exception. *)
Inductive Result (A : Type) : Type :=
| Ok (a : A)
| Throw (e : Exn).
Arguments Ok {A} a.
Arguments Throw {A} e.

Definition IO (A : Type) : Type := Trace * Result A.

Definition ret {A : Type} (a : A) : IO A := ([], Ok a).

Definition bind {A B : Type} (m : IO A) (f : A -> IO B) : IO B :=
  match m with
  | (t, Ok a) => let '(t', r) := f a in (t ++ t', r)
  | (t, Throw e) => (t, Throw e)
  end.

Definition emit (e : Event) : IO unit := ([e], Ok tt).

Definition throw {A : Type} (e : Exn) : IO A := ([], Throw e).

Notation "x <- m ;; k" := (bind m (fun x => k))
  (at level 61, m at next level, right associativity).
Notation "m ;; k" := (bind m (fun _ => k))
  (at level 61, right associativity).

(** The trace of a whole request; an exception nobody catches ends it. *)
Definition run (m : IO unit) : Trace :=
  match m with
  | (t, Ok _) => t
  | (t, Throw e) => t ++ [Uncaught e]
  end.

(** ** Reading a response off a trace *)

Fixpoint first_head (t : Trace) : option (N * Headers) :=
  match t with
  | [] => None
  | ResWriteHead s h :: _ => Some (s, h)
  | _ :: t' => first_head t'
  end.

Definition status_of (t : Trace) : option N := option_map fst (first_head t).

Definition header_of (name : jsstring) (t : Trace) : option HeaderValue :=
  match first_head t with
  | Some (_, h) => obj_get name h
  | None => None
  end.

Definition body_bytes (b : Body) : list N :=
  match b with
  | NoData => []
  | Text s => utf8_encode s
  | Bytes l => l
  end.

Fixpoint body_of (t : Trace) : list N :=
  match t with
  | [] => []
  | ResWrite c :: t' => c ++ body_of t'
  | ResEnd b :: t' => body_bytes b ++ body_of t'
  | _ :: t' => body_of t'
  end.

Definition is_writeHead (e : Event) : bool :=
  match e with ResWriteHead _ _ => true | _ => false end.

Definition is_end (e : Event) : bool :=
  match e with ResEnd _ => true | _ => false end.

(** File system work, as opposed to calls on the response. *)
Definition is_fs (e : Event) : bool :=
  match e with
  | ResWriteHead _ _ | ResWrite _ | ResEnd _ | Uncaught _ => false
  | _ => true
  end.

Definition writeHead_count (t : Trace) : nat := List.length (filter is_writeHead t).

(** Descriptors: the one [fs.open] hands out, and the one a read stream
    holds internally. *)
Inductive Handle : Type :=
| Fd (fd : N)
| StreamFd (p : jsstring).

Definition handle_eqb (a b : Handle) : bool :=
  match a, b with
  | Fd x, Fd y => x =? y
  | StreamFd p, StreamFd q => jseqb p q
  | _, _ => false
  end.

Definition release (h : Handle) (open : list Handle) : list Handle :=
  filter (fun h' => negb (handle_eqb h h')) open.

(** The descriptors still open after a trace. *)
Fixpoint open_after (t : Trace) (open : list Handle) : list Handle :=
  match t with
  | [] => open
  | FsOpen _ (Some fd) :: t' => open_after t' (open ++ [Fd fd])
  | StreamOpen p :: t' => open_after t' (open ++ [StreamFd p])
  | FsClose fd :: t' => open_after t' (release (Fd fd) open)
  | StreamClose p :: t' => open_after t' (release (StreamFd p) open)
  | _ :: t' => open_after t' open
  end.

Definition leaked (t : Trace) : list Handle := open_after t [].

(** ** Code shared by the revisions *)

(** The first lines of the request handler: the pathname given by
    [url.parse], with plus signs turned into spaces, percent-decoded and
    stripped of its leading slashes, then joined to the root. *)

Fixpoint strip_slashes (pathname : jsstring) : jsstring :=
  match pathname with
  | c :: rest => if c =? c_slash then strip_slashes rest else pathname
  | [] => []
  end.

Record RequestContext : Type := mkContext {
  pathname : jsstring;
  fullPath : jsstring
}.

Definition resolve (root raw : jsstring) : option RequestContext :=
  match decodeURIComponent (join (js " ") (split c_plus raw)) with
  | None => None
  | Some decoded =>
      let pathname := strip_slashes decoded in
      Some (mkContext pathname (path_join root pathname))
  end.

(** The header object of every error response. *)
Definition textPlain : Headers :=
  [(js "Content-Type", HStr (js "text/plain; charset=utf-8"))].

Definition tellAboutError (errNum : N) (errMsg : jsstring) : IO unit :=
  emit (ResWriteHead errNum textPlain) ;;
  emit (ResEnd (Text (js "Error " ++ N_to_js errNum ++ js ". " ++ errMsg))).

Definition template : jsstring :=
  js "<!doctype html>"
  ++ js "<html>"
  ++ js "<head>"
  ++ js "<meta charset=" ++ [c_dquote] ++ js "utf-8" ++ [c_dquote] ++ js ">"
  ++ js "<title>Directory " ++ [c_dquote] ++ js "#PATHNAME#" ++ [c_dquote]
  ++ js "</title>"
  ++ js "</head>"
  ++ js "<body>"
  ++ js "<h1>Directory " ++ [c_dquote] ++ js "#PATHNAME#" ++ [c_dquote]
  ++ js "</h1>"
  ++ js "<ul>"
  ++ js "#LIST_ELEMENTS#"
  ++ js "</ul>"
  ++ js "</body>"
  ++ js "</html>".

Definition listElementTemplate : jsstring :=
  js "<li>#TYPE# <a href=" ++ [c_dquote] ++ js "#LINK#" ++ [c_dquote]
  ++ js ">#TITLE#</a></li>".

(** The three chained [replace] calls that fill one list element. *)
Definition listElement (type link title : jsstring) : jsstring :=
  replace_all (js "#TITLE#") title
    (replace_all (js "#LINK#") link
       (replace_all (js "#TYPE#") type listElementTemplate)).

(** The [files.forEach] loop of [listDir]: every child is stat-ed and pushed
    on [dirsList] or on [filesList], or on neither. *)
Fixpoint classify (w : World) (dir : jsstring) (files dirsList filesList : list jsstring)
  : IO (list jsstring * list jsstring) :=
  match files with
  | [] => ret (dirsList, filesList)
  | file :: rest =>
      let filePath := path_join dir file in
      emit (FsStatSync filePath) ;;
      match fs_stat w filePath with
      | None => throw StatError
      | Some stat =>
          if isDirectory stat then classify w dir rest (dirsList ++ [file]) filesList
          else if isFile stat then classify w dir rest dirsList (filesList ++ [file])
          else classify w dir rest dirsList filesList
      end
  end.

Definition parentElement (pathname : jsstring) : jsstring :=
  if negb (jseqb pathname []) && negb (jseqb pathname (js "/"))
  then listElement (js "[D]") (js "./..") (js "..")
  else [].

Definition dirElement (name : jsstring) : jsstring :=
  listElement (js "[D]") (js "./" ++ name ++ js "/") name.

Definition fileElement (name : jsstring) : jsstring :=
  listElement (js "[F]") (js "./" ++ name) name.

(** [listElements] as it stands after the two rendering loops. *)
Definition listElements (pathname : jsstring) (dirsList filesList : list jsstring)
  : jsstring :=
  fold_left (fun acc name => acc ++ fileElement name) (sort filesList)
    (fold_left (fun acc name => acc ++ dirElement name) (sort dirsList)
       (parentElement pathname)).

Definition listHtml (pathname : jsstring) (dirsList filesList : list jsstring)
  : jsstring :=
  replace_all (js "#LIST_ELEMENTS#") (listElements pathname dirsList filesList)
    (replace_all (js "#PATHNAME#") (js "/" ++ pathname) template).

Definition noCacheHeaders (head : Headers) : Headers :=
  obj_set (js "Expires") (HStr (js "0"))
    (obj_set (js "Pragma") (HStr (js "no-cache"))
       (obj_set (js "Cache-Control")
          (HStr (js "no-cache, no-store, must-revalidate")) head)).

(** ** The streaming revision *)

Module Streaming.

Definition defEnc : jsstring := js "utf-8".

Definition contentTypes : list (jsstring * jsstring) :=
  [ (js ".html", js "text/html; charset=" ++ defEnc);
    (js ".css", js "text/css; charset=" ++ defEnc);
    (js ".less", js "text/css; charset=" ++ defEnc);
    (js ".js", js "text/javascript; charset=" ++ defEnc);
    (js ".txt", js "text/plain; charset=" ++ defEnc);
    (js ".png", js "image/png");
    (js ".jpeg", js "image/jpeg");
    (js ".jpg", js "image/jpeg");
    (js ".jpe", js "image/jpeg");
    (js ".gif", js "image/gif");
    (js ".svg", js "image/svg+xml; charset=" ++ defEnc);
    (js ".svgz", js "image/svg+xml; charset=" ++ defEnc);
    (js ".ico", js "image/x-icon");
    (js ".eot", js "application/vnd.ms-fontobject");
    (js ".woff", js "application/font-woff");
    (js ".ttf", js "font/ttf");
    (js "*", js "application/octet-stream") ].

(** The header object [listDir] builds for the page [html]. *)
Definition dirHead (cfg : Config) (html : jsstring) : Headers :=
  let head := obj_set (js "Content-Type") (HStr (js "text/html; charset=utf-8")) [] in
  let head := obj_set (js "Content-Length") (HNum (byteLength html)) head in
  if noCache cfg then noCacheHeaders head else head.

Definition listDir (cfg : Config) (w : World) (ctx : RequestContext) : IO unit :=
  emit (FsReaddir (fullPath ctx)) ;;
  match fs_readdir w (fullPath ctx) with
  | None => tellAboutError 500 (js "Cannot read directory.")
  | Some files =>
      lists <- classify w (fullPath ctx) files [] [] ;;
      let html := listHtml (pathname ctx) (fst lists) (snd lists) in
      emit (ResWriteHead 200 (dirHead cfg html)) ;;
      emit (ResEnd (Text html))
  end.

(** The [for (var ext in contentTypes)] loop of [openFile]; it does not
    stop at a match. *)
Fixpoint typeLoop (table : list (jsstring * jsstring)) (extension : jsstring)
    (head : Headers) : Headers :=
  match table with
  | [] => head
  | (ext, type) :: rest =>
      if jseqb ext (js "*") then typeLoop rest extension head
      else if jseqb ext extension
      then typeLoop rest extension (obj_set (js "Content-Type") (HStr type) head)
      else typeLoop rest extension head
  end.

(** The header object [openFile] builds before it writes the status. *)
Definition fileHead (cfg : Config) (path : jsstring) (fileStat : Stats) : Headers :=
  let head := obj_set (js "Content-Length") (HNum (size fileStat)) [] in
  let head := if noCache cfg then noCacheHeaders head else head in
  let head := typeLoop contentTypes (extname path) head in
  if negb (obj_has (js "Content-Type") head) then
    match obj_get (js "*") contentTypes with
    | Some type => obj_set (js "Content-Type") (HStr type) head
    | None => head
    end
  else head.

(** The [data] handler: each chunk goes to [res.write] with the encoding
    ['binary'], under which the stream was opened too, so the bytes read are
    the bytes written. *)
Fixpoint writeChunks (chunks : list (list N)) : IO unit :=
  match chunks with
  | [] => ret tt
  | chunk :: rest => emit (ResWrite chunk) ;; writeChunks rest
  end.

(** [openFile]: the status and the headers are written before the first
    chunk is read; the [end] handler ends the response, the [error] handler
    calls [tellAboutError].  The stream closes its descriptor after either.
    The [error] branch is the one of Node 0.10, where a second status line
    is taken; [StreamingOn.openFile] below has the other runtime too. *)
Definition openFile (cfg : Config) (w : World) (ctx : RequestContext)
    (fileStat : Stats) : IO unit :=
  emit (StreamOpen (fullPath ctx)) ;;
  emit (ResWriteHead 200 (fileHead cfg (fullPath ctx) fileStat)) ;;
  match fs_createReadStream w (fullPath ctx) with
  | ReadEnd chunks =>
      writeChunks chunks ;;
      emit (ResEnd NoData) ;;
      emit (StreamClose (fullPath ctx))
  | ReadError chunks =>
      writeChunks chunks ;;
      tellAboutError 500 (js "Cannot read file.") ;;
      emit (StreamClose (fullPath ctx))
  end.

Definition getStatCallback (cfg : Config) (w : World) (ctx : RequestContext)
    (stat : option Stats) : IO unit :=
  match stat with
  | None => tellAboutError 500 (js "Cannot open this path.")
  | Some fileStat =>
      if isFile fileStat then openFile cfg w ctx fileStat
      else if isDirectory fileStat then listDir cfg w ctx
      else tellAboutError 500 (js "Cannot open this path.")
  end.

Definition serve (cfg : Config) (w : World) (raw : jsstring) : IO unit :=
  match resolve (filesPath cfg) raw with
  | None => throw URIError
  | Some ctx =>
      emit (FsExists (fullPath ctx)) ;;
      if negb (fs_exists w (fullPath ctx))
      then tellAboutError 404 (js "Page not found.")
      else
        emit (FsOpen (fullPath ctx) (fs_open w (fullPath ctx))) ;;
        match fs_open w (fullPath ctx) with
        | None => tellAboutError 500 (js "Cannot open this path.")
        | Some fileDescriptor =>
            emit (FsFstat fileDescriptor) ;;
            getStatCallback cfg w ctx (fs_fstat w fileDescriptor)
        end
  end.

(** The trace of one request whose [url.parse(req.url).pathname] is [raw]. *)
Definition handler (cfg : Config) (w : World) (raw : jsstring) : Trace :=
  run (serve cfg w raw).

End Streaming.

(** ** [http-file-server.js], version 0.2.1 *)

Module V021.

Definition defEnc : jsstring := js "utf-8".

Definition contentTypes : list (jsstring * jsstring) :=
  [ (js ".html", js "text/html; charset=" ++ defEnc);
    (js ".css", js "text/css; charset=" ++ defEnc);
    (js ".js", js "text/javascript; charset=" ++ defEnc);
    (js ".txt", js "text/plain; charset=" ++ defEnc);
    (js ".png", js "image/png");
    (js ".jpeg", js "image/jpeg");
    (js ".jpg", js "image/jpeg");
    (js ".jpe", js "image/jpeg");
    (js ".gif", js "image/gif");
    (js ".svg", js "image/svg+xml");
    (js ".svgz", js "image/svg+xml");
    (js ".ico", js "image/x-icon");
    (js "*", js "application/octet-stream") ].

Definition listDir (w : World) (ctx : RequestContext) : IO unit :=
  emit (FsReaddir (fullPath ctx)) ;;
  match fs_readdir w (fullPath ctx) with
  | None => tellAboutError 500 (js "Can't read dir.")
  | Some files =>
      lists <- classify w (fullPath ctx) files [] [] ;;
      let html := listHtml (pathname ctx) (fst lists) (snd lists) in
      emit (ResWriteHead 200
              [(js "Content-Type", HStr (js "text/html; charset=utf-8"))]) ;;
      emit (ResEnd (Text html))
  end.

(** The [for (var ext in contentTypes)] loop of [openFile]; it returns at
    the first match. *)
Fixpoint typeLoop (table : list (jsstring * jsstring)) (extension : jsstring)
  : option jsstring :=
  match table with
  | [] => None
  | (ext, type) :: rest =>
      if jseqb ext (js "*") then typeLoop rest extension
      else if jseqb ext extension then Some type
      else typeLoop rest extension
  end.

Definition openFile (w : World) (ctx : RequestContext) : IO unit :=
  emit (FsReadFile (fullPath ctx)) ;;
  match fs_readFile w (fullPath ctx) with
  | None => tellAboutError 500 (js "Can't open the file.")
  | Some data =>
      match typeLoop contentTypes (extname (fullPath ctx)) with
      | Some type =>
          emit (ResWriteHead 200 [(js "Content-Type", HStr type)]) ;;
          emit (ResEnd (Bytes data))
      | None =>
          match obj_get (js "*") contentTypes with
          | Some type => emit (ResWriteHead 200 [(js "Content-Type", HStr type)])
          | None => ret tt
          end ;;
          emit (ResEnd (Bytes data))
      end
  end.

Definition serve (cfg : Config) (w : World) (raw : jsstring) : IO unit :=
  match resolve (filesPath cfg) raw with
  | None => throw URIError
  | Some ctx =>
      emit (FsExists (fullPath ctx)) ;;
      if negb (fs_exists w (fullPath ctx))
      then tellAboutError 404 (js "Path not found.")
      else
        emit (FsStat (fullPath ctx)) ;;
        match fs_stat w (fullPath ctx) with
        | None => throw TypeError
        | Some stat =>
            if isFile stat then openFile w ctx
            else if isDirectory stat then listDir w ctx
            else tellAboutError 500 (js "Unknown type of inode.")
        end
  end.

Definition handler (cfg : Config) (w : World) (raw : jsstring) : Trace :=
  run (serve cfg w raw).

End V021.

(** ** The specification's side *)

(** The order of the specification's Path Resolver: percent-decode first,
    then turn every plus sign into a space, then strip the leading slashes. *)
Definition plus_to_space (s : jsstring) : jsstring :=
  map (fun c => if c =? c_plus then c_space else c) s.

Definition spec_decodedPath (raw : jsstring) : option jsstring :=
  option_map (fun decoded => strip_slashes (plus_to_space decoded))
    (decodeURIComponent raw).

(** A pending sequence of the decoder expects a code point above the
    ASCII range. *)
Definition pending_ok (p : option Pending) : Prop :=
  match p with
  | Some q => 0x80 <= lo q
  | None => True
  end.

Definition tok_space (t : UriTok) : UriTok :=
  match t with
  | Lit c => Lit (if c =? c_plus then c_space else c)
  | Oct b => Oct b
  end.

(** The specification's extension of a path: what follows the last dot of
    the final segment, the dot included. *)
Definition spec_extension (p : jsstring) : option jsstring :=
  from_last_dot (final_segment p).

(** Byte-wise order: the comparison of the UTF-8 encodings. *)
Definition bytewise_leb (a b : jsstring) : bool :=
  js_leb (utf8_encode a) (utf8_encode b).

Definition bytewise_le (a b : jsstring) : Prop := bytewise_leb a b = true.

(** A code unit that is a character of the basic plane by itself: not a
    surrogate. *)
Definition bmp (c : N) : bool :=
  (c <? 0xD800) || ((0xDFFF <? c) && (c <? 0x10000)).

(** [free c s]: the code unit [c] does not occur in [s]. *)
Definition free (c : N) (s : jsstring) : bool :=
  forallb (fun x => negb (x =? c)) s.

(** The code units that turn a dollar sign into a replacement pattern. *)
Definition special (d : N) : bool :=
  (d =? c_dollar) || (d =? c_amp) || (d =? c_backtick) || (d =? c_quote).

(** [inert s]: no dollar sign of [s] starts a replacement pattern, so that
    [replace] inserts [s] as it is. *)
Fixpoint inert (s : jsstring) : bool :=
  match s with
  | [] => true
  | c :: r =>
      (if c =? c_dollar
       then match r with d :: _ => negb (special d) | [] => true end
       else true) && inert r
  end.

Fixpoint ends_dollar (s : jsstring) : bool :=
  match s with
  | [] => false
  | c :: r => match r with [] => c =? c_dollar | _ :: _ => ends_dollar r end
  end.

Definition head_special (s : jsstring) : bool :=
  match s with d :: _ => special d | [] => false end.

(** [quiet pat pre rest]: in [pre ++ rest] no occurrence of [pat] starts
    within [pre]. *)
Fixpoint quiet (pat pre rest : jsstring) : bool :=
  match pre with
  | [] => true
  | _ :: pre' => negb (starts_with pat (pre ++ rest)) && quiet pat pre' rest
  end.

(** The renderings the specification describes. *)
Definition entry (tag href title : jsstring) : jsstring :=
  js "<li>" ++ tag ++ js " <a href=" ++ [c_dquote] ++ href ++ [c_dquote]
  ++ js ">" ++ title ++ js "</a></li>".

Definition spec_dirEntry (name : jsstring) : jsstring :=
  entry (js "[D]") (js "./" ++ name ++ js "/") name.

Definition spec_fileEntry (name : jsstring) : jsstring :=
  entry (js "[F]") (js "./" ++ name) name.

Definition spec_parentEntry : jsstring := entry (js "[D]") (js "./..") (js "..").

Definition is_root (pathname : jsstring) : bool :=
  jseqb pathname [] || jseqb pathname (js "/").

(** The page around the list: title and heading show the requested path. *)
Definition pageTop (pathname : jsstring) : jsstring :=
  js "<!doctype html><html><head><meta charset=" ++ [c_dquote] ++ js "utf-8"
  ++ [c_dquote] ++ js "><title>Directory " ++ [c_dquote]
  ++ (js "/" ++ pathname)
  ++ [c_dquote] ++ js "</title></head><body><h1>Directory " ++ [c_dquote]
  ++ (js "/" ++ pathname)
  ++ [c_dquote] ++ js "</h1><ul>".

Definition pageBottom : jsstring := js "</ul></body></html>".

(** The children of [dir] that stat as directories, and as regular files. *)
Definition isDirChild (w : World) (dir child : jsstring) : bool :=
  match fs_stat w (path_join dir child) with
  | Some st => isDirectory st
  | None => false
  end.

Definition isFileChild (w : World) (dir child : jsstring) : bool :=
  match fs_stat w (path_join dir child) with
  | Some st => negb (isDirectory st) && isFile st
  | None => false
  end.

Definition statable (w : World) (dir child : jsstring) : bool :=
  match fs_stat w (path_join dir child) with
  | Some _ => true
  | None => false
  end.

(** The [fs.statSync] calls of the classification loop. *)
Definition statEvents (dir : jsstring) (children : list jsstring) : Trace :=
  map (fun child => FsStatSync (path_join dir child)) children.

(** The header object of [openFile] as it stands before the type loop. *)
Definition lengthHead (cfg : Config) (st : Stats) : Headers :=
  let head := obj_set (js "Content-Length") (HNum (size st)) [] in
  if noCache cfg then noCacheHeaders head else head.

(** An upper-case ASCII letter occurs in the string. *)
Definition has_upper (s : jsstring) : bool :=
  existsb (fun c => (65 <=? c) && (c <=? 90)) s.

Fixpoint contains (needle hay : jsstring) : bool :=
  match hay with
  | [] => starts_with needle []
  | _ :: hay' => starts_with needle hay || contains needle hay'
  end.

(** A name the templates reproduce as it is: no replacement pattern, and
    not the placeholder that is filled after the link. *)
Definition plain_name (name : jsstring) : bool :=
  inert name && negb (contains (js "#TITLE#") name).

(** A request path the page template reproduces as it is. *)
Definition plain_path (pathname : jsstring) : bool :=
  inert pathname && negb (contains (js "#LIST_ELEMENTS#") pathname).

(** ** A concrete file system *)

Module Example.

Inductive Node : Type :=
| RegularFile (content : list N)
| FaultyFile (len : N) (delivered : list (list N))  (* reading it fails *)
| Directory (children : list jsstring)
| Special (k : InodeKind)
| Dangling.                   (* a symbolic link whose target is missing *)

Definition stat_of (n : Node) : option Stats :=
  match n with
  | RegularFile c => Some (mkStats S_IFREG (N.of_nat (List.length c)))
  | FaultyFile len _ => Some (mkStats S_IFREG len)
  | Directory _ => Some (mkStats S_IFDIR 4096)
  | Special k => Some (mkStats k 0)
  | Dangling => None
  end.

Fixpoint index_of (p : jsstring) (tbl : list (jsstring * Node)) (i : N) : option N :=
  match tbl with
  | [] => None
  | (q, _) :: tbl' => if jseqb q p then Some i else index_of p tbl' (i + 1)
  end.

Definition opt_bind {A B : Type} (o : option A) (f : A -> option B) : option B :=
  match o with Some a => f a | None => None end.

(** The world in which the paths of [tbl] exist; descriptors are numbered
    from 3 in the order of the table. *)
Definition world_of (tbl : list (jsstring * Node)) : World :=
  {| fs_exists p :=
       match obj_get p tbl with
       | Some Dangling | None => false
       | Some _ => true
       end;
     fs_open p :=
       match obj_get p tbl with
       | Some Dangling | None => None
       | Some _ => index_of p tbl 3
       end;
     fs_fstat fd :=
       opt_bind (nth_error tbl (N.to_nat (fd - 3))) (fun e => stat_of (snd e));
     fs_stat p := opt_bind (obj_get p tbl) stat_of;
     fs_readdir p :=
       match obj_get p tbl with
       | Some (Directory children) => Some children
       | _ => None
       end;
     fs_readFile p :=
       match obj_get p tbl with
       | Some (RegularFile c) => Some c
       | _ => None
       end;
     fs_createReadStream p :=
       match obj_get p tbl with
       | Some (RegularFile []) => ReadEnd []
       | Some (RegularFile c) => ReadEnd [c]
       | Some (FaultyFile _ delivered) => ReadError delivered
       | _ => ReadError []
       end |}.

Definition cfg : Config := mkConfig (js "/srv") false.

Definition tilde_wide : jsstring := [0xFF5E].          (* U+FF5E *)
Definition grinning : jsstring := [0xD83D; 0xDE00].    (* U+1F600 *)

Definition tree : list (jsstring * Node) :=
  [ (js "/srv", Directory [js "a.txt"; js "sub"]);
    (js "/srv/a.txt", RegularFile (js "hi"));
    (js "/srv/sub", Directory []);
    (js "/srv/sub/", Directory []);
    (js "/srv/image.png", RegularFile [137; 80; 78; 71]);
    (js "/srv/image.PNG", RegularFile [137; 80; 78; 71]);
    (js "/srv/photo.JPG", RegularFile [255; 216; 255]);
    (js "/srv/photo.jpg", RegularFile [255; 216; 255]);
    (js "/srv/data.xyz", RegularFile [1; 2; 3]);
    (js "/srv/README", RegularFile (js "read me"));
    (js "/srv/a+b", RegularFile (js "plus"));
    (js "/srv/bad.bin", FaultyFile 6 [[1; 2; 3]]);
    (js "/srv/mix", Directory [js "zeta"; js "b.txt"; js "alpha"; js "a.txt"; js "pipe"]);
    (js "/srv/mix/zeta", Directory []);
    (js "/srv/mix/alpha", Directory []);
    (js "/srv/mix/a.txt", RegularFile []);
    (js "/srv/mix/b.txt", RegularFile []);
    (js "/srv/mix/pipe", Special S_IFIFO);
    (js "/srv/links", Directory [js "ok.txt"; js "broken"]);
    (js "/srv/links/ok.txt", RegularFile []);
    (js "/srv/links/broken", Dangling);
    (js "/srv/wide", Directory [grinning; tilde_wide]);
    (js "/srv/wide/" ++ grinning, RegularFile []);
    (js "/srv/wide/" ++ tilde_wide, RegularFile []);
    (js "/srv/cash", Directory [js "a$$b"]);
    (js "/srv/cash/a$$b", RegularFile []);
    (js "/srv/tags", Directory [js "x#TITLE#"]);
    (js "/srv/tags/x#TITLE#", RegularFile []) ].

Definition world : World := world_of tree.

(** The same tree once the dangling link is gone from [/srv/links]. *)
Definition tree_healed : list (jsstring * Node) :=
  obj_set (js "/srv/links") (Directory [js "ok.txt"]) tree.

Definition world_healed : World := world_of tree_healed.

End Example.

(** ** Start-up: the command line, the root path, the listen callback

    The code around the request handler is the same in the streaming
    revision and in http-file-server.js, except that only the former knows
    [--no-cache]; [knowsNoCache] tells the two apart. *)

Module Startup.

(** [port] is the number 8080 until [--port=] stores its text. *)
Inductive Port : Type :=
| PortNumber (n : N)
| PortText (s : jsstring).

Definition port_text (p : Port) : jsstring :=
  match p with
  | PortNumber n => N_to_js n
  | PortText s => s
  end.

(** The top-level variables the loop assigns; [None] is [null]. *)
Record Settings : Type := mkSettings {
  host : option jsstring;
  port : Port;
  filesPath : option jsstring;
  browse : bool;
  debug : bool;
  noCache : bool
}.

Definition defaults : Settings :=
  mkSettings (Some (js "localhost")) (PortNumber 8080) None false false false.

(** A string or [null] in a concatenation. *)
Definition host_text (h : option jsstring) : jsstring :=
  match h with
  | Some s => s
  | None => js "null"
  end.

(** What start-up does besides assigning variables. *)
Inductive Output : Type :=
| Log (s : jsstring)
| Warn (s : jsstring)
| Err (s : jsstring)
| Listen (p : Port) (h : option jsstring)
| Spawn (command : jsstring) (args : list jsstring).

(** The code units a dot of a regular expression does not match. *)
Definition is_line_terminator (c : N) : bool :=
  (c =? 10) || (c =? 13) || (c =? 0x2028) || (c =? 0x2029).

(** [/^prefix.+$/.test(arg)], with the text after the prefix when it holds;
    that text is also [arg.replace(/^prefix/, '')]. *)
Definition option_value (prefix arg : jsstring) : option jsstring :=
  let value := skipn (List.length prefix) arg in
  if starts_with prefix arg && nonempty value
     && forallb (fun c => negb (is_line_terminator c)) value
  then Some value
  else None.

Definition newline : jsstring := [10].

Definition usage (knowsNoCache : bool) (st : Settings) : jsstring :=
  newline ++ js "USAGE" ++ newline ++ js "=====" ++ newline ++ newline
  ++ js "--help      View this information" ++ newline
  ++ js "--path=abc  Set path of file server root directory (default is current dir)"
  ++ newline
  ++ js "--host=abc  Hostname of http-server (default is " ++ [c_dquote]
  ++ host_text (host st) ++ [c_dquote] ++ js "), use " ++ [c_dquote] ++ js "*"
  ++ [c_dquote] ++ js " for any host" ++ newline
  ++ js "--port=abc  Port of http-server (default is " ++ [c_dquote]
  ++ port_text (port st) ++ [c_dquote] ++ js ")" ++ newline
  ++ js "--browse    Open hostname in browser (via " ++ [c_dquote]
  ++ js "xdg-open" ++ [c_dquote] ++ js ")" ++ newline
  ++ js "--debug     Logging every request" ++ newline
  ++ (if knowsNoCache
      then js "--no-cache  Disable caching in headers" ++ newline
      else []).

(** What one round of the argument loop leaves: the variables as they now
    are, or the end of the process. *)
Inductive Parsed : Type :=
| Done (st : Settings)
| Exit (code : N) (out : list Output).

(** The body of the [for] loop: the chain of tests on one argument. *)
Definition loopBody (knowsNoCache : bool) (arg : jsstring) (st : Settings)
  : Parsed :=
  if jseqb arg (js "--help") then Exit 0 [Log (usage knowsNoCache st)]
  else
    match option_value (js "--path=") arg with
    | Some value =>
        Done (match filesPath st with
              | None => mkSettings (host st) (port st) (Some value)
                          (browse st) (debug st) (noCache st)
              | Some _ => st
              end)
    | None =>
        match option_value (js "--host=") arg with
        | Some value =>
            Done (mkSettings (if jseqb value (js "*") then None else Some value)
                    (port st) (filesPath st) (browse st) (debug st) (noCache st))
        | None =>
            match option_value (js "--port=") arg with
            | Some value =>
                Done (mkSettings (host st) (PortText value) (filesPath st)
                        (browse st) (debug st) (noCache st))
            | None =>
                if jseqb arg (js "--browse") then
                  Done (mkSettings (host st) (port st) (filesPath st)
                          true (debug st) (noCache st))
                else if jseqb arg (js "--debug") then
                  Done (mkSettings (host st) (port st) (filesPath st)
                          (browse st) true (noCache st))
                else if knowsNoCache && jseqb arg (js "--no-cache") then
                  Done (mkSettings (host st) (port st) (filesPath st)
                          (browse st) (debug st) true)
                else
                  Exit 1
                    [Err (js "Unknown argument " ++ [c_dquote] ++ arg
                          ++ [c_dquote]);
                     Log (js "Run with --help argument for view usage information")]
            end
        end
    end.

(** The [for] loop over [process.argv] from index 2 on. *)
Fixpoint parseArgs (knowsNoCache : bool) (args : list jsstring) (st : Settings)
  : Parsed :=
  match args with
  | [] => Done st
  | arg :: rest =>
      match loopBody knowsNoCache arg st with
      | Done st' => parseArgs knowsNoCache rest st'
      | Exit code out => Exit code out
      end
  end.

(** [s.replace(pat, repl)] for a non-empty string [pat]: the first
    occurrence only, the replacement expanded as for a regular expression. *)
Fixpoint replace_first_from (pat repl seen rest : jsstring) : jsstring :=
  match rest with
  | [] => []
  | c :: rest' =>
      if starts_with pat rest then
        expand repl pat seen (skipn (List.length pat) rest)
          ++ skipn (List.length pat) rest
      else c :: replace_first_from pat repl (seen ++ [c]) rest'
  end.

Definition replace_first (pat repl subject : jsstring) : jsstring :=
  replace_first_from pat repl [] subject.

(** [s.replace(/^\.\//, repl)]. *)
Definition replace_leading_dot_slash (repl subject : jsstring) : jsstring :=
  if starts_with (js "./") subject then
    expand repl (js "./") [] (skipn 2 subject) ++ skipn 2 subject
  else subject.

(** What the process is started with: the arguments after the script name,
    the working directory and [process.env['HOME']]; and what the system
    answers to [listen(port, host)]: whether the server comes to listen.
    It does not when the call throws or the server emits an error, which
    nobody handles: a port that is no port number or is taken, a host that
    is not an address of the machine. *)
Record Env : Type := mkEnv {
  argv : list jsstring;
  cwd : jsstring;
  home : option jsstring;
  listens : Port -> option jsstring -> bool
}.

(** [undefined] as a replacement is the text of that word. *)
Definition home_text (h : option jsstring) : jsstring :=
  match h with
  | Some s => s
  | None => js "undefined"
  end.

(** The two [replace] calls applied to [filesPath]. *)
Definition expandPath (env : Env) (p : jsstring) : jsstring :=
  replace_leading_dot_slash (cwd env ++ js "/")
    (replace_first (js "~") (home_text (home env)) p).

(** The callback of [listen].  Its [var host] is hoisted, so inside the
    callback [host] is the local variable, still undefined when [httpAddr]
    is computed. *)
Definition truthy (v : option jsstring) : bool :=
  match v with
  | Some s => nonempty s
  | None => false
  end.

Definition onListening (st : Settings) (root : jsstring) : list Output :=
  let host_local : option jsstring := None in
  let httpAddr :=
    js "http://"
    ++ (if truthy host_local then host_text host_local else js "localhost")
    ++ js ":" ++ port_text (port st) in
  let host_local :=
    if truthy host_local then host_text host_local else js "*" in
  Log (js "HTTP-server started at " ++ host_local ++ js ":"
       ++ port_text (port st) ++ js ", files path is: " ++ [c_dquote] ++ root
       ++ [c_dquote])
  :: (if browse st
      then [Log (js "Start xdg-open to open page " ++ [c_dquote] ++ httpAddr
                 ++ [c_dquote] ++ js " in browser");
            Spawn (js "xdg-open") [httpAddr]]
      else []).

(** A script that reached [listen]: what was printed and spawned, what the
    request handler will read, and whether the server came to listen. *)
Record Started : Type := mkStarted {
  outputs : list Output;
  settings : Settings;
  root : jsstring;
  listening : bool
}.

(** The script from its first line to the call of [listen], or to
    [process.exit]; the callback of [listen] runs when the server has come
    to listen, and not otherwise. *)
Definition main (knowsNoCache : bool) (env : Env) : Started + (N * list Output) :=
  match parseArgs knowsNoCache (argv env) defaults with
  | Exit code out => inr (code, out)
  | Done st =>
      let warned :=
        match filesPath st with
        | Some _ => []
        | None =>
            [Warn (js "Path is empty! Will be used current work dir: "
                   ++ [c_dquote] ++ cwd env ++ [c_dquote]);
             Warn (js "For specific path, start this app with: --path=/specific/path")]
        end in
      let path :=
        match filesPath st with
        | Some p => p
        | None => cwd env
        end in
      let root := expandPath env path in
      let listening := listens env (port st) (host st) in
      inl (mkStarted
             (warned
              ++ Listen (port st) (host st)
                 :: (if listening then onListening st root else []))
             st root listening)
  end.

(** The configuration of the request handler of a started server. *)
Definition config (s : Started) : Config :=
  mkConfig (root s) (noCache (settings s)).

End Startup.

(** A machine on which every [listen] succeeds, and one on which none
    does. *)
Definition listen_ok (p : Startup.Port) (h : option jsstring) : bool := true.

Definition listen_fails (p : Startup.Port) (h : option jsstring) : bool := false.

(** ** Version 0.1: start-up

    The first script of the bundle knows one option.  Its request handler
    is the one of version 0.2.1 with the logging unconditional. *)

Module V01.

(** [process.argv.forEach]: every element is tested, the path of [node]
    and of the script included; the first [--path=] with a value is taken,
    everything else is passed over. *)
Fixpoint findPath (values : list jsstring) (filesPath : option jsstring)
  : option jsstring :=
  match values with
  | [] => filesPath
  | value :: rest =>
      findPath rest
        (match filesPath with
         | None => Startup.option_value (js "--path=") value
         | Some _ => filesPath
         end)
  end.

(** The script up to the call of [listen] and, when the server comes to
    listen, through its callback: what is printed, and the root the handler
    reads.  [host] and [port] are never assigned. *)
Definition main (execPath script : jsstring) (env : Startup.Env)
  : list Startup.Output * jsstring :=
  let found := findPath (execPath :: script :: Startup.argv env) None in
  let warned :=
    match found with
    | Some _ => []
    | None =>
        [Startup.Warn (js "Path is empty! Will be used current work dir: "
                       ++ [c_dquote] ++ Startup.cwd env ++ [c_dquote]);
         Startup.Warn
           (js "For specific path, start this app with: --path=/specific/path")]
    end in
  let path :=
    match found with
    | Some p => p
    | None => Startup.cwd env
    end in
  let root := Startup.expandPath env path in
  (warned
   ++ Startup.Listen (Startup.PortNumber 8080) (Some (js "localhost"))
      :: (if Startup.listens env (Startup.PortNumber 8080) (Some (js "localhost"))
          then [Startup.Log
                  (js "HTTP-server started at " ++ js "localhost" ++ js ":"
                   ++ N_to_js 8080 ++ js ", files path is: " ++ [c_dquote]
                   ++ root ++ [c_dquote])]
          else []),
   root).

End V01.

(** ** The streaming revision on either runtime

    [Streaming.openFile] is the script on the Node of its time, 0.10, where
    [res.writeHead] may be called again after the status line went out.
    Later versions of Node refuse the second call with an exception; the
    [error] handler of the read stream does not catch it, so [res.end] is
    not reached.  There the stream has closed its descriptor before it
    reports the error.  Nothing else in the handler depends on the
    runtime. *)

Inductive Runtime : Type :=
| HeadsTolerated   (* Node 0.10 *)
| HeadsRefused.    (* the versions that throw on a second status line *)

Module StreamingOn.

(** [tellAboutError] called when the headers are sent. *)
Definition tellAboutErrorLate (rt : Runtime) (errNum : N) (errMsg : jsstring)
  : IO unit :=
  match rt with
  | HeadsTolerated => tellAboutError errNum errMsg
  | HeadsRefused => emit (ResWriteHead errNum textPlain) ;; throw HeadersSent
  end.

Definition openFile (rt : Runtime) (cfg : Config) (w : World)
    (ctx : RequestContext) (fileStat : Stats) : IO unit :=
  emit (StreamOpen (fullPath ctx)) ;;
  emit (ResWriteHead 200 (Streaming.fileHead cfg (fullPath ctx) fileStat)) ;;
  match fs_createReadStream w (fullPath ctx) with
  | ReadEnd chunks =>
      Streaming.writeChunks chunks ;;
      emit (ResEnd NoData) ;;
      emit (StreamClose (fullPath ctx))
  | ReadError chunks =>
      Streaming.writeChunks chunks ;;
      match rt with
      | HeadsTolerated =>
          tellAboutErrorLate rt 500 (js "Cannot read file.") ;;
          emit (StreamClose (fullPath ctx))
      | HeadsRefused =>
          emit (StreamClose (fullPath ctx)) ;;
          tellAboutErrorLate rt 500 (js "Cannot read file.")
      end
  end.

Definition getStatCallback (rt : Runtime) (cfg : Config) (w : World)
    (ctx : RequestContext) (stat : option Stats) : IO unit :=
  match stat with
  | None => tellAboutError 500 (js "Cannot open this path.")
  | Some fileStat =>
      if isFile fileStat then openFile rt cfg w ctx fileStat
      else if isDirectory fileStat then Streaming.listDir cfg w ctx
      else tellAboutError 500 (js "Cannot open this path.")
  end.

Definition serve (rt : Runtime) (cfg : Config) (w : World) (raw : jsstring)
  : IO unit :=
  match resolve (filesPath cfg) raw with
  | None => throw URIError
  | Some ctx =>
      emit (FsExists (fullPath ctx)) ;;
      if negb (fs_exists w (fullPath ctx))
      then tellAboutError 404 (js "Page not found.")
      else
        emit (FsOpen (fullPath ctx) (fs_open w (fullPath ctx))) ;;
        match fs_open w (fullPath ctx) with
        | None => tellAboutError 500 (js "Cannot open this path.")
        | Some fileDescriptor =>
            emit (FsFstat fileDescriptor) ;;
            getStatCallback rt cfg w ctx (fs_fstat w fileDescriptor)
        end
  end.

Definition handler (rt : Runtime) (cfg : Config) (w : World) (raw : jsstring)
  : Trace :=
  run (serve rt cfg w raw).

End StreamingOn.

(** ** Notions of the further properties *)

(** What must follow a percent sign: two hexadecimal digits. *)
Definition escape_ok (t : jsstring) : bool :=
  match t with
  | h :: l :: _ =>
      match hex_val h, hex_val l with
      | Some _, Some _ => true
      | _, _ => false
      end
  | _ => false
  end.

(** No key is written twice in an object literal. *)
Fixpoint unique_keys {V : Type} (o : list (jsstring * V)) : bool :=
  match o with
  | [] => true
  | (k, _) :: o' => negb (obj_has k o') && unique_keys o'
  end.

(** The calls on the response object, in order. *)
Definition is_res (e : Event) : bool :=
  match e with
  | ResWriteHead _ _ | ResWrite _ | ResEnd _ => true
  | _ => false
  end.

(** A trace cut down to them. *)
Definition res_events (t : Trace) : Trace := filter is_res t.

(** What [tellAboutError] does for the status 500. *)
Definition error500 (msg : jsstring) : Trace :=
  [ResWriteHead 500 textPlain; ResEnd (Text (js "Error 500. " ++ msg))].

(** What the [error] handler of the read stream leaves in the trace,
    together with the closing of the stream. *)
Definition readFailure (rt : Runtime) (p : jsstring) : Trace :=
  match rt with
  | HeadsTolerated => error500 (js "Cannot read file.") ++ [StreamClose p]
  | HeadsRefused =>
      [StreamClose p; ResWriteHead 500 textPlain; Uncaught HeadersSent]
  end.

(** Every trace of the streaming handler has one of nine shapes. *)
Inductive StreamingShape (rt : Runtime) (cfg : Config) (w : World)
  : Trace -> Prop :=
| ShapeThrow : StreamingShape rt cfg w [Uncaught URIError]
| ShapeNotFound p :
    StreamingShape rt cfg w
      [FsExists p; ResWriteHead 404 textPlain;
       ResEnd (Text (js "Error 404. Page not found."))]
| ShapeOpenError p :
    StreamingShape rt cfg w
      ([FsExists p; FsOpen p None] ++ error500 (js "Cannot open this path."))
| ShapeStatError p fd :
    StreamingShape rt cfg w
      ([FsExists p; FsOpen p (Some fd); FsFstat fd]
         ++ error500 (js "Cannot open this path."))
| ShapeReaddirError p fd :
    StreamingShape rt cfg w
      ([FsExists p; FsOpen p (Some fd); FsFstat fd; FsReaddir p]
         ++ error500 (js "Cannot read directory."))
| ShapeFile p fd st chunks :
    StreamingShape rt cfg w
      ([FsExists p; FsOpen p (Some fd); FsFstat fd; StreamOpen p;
        ResWriteHead 200 (Streaming.fileHead cfg p st)]
         ++ map ResWrite chunks ++ [ResEnd NoData; StreamClose p])
| ShapeFileError p fd st chunks :
    StreamingShape rt cfg w
      ([FsExists p; FsOpen p (Some fd); FsFstat fd; StreamOpen p;
        ResWriteHead 200 (Streaming.fileHead cfg p st)]
         ++ map ResWrite chunks ++ readFailure rt p)
| ShapeListing p fd children html :
    StreamingShape rt cfg w
      ([FsExists p; FsOpen p (Some fd); FsFstat fd; FsReaddir p]
         ++ statEvents p children
         ++ [ResWriteHead 200 (Streaming.dirHead cfg html); ResEnd (Text html)])
| ShapeCrash p fd children :
    StreamingShape rt cfg w
      ([FsExists p; FsOpen p (Some fd); FsFstat fd; FsReaddir p]
         ++ statEvents p children ++ [Uncaught StatError]).

(** The header object of a listing in version 0.2.1. *)
Definition htmlHead : Headers :=
  [(js "Content-Type", HStr (js "text/html; charset=utf-8"))].

(** Every trace of the handler of version 0.2.1 has one of nine shapes. *)
Inductive V021Shape : Trace -> Prop :=
| OldThrow : V021Shape [Uncaught URIError]
| OldNotFound p :
    V021Shape [FsExists p; ResWriteHead 404 textPlain;
               ResEnd (Text (js "Error 404. Path not found."))]
| OldStatError p : V021Shape [FsExists p; FsStat p; Uncaught TypeError]
| OldOther p :
    V021Shape ([FsExists p; FsStat p] ++ error500 (js "Unknown type of inode."))
| OldReadError p :
    V021Shape ([FsExists p; FsStat p; FsReadFile p]
                 ++ error500 (js "Can't open the file."))
| OldFile p type data :
    V021Shape [FsExists p; FsStat p; FsReadFile p;
               ResWriteHead 200 [(js "Content-Type", HStr type)];
               ResEnd (Bytes data)]
| OldReaddirError p :
    V021Shape ([FsExists p; FsStat p; FsReaddir p]
                 ++ error500 (js "Can't read dir."))
| OldListing p children html :
    V021Shape ([FsExists p; FsStat p; FsReaddir p] ++ statEvents p children
                 ++ [ResWriteHead 200 htmlHead; ResEnd (Text html)])
| OldCrash p children :
    V021Shape ([FsExists p; FsStat p; FsReaddir p] ++ statEvents p children
                 ++ [Uncaught StatError]).

(** The first status line of the trace is 200. *)
Definition is_ok (t : Trace) : bool :=
  match status_of t with
  | Some s => s =? 200
  | None => false
  end.

(** The same file system with other answers of [fs.readdir]. *)
Definition with_readdir (w : World) (answer : jsstring -> option (list jsstring))
  : World :=
  mkWorld (fs_exists w) (fs_open w) (fs_fstat w) (fs_stat w) answer
    (fs_readFile w) (fs_createReadStream w).

(** File systems that answer with an error although the path is there. *)
Module Faults.

(** Every [fs.open] fails, as it does once the process is out of
    descriptors. *)
Definition exhausted (w : World) : World :=
  mkWorld (fs_exists w) (fun _ => None) (fs_fstat w) (fs_stat w) (fs_readdir w)
    (fs_readFile w) (fs_createReadStream w).

(** The path is removed between [fs.exists] and the stat call. *)
Definition vanishing (w : World) : World :=
  mkWorld (fs_exists w) (fs_open w) (fun _ => None) (fun _ => None) (fs_readdir w)
    (fs_readFile w) (fs_createReadStream w).

(** Directories and files that may be stat-ed but not read. *)
Definition unreadable (w : World) : World :=
  mkWorld (fs_exists w) (fs_open w) (fs_fstat w) (fs_stat w) (fun _ => None)
    (fun _ => None) (fs_createReadStream w).

End Faults.

(** A path component that [normalize] keeps as it is: not empty, without a
    slash, and neither [.] nor [..]. *)
Definition segment (s : jsstring) : bool :=
  nonempty s && free c_slash s
  && negb (jseqb s (js ".")) && negb (jseqb s (js "..")).

(** A component a request can name as it is. *)
Definition unescaped (s : jsstring) : bool := free c_percent s && free c_plus s.

(** A value an option accepts: not empty, no line terminator. *)
Definition value_ok (v : jsstring) : bool :=
  nonempty v && forallb (fun c => negb (Startup.is_line_terminator c)) v.

(** The code unit of the tilde. *)
Definition c_tilde : N := 126.

(** * Properties *)

(** ** Strings and sorting *)

Lemma jseqb_eq (a b : jsstring) : jseqb a b = true <-> a = b.
Proof.
  revert b; induction a as [|x a IH]; intros [|y b]; simpl; split; intro H;
    try reflexivity; try discriminate.
  - apply andb_true_iff in H as [Hx Hr].
    apply N.eqb_eq in Hx. apply IH in Hr. now subst.
  - injection H as -> ->. rewrite N.eqb_refl. now apply IH.
Qed.

Lemma jseqb_refl (a : jsstring) : jseqb a a = true.
Proof. now apply jseqb_eq. Qed.

Lemma jseqb_neq (a b : jsstring) : jseqb a b = false <-> a <> b.
Proof.
  rewrite <- jseqb_eq. destruct (jseqb a b); split; congruence.
Qed.

Lemma js_compare_antisym (a b : jsstring) :
  js_compare a b = CompOpp (js_compare b a).
Proof.
  revert b; induction a as [|x a IH]; intros [|y b]; simpl; try reflexivity.
  rewrite (N.compare_antisym y x).
  destruct (y ?= x); simpl; auto.
Qed.

Lemma js_compare_eq (a b : jsstring) : js_compare a b = Eq -> a = b.
Proof.
  revert b; induction a as [|x a IH]; intros [|y b]; simpl; intro H;
    try reflexivity; try discriminate.
  destruct (x ?= y) eqn:E; try discriminate.
  apply N.compare_eq in E. apply IH in H. now subst.
Qed.

Lemma js_compare_refl (a : jsstring) : js_compare a a = Eq.
Proof.
  induction a as [|x a IH]; simpl; [reflexivity|].
  now rewrite N.compare_refl.
Qed.

Lemma js_compare_lt_trans (a b c : jsstring) :
  js_compare a b = Lt -> js_compare b c = Lt -> js_compare a c = Lt.
Proof.
  revert b c; induction a as [|x a IH]; intros [|y b] [|z c]; simpl;
    try reflexivity; try discriminate.
  destruct (x ?= y) eqn:Exy; try discriminate;
    destruct (y ?= z) eqn:Eyz; try discriminate; intros H1 H2.
  - apply N.compare_eq in Exy, Eyz. subst. rewrite N.compare_refl. eauto.
  - apply N.compare_eq in Exy. subst. now rewrite Eyz.
  - apply N.compare_eq in Eyz. subst. now rewrite Exy.
  - rewrite N.compare_lt_iff in Exy, Eyz.
    assert (E : (x ?= z) = Lt) by (apply N.compare_lt_iff; lia).
    now rewrite E.
Qed.

Lemma js_le_iff (a b : jsstring) : js_le a b <-> js_compare a b <> Gt.
Proof.
  unfold js_le, js_leb, js_ltb. rewrite (js_compare_antisym b a).
  destruct (js_compare a b); simpl; split; congruence.
Qed.

Lemma js_le_refl (a : jsstring) : js_le a a.
Proof. apply js_le_iff. rewrite js_compare_refl. discriminate. Qed.

Lemma js_le_total (a b : jsstring) : js_leb a b = false -> js_le b a.
Proof.
  intro H. apply js_le_iff. unfold js_leb, js_ltb in H.
  destruct (js_compare b a); try discriminate.
Qed.

Lemma js_le_trans (a b c : jsstring) : js_le a b -> js_le b c -> js_le a c.
Proof.
  rewrite !js_le_iff. intros Hab Hbc.
  destruct (js_compare a b) eqn:Eab; try congruence;
    destruct (js_compare b c) eqn:Ebc; try congruence.
  - apply js_compare_eq in Eab, Ebc. subst. now rewrite js_compare_refl.
  - apply js_compare_eq in Eab. subst. now rewrite Ebc.
  - apply js_compare_eq in Ebc. subst. now rewrite Eab.
  - now rewrite (js_compare_lt_trans a b c).
Qed.

Lemma js_le_antisym (a b : jsstring) : js_le a b -> js_le b a -> a = b.
Proof.
  rewrite !js_le_iff, (js_compare_antisym b a).
  destruct (js_compare a b) eqn:E; simpl; try congruence.
  intros _ _. now apply js_compare_eq.
Qed.

Lemma sort_insert_perm (x : jsstring) (l : list jsstring) :
  Permutation (x :: l) (sort_insert x l).
Proof.
  induction l as [|y l IH]; simpl; [reflexivity|].
  destruct (js_leb x y); [reflexivity|].
  rewrite perm_swap. now constructor.
Qed.

Lemma sort_perm (l : list jsstring) : Permutation l (sort l).
Proof.
  induction l as [|x l IH]; simpl; [constructor|].
  rewrite <- sort_insert_perm. now constructor.
Qed.

Lemma sort_insert_sorted (x : jsstring) (l : list jsstring) :
  Sorted js_le l -> Sorted js_le (sort_insert x l).
Proof.
  induction 1 as [|y l Hl IH Hy]; simpl.
  - repeat constructor.
  - destruct (js_leb x y) eqn:E.
    + constructor; [now constructor|]. constructor. exact E.
    + constructor; [exact IH|].
      apply js_le_total in E.
      destruct l as [|z l]; simpl.
      * now constructor.
      * destruct (js_leb x z); constructor; [exact E|].
        now inversion Hy.
Qed.

Lemma sort_sorted (l : list jsstring) : Sorted js_le (sort l).
Proof.
  induction l as [|x l IH]; simpl; [constructor|].
  now apply sort_insert_sorted.
Qed.

Lemma sort_strongly_sorted (l : list jsstring) : StronglySorted js_le (sort l).
Proof.
  apply Sorted_StronglySorted; [|apply sort_sorted].
  intros a b c. apply js_le_trans.
Qed.

Lemma split_nonempty (sep : N) (s : jsstring) : split sep s <> [].
Proof.
  destruct s as [|c s]; simpl; [discriminate|].
  destruct (c =? sep); [discriminate|].
  destruct (split sep s); discriminate.
Qed.

Lemma join_split_plus (s : jsstring) :
  join (js " ") (split c_plus s) = plus_to_space s.
Proof.
  induction s as [|c s IH]; [reflexivity|].
  simpl split. simpl plus_to_space.
  pose proof (split_nonempty c_plus s) as Hne.
  destruct (split c_plus s) as [|h t]; [congruence|].
  rewrite <- IH.
  destruct (c =? c_plus); [reflexivity|].
  destruct t; reflexivity.
Qed.

Lemma strip_slashes_spec (s : jsstring) :
  exists k, s = repeat c_slash k ++ strip_slashes s.
Proof.
  induction s as [|c s [k IH]]; simpl.
  - now exists O.
  - destruct (c =? c_slash) eqn:E.
    + apply N.eqb_eq in E. subst c. exists (S k). simpl. now f_equal.
    + now exists O.
Qed.

Lemma strip_slashes_head (s : jsstring) :
  hd_error (strip_slashes s) <> Some c_slash.
Proof.
  induction s as [|c s IH]; simpl; [discriminate|].
  destruct (c =? c_slash) eqn:E; [exact IH|].
  simpl. intro H. injection H as ->. discriminate.
Qed.

(** ** UTF-8 keeps the order of basic-plane strings *)

Lemma split64 (x : N) : x = 64 * (x / 64) + x mod 64 /\ x mod 64 < 64.
Proof.
  split; [apply N.div_mod'|apply N.mod_lt; discriminate].
Qed.

Lemma div4096 (x : N) : x / 4096 = x / 64 / 64.
Proof. now rewrite N.Div0.div_div. Qed.

(** The encoding of a smaller code point is smaller at its first differing
    byte, whatever follows. *)
Lemma utf8_of_codepoint_lt (x y : N) (A B : list N) :
  x < y -> y < 0x10000 ->
  js_compare (utf8_of_codepoint x ++ A) (utf8_of_codepoint y ++ B) = Lt.
Proof.
  intros Hxy Hy. unfold utf8_of_codepoint.
  rewrite !div4096.
  destruct (split64 x) as [Hx1 Hx2], (split64 (x / 64)) as [Hx3 Hx4].
  destruct (split64 y) as [Hy1 Hy2], (split64 (y / 64)) as [Hy3 Hy4].
  generalize dependent (x / 64 / 64). generalize dependent (x / 64 mod 64).
  generalize dependent (y / 64 / 64). generalize dependent (y / 64 mod 64).
  generalize dependent (x / 64). generalize dependent (y / 64).
  generalize dependent (x mod 64). generalize dependent (y mod 64).
  intros.
  destruct (N.ltb_spec x 0x80), (N.ltb_spec x 0x800), (N.ltb_spec x 0x10000),
    (N.ltb_spec y 0x80), (N.ltb_spec y 0x800), (N.ltb_spec y 0x10000);
    try lia; cbn [app js_compare];
    repeat match goal with
      | |- context [?a ?= ?b] => destruct (N.compare_spec a b); try lia
      end; reflexivity.
Qed.

Lemma utf8_of_codepoint_cons (v : N) :
  exists b bs, utf8_of_codepoint v = b :: bs.
Proof.
  unfold utf8_of_codepoint.
  destruct (v <? 0x80); [|destruct (v <? 0x800); [|destruct (v <? 0x10000)]];
    eexists; eexists; reflexivity.
Qed.

Lemma js_compare_app_same (u A B : jsstring) :
  js_compare (u ++ A) (u ++ B) = js_compare A B.
Proof.
  induction u as [|x u IH]; [reflexivity|].
  simpl. now rewrite N.compare_refl.
Qed.

Lemma bmp_range (c : N) : bmp c = true -> c < 0x10000.
Proof.
  unfold bmp. intros [H | [_ H]%andb_true_iff]%orb_true_iff;
    apply N.ltb_lt in H; lia.
Qed.

Lemma utf8_encode_bmp (s : jsstring) :
  forallb bmp s = true -> utf8_encode s = flat_map utf8_of_codepoint s.
Proof.
  induction s as [|c s IH]; [reflexivity|].
  cbn [forallb]. intros [Hc Hs]%andb_true_iff.
  cbn [utf8_encode flat_map]. rewrite <- IH by exact Hs.
  unfold bmp in Hc. unfold is_high_surrogate, is_low_surrogate.
  destruct (N.ltb_spec c 0xD800), (N.ltb_spec 0xDFFF c), (N.leb_spec 0xD800 c),
    (N.leb_spec c 0xDBFF), (N.leb_spec 0xDC00 c), (N.leb_spec c 0xDFFF);
    try lia; try reflexivity; discriminate.
Qed.

Lemma js_compare_utf8 (a b : jsstring) :
  forallb bmp a = true -> forallb bmp b = true ->
  js_compare (utf8_encode a) (utf8_encode b) = js_compare a b.
Proof.
  intros Ha Hb. rewrite !utf8_encode_bmp by assumption.
  revert b Ha Hb; induction a as [|x a IH]; intros [|y b] Ha Hb.
  - reflexivity.
  - cbn [flat_map]. destruct (utf8_of_codepoint_cons y) as [h [t ->]]. reflexivity.
  - cbn [flat_map]. destruct (utf8_of_codepoint_cons x) as [h [t ->]]. reflexivity.
  - cbn [forallb] in Ha, Hb.
    apply andb_true_iff in Ha as [Hx Ha], Hb as [Hy Hb].
    apply bmp_range in Hx, Hy.
    cbn [flat_map js_compare].
    destruct (N.compare_spec x y) as [-> | Hlt | Hgt].
    + rewrite js_compare_app_same. now apply IH.
    + now apply utf8_of_codepoint_lt.
    + rewrite js_compare_antisym, utf8_of_codepoint_lt by assumption.
      reflexivity.
Qed.

Lemma bytewise_leb_bmp (a b : jsstring) :
  forallb bmp a = true -> forallb bmp b = true ->
  bytewise_leb a b = js_leb a b.
Proof.
  intros Ha Hb. unfold bytewise_leb, js_leb, js_ltb.
  now rewrite js_compare_utf8.
Qed.

(** The default sort of basic-plane names is also their byte-wise order. *)
Lemma sort_bytewise (l : list jsstring) :
  forallb (forallb bmp) l = true -> StronglySorted bytewise_le (sort l).
Proof.
  intro Hl.
  assert (Hall : Forall (fun x => forallb bmp x = true) (sort l)).
  { apply Forall_forall. intros x Hx. rewrite forallb_forall in Hl. apply Hl.
    apply Permutation_in with (l := sort l); [|exact Hx].
    symmetry. apply sort_perm. }
  pose proof (sort_strongly_sorted l) as Hs.
  induction Hs as [|a rest Hrest IH Ha]; [constructor|].
  inversion Hall as [|? ? Hbmp_a Hbmp_rest]; subst.
  constructor; [now apply IH|].
  rewrite Forall_forall in *. intros x Hx.
  unfold bytewise_le. rewrite bytewise_leb_bmp; auto.
  now apply Ha.
Qed.

(** ** Replacement *)

Lemma free_app (c : N) (a b : jsstring) : free c (a ++ b) = free c a && free c b.
Proof. apply forallb_app. Qed.

Lemma free_cons (c x : N) (s : jsstring) :
  free c (x :: s) = negb (x =? c) && free c s.
Proof. reflexivity. Qed.

Lemma expand_inert (repl matched seen later : jsstring) :
  inert repl = true -> expand repl matched seen later = repl.
Proof.
  induction repl as [|c r IH]; [reflexivity|].
  cbn [inert expand]. intros [Hc Hr]%andb_true_iff.
  destruct (c =? c_dollar) eqn:Ec.
  - apply N.eqb_eq in Ec. subst c.
    destruct r as [|d r']; [reflexivity|].
    apply negb_true_iff in Hc. unfold special in Hc.
    apply orb_false_iff in Hc as [Hc H4]. apply orb_false_iff in Hc as [Hc H3].
    apply orb_false_iff in Hc as [H1 H2].
    rewrite H1, H2, H3, H4. f_equal. now apply IH.
  - f_equal. now apply IH.
Qed.

Lemma inert_app (a b : jsstring) :
  ends_dollar a && head_special b = false ->
  inert (a ++ b) = inert a && inert b.
Proof.
  induction a as [|c a IH]; intro H; [reflexivity|].
  destruct a as [|c' a].
  - cbn [app inert]. cbn [ends_dollar] in H.
    destruct (c =? c_dollar); [|reflexivity].
    destruct b as [|d b]; [reflexivity|].
    cbn [head_special andb] in H. now rewrite H.
  - change ((c :: c' :: a) ++ b) with (c :: ((c' :: a) ++ b)).
    cbn [inert]. change ((c' :: a) ++ b) with (c' :: (a ++ b)) at 1.
    cbn iota. rewrite IH by exact H.
    now rewrite andb_assoc.
Qed.

Lemma inert_app_l (a b : jsstring) :
  ends_dollar a = false -> inert (a ++ b) = inert a && inert b.
Proof. intro H. apply inert_app. now rewrite H. Qed.

Lemma inert_app_r (a b : jsstring) :
  head_special b = false -> inert (a ++ b) = inert a && inert b.
Proof. intro H. apply inert_app. rewrite H. apply andb_false_r. Qed.

Lemma ends_dollar_app (a b : jsstring) :
  b <> [] -> ends_dollar (a ++ b) = ends_dollar b.
Proof.
  intro Hb. induction a as [|c a IH]; [reflexivity|].
  change ((c :: a) ++ b) with (c :: (a ++ b)). cbn [ends_dollar].
  destruct (a ++ b) eqn:E; [|exact IH].
  apply app_eq_nil in E as [_ E]. contradiction.
Qed.

Lemma starts_with_app (pat rest : jsstring) : starts_with pat (pat ++ rest) = true.
Proof.
  induction pat as [|x pat IH]; [reflexivity|].
  simpl. now rewrite N.eqb_refl.
Qed.

Lemma skipn_length_app (pat rest : jsstring) :
  skipn (List.length pat) (pat ++ rest) = rest.
Proof. induction pat; simpl; auto. Qed.

(** A match over [b ++ t] lies within [b], or [b] is a proper prefix of
    the pattern and the match goes on in [t]. *)
Lemma starts_with_split (pat b t : jsstring) :
  starts_with pat (b ++ t) = true ->
  starts_with pat b = true
  \/ exists p pat2, pat = b ++ p :: pat2 /\ starts_with (p :: pat2) t = true.
Proof.
  revert pat; induction b as [|c b IH]; intros [|p pat] H.
  - now left.
  - right. now exists p, pat.
  - now left.
  - cbn [app starts_with] in H. apply andb_true_iff in H as [Hpc H].
    apply N.eqb_eq in Hpc. subst c.
    destruct (IH pat H) as [Hin | [q [pat2 [-> Hgo]]]].
    + left. cbn [starts_with]. now rewrite N.eqb_refl.
    + right. now exists q, pat2.
Qed.

Lemma quiet_app (pat p1 p2 rest : jsstring) :
  quiet pat (p1 ++ p2) rest = quiet pat p1 (p2 ++ rest) && quiet pat p2 rest.
Proof.
  induction p1 as [|c p1 IH]; [reflexivity|].
  change ((c :: p1) ++ p2) with (c :: (p1 ++ p2)).
  cbn [quiet]. rewrite IH, andb_assoc.
  change (c :: p1 ++ p2) with ((c :: p1) ++ p2). now rewrite <- app_assoc.
Qed.

Lemma quiet_free (h : N) (pat' pre rest : jsstring) :
  free h pre = true -> quiet (h :: pat') pre rest = true.
Proof.
  induction pre as [|c pre IH]; [reflexivity|].
  rewrite free_cons. intros [Hc Hpre]%andb_true_iff.
  apply negb_true_iff in Hc.
  cbn [quiet app starts_with]. rewrite N.eqb_sym, Hc. now apply IH.
Qed.

(** Text without the pattern, followed by a code unit that the pattern
    does not have: no occurrence starts in it. *)
Lemma quiet_absent (pat s : jsstring) (y : N) (rest : jsstring) :
  contains pat s = false -> free y pat = true ->
  quiet pat s (y :: rest) = true.
Proof.
  intros Hs Hy. induction s as [|c s IH]; [reflexivity|].
  simpl in Hs. apply orb_false_iff in Hs as [Hhere Hlater].
  cbn [quiet]. rewrite IH by exact Hlater. rewrite andb_true_r.
  apply negb_true_iff.
  destruct (starts_with pat ((c :: s) ++ y :: rest)) eqn:E; [|reflexivity].
  apply starts_with_split in E as [E | [p [pat2 [-> E]]]].
  - congruence.
  - cbn [starts_with] in E. apply andb_true_iff in E as [E _].
    apply N.eqb_eq in E. subst p.
    rewrite free_app in Hy. apply andb_true_iff in Hy as [_ Hy].
    rewrite free_cons, N.eqb_refl in Hy. discriminate.
Qed.

Lemma replace_from_skip (pat repl : jsstring) (x seen rest : jsstring) :
  replace_from pat repl seen (List.length x) (x ++ rest)
  = replace_from pat repl (seen ++ x) O rest.
Proof.
  revert seen; induction x as [|c x IH]; intro seen; simpl.
  - now rewrite app_nil_r.
  - rewrite IH. now rewrite <- app_assoc.
Qed.

Lemma replace_from_match (h : N) (pat' repl seen rest : jsstring) :
  replace_from (h :: pat') repl seen O ((h :: pat') ++ rest)
  = expand repl (h :: pat') seen rest
    ++ replace_from (h :: pat') repl (seen ++ h :: pat') O rest.
Proof.
  change ((h :: pat') ++ rest) with (h :: (pat' ++ rest)).
  cbn [replace_from].
  change (h :: pat' ++ rest) with ((h :: pat') ++ rest) at 1 2.
  rewrite starts_with_app, skipn_length_app.
  f_equal.
  replace (List.length (h :: pat') - 1)%nat with (List.length pat')
    by (simpl; lia).
  rewrite replace_from_skip. now rewrite <- app_assoc.
Qed.

Lemma replace_from_pass (pat repl pre seen rest : jsstring) :
  quiet pat pre rest = true ->
  replace_from pat repl seen O (pre ++ rest)
  = pre ++ replace_from pat repl (seen ++ pre) O rest.
Proof.
  revert seen; induction pre as [|c pre IH]; intros seen Hq.
  - simpl. now rewrite app_nil_r.
  - cbn [quiet] in Hq. apply andb_true_iff in Hq as [Hc Hpre].
    apply negb_true_iff in Hc.
    change ((c :: pre) ++ rest) with (c :: (pre ++ rest)) in *.
    cbn [replace_from]. rewrite Hc.
    rewrite IH by exact Hpre. now rewrite <- app_assoc.
Qed.

Lemma replace_from_absent (pat repl seen s : jsstring) :
  contains pat s = false -> replace_from pat repl seen O s = s.
Proof.
  revert seen; induction s as [|c s IH]; intros seen H; [reflexivity|].
  simpl in H. apply orb_false_iff in H as [Hhere Hlater].
  cbn [replace_from]. rewrite Hhere. f_equal. now apply IH.
Qed.

(** One occurrence, the first one of the subject, replaced by inert text. *)
Lemma replace_all_once (h : N) (pat' repl pre post : jsstring) :
  quiet (h :: pat') pre ((h :: pat') ++ post) = true ->
  contains (h :: pat') post = false ->
  inert repl = true ->
  replace_all (h :: pat') repl (pre ++ (h :: pat') ++ post) = pre ++ repl ++ post.
Proof.
  intros Hpre Hpost Hrepl. unfold replace_all.
  rewrite replace_from_pass by exact Hpre.
  rewrite replace_from_match, expand_inert by exact Hrepl.
  now rewrite replace_from_absent by exact Hpost.
Qed.

(** Two occurrences. *)
Lemma replace_all_twice (h : N) (pat' repl pre mid post : jsstring) :
  quiet (h :: pat') pre ((h :: pat') ++ mid ++ (h :: pat') ++ post) = true ->
  quiet (h :: pat') mid ((h :: pat') ++ post) = true ->
  contains (h :: pat') post = false ->
  inert repl = true ->
  replace_all (h :: pat') repl
    (pre ++ (h :: pat') ++ mid ++ (h :: pat') ++ post)
  = pre ++ repl ++ mid ++ repl ++ post.
Proof.
  intros Hpre Hmid Hpost Hrepl. unfold replace_all.
  rewrite replace_from_pass by exact Hpre.
  rewrite replace_from_match, expand_inert by exact Hrepl.
  rewrite replace_from_pass by exact Hmid.
  rewrite replace_from_match, expand_inert by exact Hrepl.
  now rewrite replace_from_absent by exact Hpost.
Qed.

(** ** Rendering of plain names *)

Lemma plain_name_inert (name : jsstring) : plain_name name = true -> inert name = true.
Proof. unfold plain_name. now intros [H _]%andb_true_iff. Qed.

Lemma plain_name_title (name : jsstring) :
  plain_name name = true -> contains (js "#TITLE#") name = false.
Proof.
  unfold plain_name. intros [_ H]%andb_true_iff. now apply negb_true_iff.
Qed.

Lemma plain_path_inert (p : jsstring) : plain_path p = true -> inert p = true.
Proof. unfold plain_path. now intros [H _]%andb_true_iff. Qed.

Lemma plain_path_list (p : jsstring) :
  plain_path p = true -> contains (js "#LIST_ELEMENTS#") p = false.
Proof.
  unfold plain_path. intros [_ H]%andb_true_iff. now apply negb_true_iff.
Qed.

Lemma listElement_inert (tag href title : jsstring) :
  free c_hash tag = true -> inert tag = true ->
  inert href = true ->
  (forall rest, quiet (js "#TITLE#") href (c_dquote :: rest) = true) ->
  inert title = true ->
  listElement tag href title = entry tag href title.
Proof.
  intros Htag_h Htag_i Hhref_i Hhref_q Htitle.
  unfold listElement, entry.
  set (post1 := js " <a href=" ++ [c_dquote] ++ js "#LINK#" ++ [c_dquote]
                ++ js ">#TITLE#</a></li>").
  set (post2 := [c_dquote] ++ js ">#TITLE#</a></li>").
  set (post3 := js "</a></li>").
  assert (S1 : replace_all (js "#TYPE#") tag listElementTemplate
               = js "<li>" ++ tag ++ post1).
  { apply (replace_all_once c_hash (js "TYPE#") tag (js "<li>") post1);
      [reflexivity | reflexivity | exact Htag_i]. }
  rewrite S1.
  assert (S2 : replace_all (js "#LINK#") href (js "<li>" ++ tag ++ post1)
               = (js "<li>" ++ tag ++ js " <a href=" ++ [c_dquote])
                 ++ href ++ post2).
  { transitivity
      (replace_all (c_hash :: js "LINK#") href
         ((js "<li>" ++ tag ++ js " <a href=" ++ [c_dquote])
            ++ (c_hash :: js "LINK#") ++ post2)).
    - f_equal. rewrite <- !app_assoc. reflexivity.
    - apply replace_all_once; [|reflexivity|exact Hhref_i].
      apply quiet_free. rewrite !free_app, Htag_h. reflexivity. }
  rewrite S2.
  transitivity
    (replace_all (c_hash :: js "TITLE#") title
       (((js "<li>" ++ tag ++ js " <a href=" ++ [c_dquote]) ++ href
           ++ [c_dquote] ++ js ">")
          ++ (c_hash :: js "TITLE#") ++ post3)).
  - f_equal. rewrite <- !app_assoc. reflexivity.
  - rewrite replace_all_once; [| |reflexivity|exact Htitle].
    + rewrite <- !app_assoc. reflexivity.
    + set (pre := js "<li>" ++ tag ++ js " <a href=" ++ [c_dquote]).
      rewrite (quiet_app _ pre), (quiet_app _ href).
      replace (quiet _ pre _) with true
        by (symmetry; apply quiet_free; subst pre;
            rewrite !free_app, Htag_h; reflexivity).
      replace (quiet _ href _) with true
        by (symmetry; apply (Hhref_q (js ">" ++ (c_hash :: js "TITLE#") ++ post3))).
      reflexivity.
Qed.

Lemma entry_inert (tag href title : jsstring) :
  inert tag = true -> inert href = true -> inert title = true ->
  inert (entry tag href title) = true /\ ends_dollar (entry tag href title) = false.
Proof.
  intros Ht Hh Hn. unfold entry. split.
  - rewrite (inert_app_l (js "<li>")) by reflexivity.
    rewrite (inert_app_r tag) by reflexivity.
    rewrite (inert_app_l (js " <a href=")) by reflexivity.
    rewrite (inert_app_l [c_dquote]) by reflexivity.
    rewrite (inert_app_r href) by reflexivity.
    rewrite (inert_app_l [c_dquote]) by reflexivity.
    rewrite (inert_app_l (js ">")) by reflexivity.
    rewrite (inert_app_r title) by reflexivity.
    rewrite Ht, Hh, Hn. reflexivity.
  - rewrite !app_assoc. now rewrite ends_dollar_app.
Qed.

Lemma dir_href_inert (name : jsstring) :
  inert name = true -> inert (js "./" ++ name ++ js "/") = true.
Proof.
  intro H. rewrite (inert_app_l (js "./")) by reflexivity.
  rewrite (inert_app_r name) by reflexivity. now rewrite H.
Qed.

Lemma file_href_inert (name : jsstring) :
  inert name = true -> inert (js "./" ++ name) = true.
Proof.
  intro H. rewrite (inert_app_l (js "./")) by reflexivity. now rewrite H.
Qed.

Lemma dirElement_plain (name : jsstring) :
  plain_name name = true -> dirElement name = spec_dirEntry name.
Proof.
  intro H. pose proof (plain_name_inert _ H) as Hi.
  pose proof (plain_name_title _ H) as Ht.
  refine (listElement_inert (js "[D]") (js "./" ++ name ++ js "/") name
            eq_refl eq_refl (dir_href_inert name Hi) _ Hi).
  intro rest. rewrite (quiet_app _ (js "./")), (quiet_app _ name).
  replace (quiet _ name _) with true
    by (symmetry; apply (quiet_absent _ name c_slash); [exact Ht|reflexivity]).
  reflexivity.
Qed.

Lemma fileElement_plain (name : jsstring) :
  plain_name name = true -> fileElement name = spec_fileEntry name.
Proof.
  intro H. pose proof (plain_name_inert _ H) as Hi.
  pose proof (plain_name_title _ H) as Ht.
  refine (listElement_inert (js "[F]") (js "./" ++ name) name
            eq_refl eq_refl (file_href_inert name Hi) _ Hi).
  intro rest. rewrite (quiet_app _ (js "./")).
  replace (quiet _ name _) with true
    by (symmetry; apply quiet_absent; [exact Ht|reflexivity]).
  reflexivity.
Qed.

Lemma parentElement_eq (pathname : jsstring) :
  parentElement pathname = if is_root pathname then [] else spec_parentEntry.
Proof.
  unfold parentElement, is_root.
  destruct (jseqb pathname []), (jseqb pathname (js "/")); reflexivity.
Qed.

Lemma fold_left_append {A : Type} (f : A -> jsstring) (l : list A) (init : jsstring) :
  fold_left (fun acc x => acc ++ f x) l init = init ++ List.concat (map f l).
Proof.
  revert init; induction l as [|x l IH]; intro init; simpl.
  - now rewrite app_nil_r.
  - rewrite IH. now rewrite <- app_assoc.
Qed.

Lemma concat_entries_inert (f : jsstring -> jsstring) (l : list jsstring) :
  (forall x, In x l -> inert (f x) = true /\ ends_dollar (f x) = false) ->
  inert (List.concat (map f l)) = true.
Proof.
  induction l as [|x l IH]; intro H; [reflexivity|].
  simpl. destruct (H x (or_introl eq_refl)) as [Hi He].
  rewrite (inert_app_l _ _ He), Hi.
  apply IH. intros y Hy. apply H. now right.
Qed.

Lemma concat_map_ext_in (f g : jsstring -> jsstring) (l : list jsstring) :
  (forall x, In x l -> f x = g x) -> List.concat (map f l) = List.concat (map g l).
Proof.
  intro H. f_equal. now apply map_ext_in.
Qed.

Lemma forallb_sort (p : jsstring -> bool) (l : list jsstring) :
  forallb p l = true -> forall x, In x (sort l) -> p x = true.
Proof.
  intros H x Hx. rewrite forallb_forall in H. apply H.
  apply Permutation_in with (l := sort l); [|exact Hx].
  symmetry. apply sort_perm.
Qed.

(** The list part of a listing whose names are all plain. *)
Lemma listElements_plain (pathname : jsstring) (dirs files : list jsstring) :
  forallb plain_name dirs = true -> forallb plain_name files = true ->
  listElements pathname dirs files
  = (if is_root pathname then [] else spec_parentEntry)
    ++ List.concat (map spec_dirEntry (sort dirs))
    ++ List.concat (map spec_fileEntry (sort files)).
Proof.
  intros Hd Hf. unfold listElements.
  rewrite !fold_left_append, parentElement_eq, <- app_assoc.
  f_equal. f_equal.
  - apply concat_map_ext_in. intros x Hx. apply dirElement_plain.
    now apply (forallb_sort plain_name dirs).
  - apply concat_map_ext_in. intros x Hx. apply fileElement_plain.
    now apply (forallb_sort plain_name files).
Qed.

Lemma listElements_inert (pathname : jsstring) (dirs files : list jsstring) :
  forallb plain_name dirs = true -> forallb plain_name files = true ->
  inert (listElements pathname dirs files) = true.
Proof.
  intros Hd Hf. rewrite listElements_plain by assumption.
  assert (Hparent : inert (if is_root pathname then [] else spec_parentEntry) = true
                    /\ ends_dollar (if is_root pathname then [] else spec_parentEntry)
                       = false)
    by (destruct (is_root pathname); split; reflexivity).
  destruct Hparent as [Hpi Hpe].
  assert (Hdirs : inert (List.concat (map spec_dirEntry (sort dirs))) = true).
  { apply concat_entries_inert. intros x Hx.
    pose proof (plain_name_inert _ (forallb_sort plain_name dirs Hd x Hx)) as Hi.
    apply entry_inert; [reflexivity|now apply dir_href_inert|exact Hi]. }
  assert (Hfiles : inert (List.concat (map spec_fileEntry (sort files))) = true).
  { apply concat_entries_inert. intros x Hx.
    pose proof (plain_name_inert _ (forallb_sort plain_name files Hf x Hx)) as Hi.
    apply entry_inert; [reflexivity|now apply file_href_inert|exact Hi]. }
  rewrite (inert_app_l _ _ Hpe), Hpi. cbn [andb].
  destruct (List.concat (map spec_fileEntry (sort files))) as [|c rest] eqn:E.
  - now rewrite app_nil_r.
  - rewrite inert_app_r, Hdirs, Hfiles; [reflexivity|].
    destruct (sort files) as [|x l]; [discriminate|].
    cbn [map List.concat] in E. unfold spec_fileEntry, entry in E.
    injection E as <- _. reflexivity.
Qed.

(** The whole page, for a plain request path and plain names. *)
Lemma listHtml_plain (pathname : jsstring) (dirs files : list jsstring) :
  plain_path pathname = true ->
  forallb plain_name dirs = true -> forallb plain_name files = true ->
  listHtml pathname dirs files
  = pageTop pathname
    ++ ((if is_root pathname then [] else spec_parentEntry)
        ++ List.concat (map spec_dirEntry (sort dirs))
        ++ List.concat (map spec_fileEntry (sort files)))
    ++ pageBottom.
Proof.
  intros Hp Hd Hf. unfold listHtml.
  rewrite <- (listElements_plain pathname dirs files Hd Hf).
  pose proof (listElements_inert pathname dirs files Hd Hf) as Hinert.
  pose proof (plain_path_inert _ Hp) as Hpi.
  pose proof (plain_path_list _ Hp) as Hpl.
  set (elements := listElements pathname dirs files) in *.
  set (pre := js "<!doctype html><html><head><meta charset=" ++ [c_dquote]
              ++ js "utf-8" ++ [c_dquote] ++ js "><title>Directory "
              ++ [c_dquote]).
  set (mid := [c_dquote] ++ js "</title></head><body><h1>Directory "
              ++ [c_dquote]).
  set (post := [c_dquote] ++ js "</h1><ul>").
  set (title := js "/" ++ pathname).
  assert (S1 : replace_all (js "#PATHNAME#") title template
               = pre ++ title ++ mid ++ title
                 ++ post ++ js "#LIST_ELEMENTS#" ++ pageBottom).
  { apply (replace_all_twice c_hash (js "PATHNAME#") title
             pre mid (post ++ js "#LIST_ELEMENTS#" ++ pageBottom));
      [reflexivity | reflexivity | reflexivity |].
    subst title. rewrite inert_app_l by reflexivity. now rewrite Hpi. }
  rewrite S1.
  assert (Htitle : forall rest,
             quiet (c_hash :: js "LIST_ELEMENTS#") title (c_dquote :: rest) = true).
  { intro rest. subst title. rewrite (quiet_app _ (js "/")).
    replace (quiet _ pathname _) with true
      by (symmetry; apply quiet_absent; [exact Hpl|reflexivity]).
    reflexivity. }
  transitivity
    (replace_all (c_hash :: js "LIST_ELEMENTS#") elements
       ((pre ++ title ++ mid ++ title ++ post)
          ++ (c_hash :: js "LIST_ELEMENTS#") ++ pageBottom)).
  - f_equal. rewrite <- !app_assoc. reflexivity.
  - rewrite replace_all_once; [| |reflexivity|exact Hinert].
    + unfold pageTop. fold title. rewrite <- !app_assoc. reflexivity.
    + rewrite (quiet_app _ pre), (quiet_app _ title), (quiet_app _ mid),
        (quiet_app _ title).
      rewrite <- !app_assoc.
      replace (quiet _ title _) with true by (symmetry; apply Htitle).
      replace (quiet _ title _) with true by (symmetry; apply Htitle).
      reflexivity.
Qed.

(** ** Objects *)

Section ObjFacts.
Context {V : Type}.
Implicit Types (o : list (jsstring * V)) (k : jsstring) (v : V).

Lemma obj_get_set_same k v o : obj_get k (obj_set k v o) = Some v.
Proof.
  induction o as [|[k' v'] o IH]; simpl.
  - now rewrite jseqb_refl.
  - destruct (jseqb k' k) eqn:E; simpl; now rewrite E.
Qed.

Lemma obj_get_set_other k k' v o :
  jseqb k k' = false -> obj_get k' (obj_set k v o) = obj_get k' o.
Proof.
  intro Hne. induction o as [|[k0 v0] o IH]; simpl.
  - now rewrite Hne.
  - destruct (jseqb k0 k) eqn:E; simpl.
    + apply jseqb_eq in E. subst k0. now rewrite Hne.
    + destruct (jseqb k0 k'); [reflexivity|exact IH].
Qed.
End ObjFacts.

(** ** Traces *)

Lemma isDirectory_not_file (st : Stats) : isDirectory st = true -> isFile st = false.
Proof. unfold isDirectory, isFile. now destruct (st_kind st). Qed.

Lemma isFile_not_directory (st : Stats) : isFile st = true -> isDirectory st = false.
Proof. unfold isDirectory, isFile. now destruct (st_kind st). Qed.

Lemma first_head_statEvents (dir : jsstring) (children : list jsstring) (t : Trace) :
  first_head (statEvents dir children ++ t) = first_head t.
Proof. induction children; simpl; auto. Qed.

Lemma body_of_statEvents (dir : jsstring) (children : list jsstring) (t : Trace) :
  body_of (statEvents dir children ++ t) = body_of t.
Proof. induction children; simpl; auto. Qed.

Lemma classify_ok (w : World) (dir : jsstring) (files dirs0 files0 : list jsstring) :
  forallb (statable w dir) files = true ->
  classify w dir files dirs0 files0
  = (statEvents dir files,
     Ok (dirs0 ++ filter (isDirChild w dir) files,
         files0 ++ filter (isFileChild w dir) files)).
Proof.
  revert dirs0 files0; induction files as [|file rest IH]; intros dirs0 files0 H.
  - simpl. now rewrite !app_nil_r.
  - simpl in H. apply andb_true_iff in H as [Hfile Hrest].
    cbn [classify filter statEvents map].
    unfold statable, isDirChild, isFileChild in *.
    destruct (fs_stat w (path_join dir file)) as [st|]; [|discriminate].
    destruct (isDirectory st) eqn:Ed; [|destruct (isFile st) eqn:Ef];
      rewrite IH by exact Hrest; cbn; rewrite <- ?app_assoc; reflexivity.
Qed.

(** A child that cannot be stat-ed ends the loop with an exception; only
    [fs.statSync] calls have been made by then. *)
Lemma classify_throws (w : World) (dir : jsstring) (files dirs0 files0 : list jsstring) :
  forallb (statable w dir) files = false ->
  exists n, classify w dir files dirs0 files0
            = (statEvents dir (firstn n files), Throw StatError).
Proof.
  revert dirs0 files0; induction files as [|file rest IH]; intros dirs0 files0 H;
    [discriminate|].
  simpl in H. cbn [classify].
  unfold statable in H at 1.
  destruct (fs_stat w (path_join dir file)) as [st|] eqn:Est.
  - simpl in H.
    assert (Hn : forall d f, exists n,
               bind (emit (FsStatSync (path_join dir file)))
                    (fun _ => classify w dir rest d f)
               = (statEvents dir (firstn n (file :: rest)), Throw StatError)).
    { intros d f. destruct (IH d f H) as [n Hn]. exists (S n).
      rewrite Hn. reflexivity. }
    destruct (isDirectory st); [|destruct (isFile st)]; apply Hn.
  - exists 1%nat. reflexivity.
Qed.

Lemma writeChunks_trace (chunks : list (list N)) :
  Streaming.writeChunks chunks = (map ResWrite chunks, Ok tt).
Proof.
  induction chunks as [|c chunks IH]; [reflexivity|].
  cbn [Streaming.writeChunks]. rewrite IH. reflexivity.
Qed.

Lemma body_of_chunks (chunks : list (list N)) (t : Trace) :
  body_of (map ResWrite chunks ++ t) = List.concat chunks ++ body_of t.
Proof.
  induction chunks as [|c chunks IH]; [reflexivity|].
  simpl. now rewrite IH, app_assoc.
Qed.

Lemma writeHead_count_chunks (chunks : list (list N)) (t : Trace) :
  writeHead_count (map ResWrite chunks ++ t) = writeHead_count t.
Proof.
  unfold writeHead_count. induction chunks as [|c chunks IH]; simpl; auto.
Qed.

Lemma open_after_chunks (chunks : list (list N)) (t : Trace) (open : list Handle) :
  open_after (map ResWrite chunks ++ t) open = open_after t open.
Proof. induction chunks; simpl; auto. Qed.

Section StreamingRequest.
Variables (cfg : Config) (w : World) (raw : jsstring) (ctx : RequestContext).
Hypothesis Hresolve : resolve (filesPath cfg) raw = Some ctx.

Local Abbreviation full := (fullPath ctx).

Lemma streaming_not_found :
  fs_exists w full = false ->
  Streaming.handler cfg w raw
  = [FsExists full; ResWriteHead 404 textPlain;
     ResEnd (Text (js "Error 404. Page not found."))].
Proof.
  intro Hex. unfold Streaming.handler, Streaming.serve.
  rewrite Hresolve. rewrite Hex. reflexivity.
Qed.

Lemma streaming_file (fd : N) (st : Stats) :
  fs_exists w full = true ->
  fs_open w full = Some fd ->
  fs_fstat w fd = Some st ->
  isFile st = true ->
  Streaming.handler cfg w raw
  = [FsExists full; FsOpen full (Some fd); FsFstat fd; StreamOpen full;
     ResWriteHead 200 (Streaming.fileHead cfg full st)]
    ++ match fs_createReadStream w full with
       | ReadEnd chunks =>
           map ResWrite chunks ++ [ResEnd NoData; StreamClose full]
       | ReadError chunks =>
           map ResWrite chunks
             ++ [ResWriteHead 500 textPlain;
                 ResEnd (Text (js "Error 500. Cannot read file."));
                 StreamClose full]
       end.
Proof.
  intros Hex Hopen Hstat Hfile.
  unfold Streaming.handler, Streaming.serve.
  rewrite Hresolve. rewrite Hex, Hopen. cbn [negb].
  unfold Streaming.getStatCallback. rewrite Hstat, Hfile.
  unfold Streaming.openFile.
  destruct (fs_createReadStream w full) as [chunks|chunks];
    rewrite writeChunks_trace; cbn; rewrite <- ?app_assoc; reflexivity.
Qed.

Lemma streaming_directory (fd : N) (st : Stats) (children : list jsstring) :
  fs_exists w full = true ->
  fs_open w full = Some fd ->
  fs_fstat w fd = Some st ->
  isDirectory st = true ->
  fs_readdir w full = Some children ->
  forallb (statable w full) children = true ->
  let html := listHtml (pathname ctx)
                (filter (isDirChild w full) children)
                (filter (isFileChild w full) children) in
  Streaming.handler cfg w raw
  = [FsExists full; FsOpen full (Some fd); FsFstat fd; FsReaddir full]
    ++ statEvents full children
    ++ [ResWriteHead 200 (Streaming.dirHead cfg html); ResEnd (Text html)].
Proof.
  intros Hex Hopen Hstat Hdir Hread Hkids html.
  unfold Streaming.handler, Streaming.serve.
  rewrite Hresolve. rewrite Hex, Hopen. cbn [negb].
  unfold Streaming.getStatCallback.
  rewrite Hstat, (isDirectory_not_file st Hdir), Hdir.
  unfold Streaming.listDir. rewrite Hread.
  rewrite (classify_ok w full children [] [] Hkids).
  reflexivity.
Qed.

(** A child that cannot be stat-ed: the request ends in an uncaught
    exception and nothing is written to the response. *)
Lemma streaming_directory_crash (fd : N) (st : Stats) (children : list jsstring) :
  fs_exists w full = true ->
  fs_open w full = Some fd ->
  fs_fstat w fd = Some st ->
  isDirectory st = true ->
  fs_readdir w full = Some children ->
  forallb (statable w full) children = false ->
  exists n,
    Streaming.handler cfg w raw
    = [FsExists full; FsOpen full (Some fd); FsFstat fd; FsReaddir full]
      ++ statEvents full (firstn n children) ++ [Uncaught StatError].
Proof.
  intros Hex Hopen Hstat Hdir Hread Hkids.
  destruct (classify_throws w full children [] [] Hkids) as [n Hn].
  exists n.
  unfold Streaming.handler, Streaming.serve.
  rewrite Hresolve. rewrite Hex, Hopen. cbn [negb].
  unfold Streaming.getStatCallback.
  rewrite Hstat, (isDirectory_not_file st Hdir), Hdir.
  unfold Streaming.listDir. rewrite Hread, Hn.
  reflexivity.
Qed.
End StreamingRequest.

Section V021Request.
Variables (cfg : Config) (w : World) (raw : jsstring) (ctx : RequestContext).
Hypothesis Hresolve : resolve (filesPath cfg) raw = Some ctx.

Local Abbreviation full := (fullPath ctx).

Lemma v021_not_found :
  fs_exists w full = false ->
  V021.handler cfg w raw
  = [FsExists full; ResWriteHead 404 textPlain;
     ResEnd (Text (js "Error 404. Path not found."))].
Proof.
  intro Hex. unfold V021.handler, V021.serve.
  rewrite Hresolve, Hex. reflexivity.
Qed.

Lemma v021_directory (st : Stats) (children : list jsstring) :
  fs_exists w full = true ->
  fs_stat w full = Some st ->
  isDirectory st = true ->
  fs_readdir w full = Some children ->
  forallb (statable w full) children = true ->
  let html := listHtml (pathname ctx)
                (filter (isDirChild w full) children)
                (filter (isFileChild w full) children) in
  V021.handler cfg w raw
  = [FsExists full; FsStat full; FsReaddir full]
    ++ statEvents full children
    ++ [ResWriteHead 200
          [(js "Content-Type", HStr (js "text/html; charset=utf-8"))];
        ResEnd (Text html)].
Proof.
  intros Hex Hstat Hdir Hread Hkids html.
  unfold V021.handler, V021.serve.
  rewrite Hresolve, Hex, Hstat, (isDirectory_not_file st Hdir), Hdir.
  cbn [negb]. unfold V021.listDir. rewrite Hread.
  rewrite (classify_ok w full children [] [] Hkids).
  reflexivity.
Qed.

Lemma v021_directory_crash (st : Stats) (children : list jsstring) :
  fs_exists w full = true ->
  fs_stat w full = Some st ->
  isDirectory st = true ->
  fs_readdir w full = Some children ->
  forallb (statable w full) children = false ->
  exists n,
    V021.handler cfg w raw
    = [FsExists full; FsStat full; FsReaddir full]
      ++ statEvents full (firstn n children) ++ [Uncaught StatError].
Proof.
  intros Hex Hstat Hdir Hread Hkids.
  destruct (classify_throws w full children [] [] Hkids) as [n Hn].
  exists n.
  unfold V021.handler, V021.serve.
  rewrite Hresolve, Hex, Hstat, (isDirectory_not_file st Hdir), Hdir.
  cbn [negb]. unfold V021.listDir. rewrite Hread, Hn.
  reflexivity.
Qed.
(** A regular file in version 0.2.1: read whole, sent with a content type
    as the only header. *)
Lemma v021_file (st : Stats) (data : list N) :
  fs_exists w full = true ->
  fs_stat w full = Some st ->
  isFile st = true ->
  fs_readFile w full = Some data ->
  exists type,
    V021.handler cfg w raw
    = [FsExists full; FsStat full; FsReadFile full;
       ResWriteHead 200 [(js "Content-Type", HStr type)]; ResEnd (Bytes data)].
Proof.
  intros Hex Hstat Hfile Hread.
  unfold V021.handler, V021.serve.
  rewrite Hresolve, Hex, Hstat, Hfile. cbn [negb].
  unfold V021.openFile. rewrite Hread.
  destruct (V021.typeLoop V021.contentTypes (extname full)) as [type|];
    eexists; reflexivity.
Qed.
End V021Request.

(** ** Content types *)

Lemma typeLoop_miss (table : list (jsstring * jsstring)) (e : jsstring) (head : Headers) :
  obj_get e table = None -> Streaming.typeLoop table e head = head.
Proof.
  induction table as [|[k v] table IH]; intro H; [reflexivity|].
  simpl in H. cbn [Streaming.typeLoop].
  destruct (jseqb k e); [discriminate|].
  rewrite IH by exact H. now destruct (jseqb k (js "*")).
Qed.

Lemma typeLoop_keeps (table : list (jsstring * jsstring)) (e : jsstring) (head : Headers) :
  (exists type, obj_get (js "Content-Type") head = Some (HStr type)) ->
  exists type,
    obj_get (js "Content-Type") (Streaming.typeLoop table e head) = Some (HStr type).
Proof.
  revert head; induction table as [|[k v] table IH]; intros head H; [exact H|].
  cbn [Streaming.typeLoop].
  destruct (jseqb k (js "*")); [now apply IH|].
  destruct (jseqb k e); [|now apply IH].
  apply IH. exists v. apply obj_get_set_same.
Qed.

Lemma typeLoop_cases (table : list (jsstring * jsstring)) (e : jsstring) (head : Headers) :
  Streaming.typeLoop table e head = head
  \/ exists type,
       obj_get (js "Content-Type") (Streaming.typeLoop table e head) = Some (HStr type).
Proof.
  revert head; induction table as [|[k v] table IH]; intro head; [now left|].
  cbn [Streaming.typeLoop].
  destruct (jseqb k (js "*")); [apply IH|].
  destruct (jseqb k e); [|apply IH].
  right. apply typeLoop_keeps. exists v. apply obj_get_set_same.
Qed.

Lemma typeLoop_length (table : list (jsstring * jsstring)) (e : jsstring) (head : Headers) :
  obj_get (js "Content-Length") (Streaming.typeLoop table e head)
  = obj_get (js "Content-Length") head.
Proof.
  revert head; induction table as [|[k v] table IH]; intro head; [reflexivity|].
  cbn [Streaming.typeLoop].
  destruct (jseqb k (js "*")); [apply IH|].
  destruct (jseqb k e); [|apply IH].
  rewrite IH. now apply obj_get_set_other.
Qed.

Lemma lengthHead_no_type (cfg : Config) (st : Stats) :
  obj_get (js "Content-Type") (lengthHead cfg st) = None.
Proof. unfold lengthHead. now destruct (noCache cfg). Qed.

Lemma lengthHead_length (cfg : Config) (st : Stats) :
  obj_get (js "Content-Length") (lengthHead cfg st) = Some (HNum (size st)).
Proof. unfold lengthHead. now destruct (noCache cfg). Qed.

Lemma fileHead_length (cfg : Config) (path : jsstring) (st : Stats) :
  obj_get (js "Content-Length") (Streaming.fileHead cfg path st)
  = Some (HNum (size st)).
Proof.
  unfold Streaming.fileHead. fold (lengthHead cfg st).
  set (head := Streaming.typeLoop _ _ _).
  assert (Hlen : obj_get (js "Content-Length") head = Some (HNum (size st))).
  { subst head. rewrite typeLoop_length. apply lengthHead_length. }
  destruct (negb (obj_has (js "Content-Type") head)); [|exact Hlen].
  cbn [obj_get Streaming.contentTypes jseqb]. simpl.
  now rewrite obj_get_set_other.
Qed.

Lemma fileHead_has_type (cfg : Config) (path : jsstring) (st : Stats) :
  exists type,
    obj_get (js "Content-Type") (Streaming.fileHead cfg path st) = Some (HStr type).
Proof.
  unfold Streaming.fileHead. fold (lengthHead cfg st).
  destruct (typeLoop_cases Streaming.contentTypes (extname path) (lengthHead cfg st))
    as [Hsame | [type Htype]].
  - rewrite Hsame. unfold obj_has. rewrite lengthHead_no_type. cbn [negb].
    eexists. simpl. apply obj_get_set_same.
  - unfold obj_has. rewrite Htype. cbn [negb]. now exists type.
Qed.

Lemma fileHead_fallback (cfg : Config) (path : jsstring) (st : Stats) :
  obj_get (extname path) Streaming.contentTypes = None ->
  obj_get (js "Content-Type") (Streaming.fileHead cfg path st)
  = Some (HStr (js "application/octet-stream")).
Proof.
  intro Hmiss. unfold Streaming.fileHead. fold (lengthHead cfg st).
  rewrite typeLoop_miss by exact Hmiss.
  unfold obj_has. rewrite lengthHead_no_type. cbn [negb].
  simpl. apply obj_get_set_same.
Qed.

Lemma extname_spec (p : jsstring) :
  extname p = [] \/ spec_extension p = Some (extname p).
Proof.
  unfold extname, spec_extension.
  destruct (jseqb (final_segment p) (js "..")); [now left|].
  destruct (final_segment p) as [|c r]; [now left|].
  simpl. destruct (from_last_dot r); [now right|now left].
Qed.

Lemma obj_get_key {V : Type} (k : jsstring) (v : V) (o : list (jsstring * V)) :
  obj_get k o = Some v -> In k (map fst o).
Proof.
  induction o as [|[k' v'] o IH]; simpl; [discriminate|].
  destruct (jseqb k' k) eqn:E.
  - apply jseqb_eq in E. now left.
  - intro H. right. now apply IH.
Qed.

(** Every key of the table is written in lower case, so an extension with
    an upper-case letter equals none of them and gets the fallback type. *)
Lemma uppercase_extension_falls_back (cfg : Config) (path : jsstring) (st : Stats) :
  has_upper (extname path) = true ->
  obj_get (js "Content-Type") (Streaming.fileHead cfg path st)
  = Some (HStr (js "application/octet-stream")).
Proof.
  intro Hup. apply fileHead_fallback.
  destruct (obj_get (extname path) Streaming.contentTypes) as [v|] eqn:E;
    [|reflexivity].
  apply obj_get_key in E.
  assert (Hlow : has_upper (extname path) = false).
  { revert E. generalize (extname path). intros e He.
    cbn [map fst Streaming.contentTypes] in He.
    repeat (destruct He as [<- | He]; [reflexivity|]).
    destruct He. }
  congruence.
Qed.

(** ** One response per request *)

(** Two status lines are written only when a file is being streamed and
    its read fails; every other request writes at most one. *)
Lemma streaming_two_heads_only_on_read_error (cfg : Config) (w : World) (raw : jsstring) :
  (writeHead_count (Streaming.handler cfg w raw) <= 1)%nat
  \/ exists ctx fd st chunks,
       resolve (filesPath cfg) raw = Some ctx
       /\ fs_open w (fullPath ctx) = Some fd
       /\ fs_fstat w fd = Some st
       /\ isFile st = true
       /\ fs_createReadStream w (fullPath ctx) = ReadError chunks.
Proof.
  destruct (resolve (filesPath cfg) raw) as [ctx|] eqn:Hres;
    [|left; unfold Streaming.handler, Streaming.serve; rewrite Hres;
      apply Nat.le_0_l].
  destruct (fs_exists w (fullPath ctx)) eqn:Hex;
    [|left; now rewrite (streaming_not_found cfg w raw ctx Hres Hex)].
  destruct (fs_open w (fullPath ctx)) as [fd|] eqn:Hopen;
    [|left; unfold Streaming.handler, Streaming.serve;
      rewrite Hres, Hex, Hopen; apply Nat.le_refl].
  destruct (fs_fstat w fd) as [st|] eqn:Hstat;
    [|left; unfold Streaming.handler, Streaming.serve;
      rewrite Hres, Hex, Hopen; cbn [negb];
      unfold Streaming.getStatCallback; rewrite Hstat; apply Nat.le_refl].
  destruct (isFile st) eqn:Hfile.
  - destruct (fs_createReadStream w (fullPath ctx)) as [chunks|chunks] eqn:Hread.
    + left.
      rewrite (streaming_file cfg w raw ctx Hres fd st Hex Hopen Hstat Hfile), Hread.
      unfold writeHead_count. cbn [app filter is_writeHead List.length].
      fold (writeHead_count (map ResWrite chunks ++ [ResEnd NoData; StreamClose (fullPath ctx)])).
      rewrite writeHead_count_chunks. apply Nat.le_refl.
    + right. now exists ctx, fd, st, chunks.
  - left. destruct (isDirectory st) eqn:Hdir.
    + destruct (fs_readdir w (fullPath ctx)) as [children|] eqn:Hreaddir.
      * destruct (forallb (statable w (fullPath ctx)) children) eqn:Hkids.
        -- rewrite (streaming_directory cfg w raw ctx Hres fd st children
                      Hex Hopen Hstat Hdir Hreaddir Hkids).
           unfold writeHead_count. cbn [app filter is_writeHead].
           rewrite filter_app. cbn [filter is_writeHead].
           replace (filter is_writeHead (statEvents (fullPath ctx) children))
             with (@nil Event); [apply Nat.le_refl|].
           clear. induction children; simpl; auto.
        -- destruct (streaming_directory_crash cfg w raw ctx Hres fd st children
                       Hex Hopen Hstat Hdir Hreaddir Hkids) as [n ->].
           unfold writeHead_count. cbn [app filter is_writeHead].
           rewrite filter_app. cbn [filter is_writeHead].
           replace (filter is_writeHead (statEvents (fullPath ctx) (firstn n children)))
             with (@nil Event); [apply Nat.le_0_l|].
           clear. induction (firstn n children); simpl; auto.
      * unfold Streaming.handler, Streaming.serve.
        rewrite Hres, Hex, Hopen. cbn [negb].
        unfold Streaming.getStatCallback, Streaming.listDir.
        rewrite Hstat, Hfile, Hdir, Hreaddir. apply Nat.le_refl.
    + unfold Streaming.handler, Streaming.serve.
      rewrite Hres, Hex, Hopen. cbn [negb].
      unfold Streaming.getStatCallback.
      rewrite Hstat, Hfile, Hdir. apply Nat.le_refl.
Qed.

(** ** Descriptors *)

Lemma open_after_statEvents (dir : jsstring) (children : list jsstring)
    (t : Trace) (open : list Handle) :
  open_after (statEvents dir children ++ t) open = open_after t open.
Proof. induction children; simpl; auto. Qed.

Lemma release_stream (p : jsstring) (fd : N) :
  release (StreamFd p) [Fd fd; StreamFd p] = [Fd fd].
Proof. unfold release. simpl. now rewrite jseqb_refl. Qed.

(** ** Listings *)

Lemma forallb_filter {A : Type} (p q : A -> bool) (l : list A) :
  forallb p l = true -> forallb p (filter q l) = true.
Proof.
  induction l as [|x l IH]; simpl; [auto|].
  intros [Hx Hl]%andb_true_iff.
  destruct (q x); simpl; [rewrite Hx|]; auto.
Qed.

Lemma filter_filter_implied {A : Type} (p q : A -> bool) (l : list A) :
  (forall x, p x = true -> q x = true) ->
  filter p (filter q l) = filter p l.
Proof.
  intro H. induction l as [|x l IH]; simpl; [reflexivity|].
  destruct (q x) eqn:Eq; simpl.
  - now rewrite IH.
  - destruct (p x) eqn:Ep; [|exact IH].
    apply H in Ep. congruence.
Qed.

(** ** Path resolution *)

Lemma hex_val_plus_space (c : N) :
  hex_val (if c =? c_plus then c_space else c) = hex_val c.
Proof.
  destruct (c =? c_plus) eqn:E; [|reflexivity].
  apply N.eqb_eq in E. now subst c.
Qed.

Lemma hex_val_bound (c v : N) : hex_val c = Some v -> v < 16.
Proof.
  unfold hex_val.
  destruct ((48 <=? c) && (c <=? 57)) eqn:E1;
    [|destruct ((65 <=? c) && (c <=? 70)) eqn:E2;
      [|destruct ((97 <=? c) && (c <=? 102)) eqn:E3; [|discriminate]]];
    intro H; injection H as <-;
    match goal with
    | E : _ && _ = true |- _ =>
        apply andb_true_iff in E as [Ea Eb];
        apply N.leb_le in Ea, Eb; lia
    end.
Qed.

Lemma hex_val_2 (c : N) : hex_val c = Some 2 -> c = 50.
Proof.
  unfold hex_val.
  destruct ((48 <=? c) && (c <=? 57)) eqn:E1;
    [|destruct ((65 <=? c) && (c <=? 70)) eqn:E2;
      [|destruct ((97 <=? c) && (c <=? 102)) eqn:E3; [|discriminate]]];
    intro H; injection H as H;
    match goal with
    | E : _ && _ = true |- _ =>
        apply andb_true_iff in E as [Ea Eb];
        apply N.leb_le in Ea, Eb; lia
    end.
Qed.

Lemma hex_val_11 (c : N) : hex_val c = Some 11 -> c = 66 \/ c = 98.
Proof.
  unfold hex_val.
  destruct ((48 <=? c) && (c <=? 57)) eqn:E1;
    [|destruct ((65 <=? c) && (c <=? 70)) eqn:E2;
      [|destruct ((97 <=? c) && (c <=? 102)) eqn:E3; [|discriminate]]];
    intro H; injection H as H;
    match goal with
    | E : _ && _ = true |- _ =>
        apply andb_true_iff in E as [Ea Eb];
        apply N.leb_le in Ea, Eb; lia
    end.
Qed.

(** Turning plus signs into spaces touches no escape: it maps the literal
    tokens and leaves the octets. *)
Lemma uri_tokens_plus_to_space (s : jsstring) :
  uri_tokens (plus_to_space s) = option_map (map tok_space) (uri_tokens s).
Proof.
  remember (List.length s) as n eqn:Hn.
  revert s Hn. induction n as [n IH] using lt_wf_ind. intros s Hn.
  destruct s as [|c r]; [reflexivity|].
  cbn [plus_to_space map uri_tokens].
  destruct (c =? c_percent) eqn:Ec.
  - apply N.eqb_eq in Ec. subst c. cbn [N.eqb c_percent c_plus Pos.eqb].
    destruct r as [|h [|l r']]; try reflexivity.
    cbn [map]. rewrite !hex_val_plus_space.
    destruct (hex_val h); [|reflexivity].
    destruct (hex_val l); [|reflexivity].
    fold (plus_to_space r').
    rewrite (IH (List.length r')) by (subst n; simpl; lia || reflexivity).
    now destruct (uri_tokens r').
  - assert (Ec' : ((if c =? c_plus then c_space else c) =? c_percent) = false).
    { destruct (c =? c_plus); [reflexivity|exact Ec]. }
    rewrite Ec'. fold (plus_to_space r).
    rewrite (IH (List.length r)) by (subst n; simpl; lia || reflexivity).
    now destruct (uri_tokens r).
Qed.

Lemma plus_to_space_utf16 (v : N) :
  0x80 <= v -> plus_to_space (utf16_of_codepoint v) = utf16_of_codepoint v.
Proof.
  intro Hv. unfold utf16_of_codepoint.
  assert (Hhigh : forall a x, 0x80 <= a -> (a + x =? c_plus) = false).
  { intros a x Ha. apply N.eqb_neq. unfold c_plus. lia. }
  destruct (v <? 0x10000); cbn [plus_to_space map].
  - rewrite <- (N.add_0_r v) at 1. now rewrite Hhigh.
  - now rewrite !Hhigh by lia.
Qed.

Lemma valid_codepoint_least (least v : N) :
  valid_codepoint least v = true -> least <= v.
Proof.
  unfold valid_codepoint. intros [[H _]%andb_true_iff _]%andb_true_iff.
  now apply N.leb_le.
Qed.

(** Without an escaped plus sign, decoding after the replacement gives what
    the replacement after decoding gives. *)
Lemma utf8_tokens_plus_to_space (ts : list UriTok) (p : option Pending) :
  pending_ok p ->
  ~ In (Oct c_plus) ts ->
  utf8_tokens p (map tok_space ts) = option_map plus_to_space (utf8_tokens p ts).
Proof.
  revert p; induction ts as [|t ts IH]; intros p Hp Hno.
  - now destruct p.
  - assert (Hts : ~ In (Oct c_plus) ts) by (intro; apply Hno; now right).
    destruct t as [c|b]; cbn [map tok_space utf8_tokens].
    + destruct p; [reflexivity|].
      rewrite IH by (exact I || exact Hts).
      now destruct (utf8_tokens None ts).
    + destruct p as [q|].
      * destruct ((0x80 <=? b) && (b <? 0xC0)); [|reflexivity].
        destruct (need q) as [|[|k]]; [reflexivity| |].
        -- destruct (valid_codepoint (lo q) (acc q * 64 + (b - 0x80))) eqn:Ev;
             [|reflexivity].
           rewrite IH by (exact I || exact Hts).
           destruct (utf8_tokens None ts); [|reflexivity].
           cbn [option_map]. f_equal.
           unfold plus_to_space. rewrite map_app. f_equal.
           symmetry. apply plus_to_space_utf16.
           apply valid_codepoint_least in Ev. simpl in Hp. lia.
        -- apply IH; [exact Hp|exact Hts].
      * destruct (b <? 0x80) eqn:E1.
        -- rewrite IH by (exact I || exact Hts).
           destruct (utf8_tokens None ts); [|reflexivity].
           cbn [option_map plus_to_space map].
           replace (b =? c_plus) with false; [reflexivity|].
           symmetry. apply N.eqb_neq. intros ->. apply Hno. now left.
        -- destruct (b <? 0xC0); [reflexivity|].
           destruct (b <? 0xE0); [apply IH; [simpl; lia|exact Hts]|].
           destruct (b <? 0xF0); [apply IH; [simpl; lia|exact Hts]|].
           destruct (b <? 0xF8); [apply IH; [simpl; lia|exact Hts]|].
           reflexivity.
Qed.

Lemma contains_cons (pat : jsstring) (c : N) (s : jsstring) :
  contains pat (c :: s) = false ->
  starts_with pat (c :: s) = false /\ contains pat s = false.
Proof. simpl. apply orb_false_iff. Qed.

(** An octet 0x2B among the tokens comes from the text [%2B] or [%2b]. *)
Lemma uri_tokens_no_escaped_plus (s : jsstring) (ts : list UriTok) :
  contains (js "%2B") s = false ->
  contains (js "%2b") s = false ->
  uri_tokens s = Some ts ->
  ~ In (Oct c_plus) ts.
Proof.
  remember (List.length s) as n eqn:Hn.
  revert s ts Hn. induction n as [n IH] using lt_wf_ind. intros s ts Hn HB Hb.
  destruct s as [|c r].
  - simpl. intros [= <-] [].
  - cbn [uri_tokens].
    apply contains_cons in HB as [HB0 HB], Hb as [Hb0 Hb].
    destruct (c =? c_percent) eqn:Ec.
    + destruct r as [|h [|l r']]; try discriminate.
      apply contains_cons in HB as [_ HB], Hb as [_ Hb].
      apply contains_cons in HB as [_ HB], Hb as [_ Hb].
      destruct (hex_val h) as [hv|] eqn:Eh; [|discriminate].
      destruct (hex_val l) as [lv|] eqn:El; [|discriminate].
      destruct (uri_tokens r') as [ts'|] eqn:Er; [|discriminate].
      intros [= <-] [Hhere | Hlater].
      * assert (Hsum : 16 * hv + lv = c_plus).
        { exact (f_equal (fun t => match t with Oct b => b | Lit x => x end)
                   Hhere). }
        pose proof (hex_val_bound h hv Eh). pose proof (hex_val_bound l lv El).
        assert (hv = 2 /\ lv = 11) as [-> ->] by (unfold c_plus in Hsum; lia).
        apply hex_val_2 in Eh. subst h.
        apply N.eqb_eq in Ec. subst c.
        apply hex_val_11 in El as [-> | ->]; discriminate.
      * revert Hlater.
        apply (IH (List.length r')) with (s := r');
          [subst n; simpl; lia|reflexivity|exact HB|exact Hb|exact Er].
    + destruct (uri_tokens r) as [ts'|] eqn:Er; [|discriminate].
      intros [= <-] [Hhere | Hlater]; [discriminate|].
      revert Hlater.
      apply (IH (List.length r)) with (s := r);
        [subst n; simpl; lia|reflexivity|exact HB|exact Hb|exact Er].
Qed.

Lemma decode_plus_to_space (s : jsstring) :
  contains (js "%2B") s = false ->
  contains (js "%2b") s = false ->
  decodeURIComponent (plus_to_space s)
  = option_map plus_to_space (decodeURIComponent s).
Proof.
  intros HB Hb. unfold decodeURIComponent.
  rewrite uri_tokens_plus_to_space.
  destruct (uri_tokens s) as [ts|] eqn:Ets; [|reflexivity].
  cbn [option_map]. apply utf8_tokens_plus_to_space; [exact I|].
  now apply (uri_tokens_no_escaped_plus s).
Qed.

(** * The properties of the specification, C1 to C10 *)

(** C1, as the code has it.  A request that resolves to an existing regular
    file whose descriptor opens (the path exists, [fs.open] succeeds and the
    descriptor stats as a regular file) and whose read stream runs to its
    end is answered with status 200, a Content-Length header equal to the
    size reported by stat, and a body that is the bytes the stream
    delivered, in order and unchanged; the status line is written once. *)
Theorem C1_file_response
    (cfg : Config) (w : World) (raw : jsstring) (ctx : RequestContext)
    (fd : N) (st : Stats) (chunks : list (list N)) :
  resolve (filesPath cfg) raw = Some ctx ->
  fs_exists w (fullPath ctx) = true ->
  fs_open w (fullPath ctx) = Some fd ->
  fs_fstat w fd = Some st ->
  isFile st = true ->
  fs_createReadStream w (fullPath ctx) = ReadEnd chunks ->
  status_of (Streaming.handler cfg w raw) = Some 200
  /\ header_of (js "Content-Length") (Streaming.handler cfg w raw)
     = Some (HNum (size st))
  /\ body_of (Streaming.handler cfg w raw) = List.concat chunks
  /\ writeHead_count (Streaming.handler cfg w raw) = 1%nat.
Proof.
  intros Hres Hex Hopen Hstat Hfile Hread.
  rewrite (streaming_file cfg w raw ctx Hres fd st Hex Hopen Hstat Hfile), Hread.
  repeat split.
  - unfold header_of. cbn [app first_head]. apply fileHead_length.
  - cbn [app body_of]. rewrite body_of_chunks. simpl. now rewrite app_nil_r.
  - unfold writeHead_count. cbn [app filter is_writeHead List.length].
    f_equal. apply (writeHead_count_chunks chunks).
Qed.

Lemma C1_file_response_witness :
  status_of (Streaming.handler Example.cfg Example.world (js "/a.txt")) = Some 200
  /\ header_of (js "Content-Length")
       (Streaming.handler Example.cfg Example.world (js "/a.txt"))
     = Some (HNum 2)
  /\ body_of (Streaming.handler Example.cfg Example.world (js "/a.txt")) = js "hi"
  /\ writeHead_count (Streaming.handler Example.cfg Example.world (js "/a.txt"))
     = 1%nat.
Proof.
  apply (C1_file_response Example.cfg Example.world (js "/a.txt")
           (mkContext (js "a.txt") (js "/srv/a.txt")) 4
           (mkStats S_IFREG 2) [js "hi"]); reflexivity.
Defined.

(** C1 as stated fails in two ways.  When [fs.open] fails, as it does for a
    process out of descriptors, the existing regular file [/srv/a.txt] is
    answered with status 500.  When the read of the existing regular file
    [/srv/bad.bin] fails after three bytes, the status 200 and the length 6
    are out already: three bytes are written, and a second status line
    follows. *)
Lemma C1_counterexample :
  (fs_exists (Faults.exhausted Example.world) (js "/srv/a.txt") = true
   /\ fs_stat (Faults.exhausted Example.world) (js "/srv/a.txt")
      = Some (mkStats S_IFREG 2)
   /\ status_of
        (Streaming.handler Example.cfg (Faults.exhausted Example.world)
           (js "/a.txt"))
      = Some 500)
  /\ (fs_exists Example.world (js "/srv/bad.bin") = true
      /\ fs_stat Example.world (js "/srv/bad.bin") = Some (mkStats S_IFREG 6)
      /\ status_of (Streaming.handler Example.cfg Example.world (js "/bad.bin"))
         = Some 200
      /\ header_of (js "Content-Length")
           (Streaming.handler Example.cfg Example.world (js "/bad.bin"))
         = Some (HNum 6)
      /\ filter (fun e => match e with ResWrite _ => true | _ => false end)
           (Streaming.handler Example.cfg Example.world (js "/bad.bin"))
         = [ResWrite [1; 2; 3]]
      /\ writeHead_count
           (Streaming.handler Example.cfg Example.world (js "/bad.bin"))
         = 2%nat).
Proof. repeat split. Qed.

(** C2, as the code has it.  For a directory whose children can all be
    stat-ed, when neither the request path nor any child name has a dollar
    sign followed by a dollar sign, an ampersand, a backtick or a quote, no
    name contains [#TITLE#] and the path does not contain [#LIST_ELEMENTS#]:
    the page lists the directories, then the files, each group in ascending
    order of UTF-16 code units; a directory [name] is rendered with tag [D]
    and href [./name/], a file with tag [F] and href [./name]; and one
    parent entry comes first exactly when the decoded path is neither empty
    nor a single slash.  When no name has a surrogate code unit, that order
    is also the byte-wise order of the UTF-8 names. *)
Theorem C2_listing_of_plain_names
    (cfg : Config) (w : World) (raw : jsstring) (ctx : RequestContext)
    (fd : N) (st : Stats) (children : list jsstring) :
  resolve (filesPath cfg) raw = Some ctx ->
  fs_exists w (fullPath ctx) = true ->
  fs_open w (fullPath ctx) = Some fd ->
  fs_fstat w fd = Some st ->
  isDirectory st = true ->
  fs_readdir w (fullPath ctx) = Some children ->
  forallb (statable w (fullPath ctx)) children = true ->
  plain_path (pathname ctx) = true ->
  forallb plain_name children = true ->
  exists dirs files html,
    Permutation dirs (filter (isDirChild w (fullPath ctx)) children)
    /\ Permutation files (filter (isFileChild w (fullPath ctx)) children)
    /\ StronglySorted js_le dirs
    /\ StronglySorted js_le files
    /\ (forallb (forallb bmp) children = true ->
        StronglySorted bytewise_le dirs /\ StronglySorted bytewise_le files)
    /\ html = pageTop (pathname ctx)
              ++ ((if is_root (pathname ctx) then [] else spec_parentEntry)
                  ++ List.concat (map spec_dirEntry dirs)
                  ++ List.concat (map spec_fileEntry files))
              ++ pageBottom
    /\ Streaming.handler cfg w raw
       = [FsExists (fullPath ctx); FsOpen (fullPath ctx) (Some fd); FsFstat fd;
          FsReaddir (fullPath ctx)]
         ++ statEvents (fullPath ctx) children
         ++ [ResWriteHead 200 (Streaming.dirHead cfg html); ResEnd (Text html)].
Proof.
  intros Hres Hex Hopen Hstat Hdir Hread Hkids Hpath Hnames.
  exists (sort (filter (isDirChild w (fullPath ctx)) children)),
         (sort (filter (isFileChild w (fullPath ctx)) children)).
  eexists. repeat split.
  - symmetry. apply sort_perm.
  - symmetry. apply sort_perm.
  - apply sort_strongly_sorted.
  - apply sort_strongly_sorted.
  - apply sort_bytewise. now apply forallb_filter.
  - apply sort_bytewise. now apply forallb_filter.
  - rewrite (streaming_directory cfg w raw ctx Hres fd st children
               Hex Hopen Hstat Hdir Hread Hkids).
    cbv zeta.
    rewrite (listHtml_plain (pathname ctx) _ _ Hpath
               (forallb_filter plain_name _ children Hnames)
               (forallb_filter plain_name _ children Hnames)).
    reflexivity.
Qed.

Lemma C2_listing_of_plain_names_witness :
  exists dirs files html,
    Permutation dirs
      (filter (isDirChild Example.world (js "/srv/mix"))
         [js "zeta"; js "b.txt"; js "alpha"; js "a.txt"; js "pipe"])
    /\ Permutation files
         (filter (isFileChild Example.world (js "/srv/mix"))
            [js "zeta"; js "b.txt"; js "alpha"; js "a.txt"; js "pipe"])
    /\ StronglySorted js_le dirs
    /\ StronglySorted js_le files
    /\ (forallb (forallb bmp)
          [js "zeta"; js "b.txt"; js "alpha"; js "a.txt"; js "pipe"] = true ->
        StronglySorted bytewise_le dirs /\ StronglySorted bytewise_le files)
    /\ html = pageTop (js "mix")
              ++ ((if is_root (js "mix") then [] else spec_parentEntry)
                  ++ List.concat (map spec_dirEntry dirs)
                  ++ List.concat (map spec_fileEntry files))
              ++ pageBottom
    /\ Streaming.handler Example.cfg Example.world (js "/mix")
       = [FsExists (js "/srv/mix"); FsOpen (js "/srv/mix") (Some 15); FsFstat 15;
          FsReaddir (js "/srv/mix")]
         ++ statEvents (js "/srv/mix")
              [js "zeta"; js "b.txt"; js "alpha"; js "a.txt"; js "pipe"]
         ++ [ResWriteHead 200 (Streaming.dirHead Example.cfg html);
             ResEnd (Text html)].
Proof.
  apply (C2_listing_of_plain_names Example.cfg Example.world (js "/mix")
           (mkContext (js "mix") (js "/srv/mix")) 15 (mkStats S_IFDIR 4096)
           [js "zeta"; js "b.txt"; js "alpha"; js "a.txt"; js "pipe"]);
    reflexivity.
Defined.

(** C2 as stated fails in three ways.  In [/srv/wide] the file named
    U+1F600 is listed before the file named U+FF5E, although the UTF-8 bytes
    of the second name come first.  In [/srv/cash] the file whose name has
    two dollar signs in a row is rendered with a single one, and in
    [/srv/tags] the placeholder inside the name is filled with the name
    again: in both the href is not the name. *)
Lemma C2_counterexample :
  (body_of (Streaming.handler Example.cfg Example.world (js "/wide"))
   = utf8_encode
       (pageTop (js "wide")
        ++ spec_parentEntry
        ++ spec_fileEntry Example.grinning
        ++ spec_fileEntry Example.tilde_wide
        ++ pageBottom)
   /\ bytewise_leb Example.grinning Example.tilde_wide = false)
  /\ (fs_readdir Example.world (js "/srv/cash") = Some [js "a$$b"]
      /\ body_of (Streaming.handler Example.cfg Example.world (js "/cash"))
         = utf8_encode
             (pageTop (js "cash")
              ++ spec_parentEntry
              ++ entry (js "[F]") (js "./a$b") (js "a$b")
              ++ pageBottom)
      /\ entry (js "[F]") (js "./a$b") (js "a$b") <> spec_fileEntry (js "a$$b"))
  /\ (fs_readdir Example.world (js "/srv/tags") = Some [js "x#TITLE#"]
      /\ body_of (Streaming.handler Example.cfg Example.world (js "/tags"))
         = utf8_encode
             (pageTop (js "tags")
              ++ spec_parentEntry
              ++ entry (js "[F]") (js "./xx#TITLE#") (js "x#TITLE#")
              ++ pageBottom)
      /\ entry (js "[F]") (js "./xx#TITLE#") (js "x#TITLE#")
         <> spec_fileEntry (js "x#TITLE#")).
Proof.
  repeat split; try (vm_compute; reflexivity); vm_compute; discriminate.
Qed.

(** C3, as the code has it.  When the resolved path does not exist, both
    revisions make exactly three calls: the existence check, a 404 status
    with a plain-text content type, and the end of the response; no open,
    stat, listing or read follows.  The body is [Error 404. Page not found.]
    in the streaming revision and [Error 404. Path not found.] in
    http-file-server.js. *)
Theorem C3_not_found
    (cfg : Config) (w : World) (raw : jsstring) (ctx : RequestContext) :
  resolve (filesPath cfg) raw = Some ctx ->
  fs_exists w (fullPath ctx) = false ->
  Streaming.handler cfg w raw
  = [FsExists (fullPath ctx); ResWriteHead 404 textPlain;
     ResEnd (Text (js "Error 404. Page not found."))]
  /\ V021.handler cfg w raw
     = [FsExists (fullPath ctx); ResWriteHead 404 textPlain;
        ResEnd (Text (js "Error 404. Path not found."))].
Proof.
  intros Hres Hex. split.
  - now apply streaming_not_found.
  - now apply v021_not_found.
Qed.

Lemma C3_not_found_witness :
  Streaming.handler Example.cfg Example.world (js "/missing")
  = [FsExists (js "/srv/missing"); ResWriteHead 404 textPlain;
     ResEnd (Text (js "Error 404. Page not found."))]
  /\ V021.handler Example.cfg Example.world (js "/missing")
     = [FsExists (js "/srv/missing"); ResWriteHead 404 textPlain;
        ResEnd (Text (js "Error 404. Path not found."))].
Proof.
  apply (C3_not_found Example.cfg Example.world (js "/missing")
           (mkContext (js "missing") (js "/srv/missing"))); reflexivity.
Defined.

(** C3 as stated fails on http-file-server.js: for the missing path
    [/missing] the status is 404 but the body does not contain
    [Page not found.]. *)
Lemma C3_counterexample :
  fs_exists Example.world (js "/srv/missing") = false
  /\ status_of (V021.handler Example.cfg Example.world (js "/missing")) = Some 404
  /\ body_of (V021.handler Example.cfg Example.world (js "/missing"))
     = js "Error 404. Path not found."
  /\ contains (js "Page not found.")
       (body_of (V021.handler Example.cfg Example.world (js "/missing"))) = false.
Proof. repeat split. Qed.

(** C4.  The lookup compares the extension with the keys as they are
    written: [/image.png] is served as image/png, [/image.PNG] and
    [/photo.JPG] fall through to application/octet-stream, in both
    revisions, although the table is commented as case insensitive. *)
Theorem C4_lookup_is_case_sensitive :
  header_of (js "Content-Type")
    (Streaming.handler Example.cfg Example.world (js "/image.png"))
  = Some (HStr (js "image/png"))
  /\ header_of (js "Content-Type")
       (Streaming.handler Example.cfg Example.world (js "/image.PNG"))
     = Some (HStr (js "application/octet-stream"))
  /\ header_of (js "Content-Type")
       (Streaming.handler Example.cfg Example.world (js "/photo.JPG"))
     = Some (HStr (js "application/octet-stream"))
  /\ header_of (js "Content-Type")
       (V021.handler Example.cfg Example.world (js "/image.png"))
     = Some (HStr (js "image/png"))
  /\ header_of (js "Content-Type")
       (V021.handler Example.cfg Example.world (js "/image.PNG"))
     = Some (HStr (js "application/octet-stream"))
  /\ header_of (js "Content-Type")
       (V021.handler Example.cfg Example.world (js "/photo.JPG"))
     = Some (HStr (js "application/octet-stream")).
Proof. repeat split; vm_compute; reflexivity. Qed.

(** C5.  A regular file whose extension, taken as the specification takes it
    (from the last dot of the final segment), is no key of the table is
    served as application/octet-stream; this covers a final segment without
    a dot.  The type loop cannot fail: whatever the path, the header object
    ends up with a content type. *)
Theorem C5_unknown_extension
    (cfg : Config) (w : World) (raw : jsstring) (ctx : RequestContext)
    (fd : N) (st : Stats) :
  resolve (filesPath cfg) raw = Some ctx ->
  fs_exists w (fullPath ctx) = true ->
  fs_open w (fullPath ctx) = Some fd ->
  fs_fstat w fd = Some st ->
  isFile st = true ->
  (forall e, spec_extension (fullPath ctx) = Some e ->
             obj_get e Streaming.contentTypes = None) ->
  header_of (js "Content-Type") (Streaming.handler cfg w raw)
  = Some (HStr (js "application/octet-stream"))
  /\ forall path st', exists type,
       obj_get (js "Content-Type") (Streaming.fileHead cfg path st')
       = Some (HStr type).
Proof.
  intros Hres Hex Hopen Hstat Hfile Hunknown. split.
  - rewrite (streaming_file cfg w raw ctx Hres fd st Hex Hopen Hstat Hfile).
    unfold header_of. cbn [app first_head].
    apply fileHead_fallback.
    destruct (extname_spec (fullPath ctx)) as [Hnone | Hsome].
    + now rewrite Hnone.
    + now apply Hunknown.
  - intros path st'. apply fileHead_has_type.
Qed.

Lemma C5_unknown_extension_witness :
  header_of (js "Content-Type")
    (Streaming.handler Example.cfg Example.world (js "/data.xyz"))
  = Some (HStr (js "application/octet-stream"))
  /\ forall path st', exists type,
       obj_get (js "Content-Type") (Streaming.fileHead Example.cfg path st')
       = Some (HStr type).
Proof.
  apply (C5_unknown_extension Example.cfg Example.world (js "/data.xyz")
           (mkContext (js "data.xyz") (js "/srv/data.xyz")) 11
           (mkStats S_IFREG 3)); try reflexivity.
  intros e He. vm_compute in He. injection He as <-. reflexivity.
Defined.

(** C6, as the code has it.  The handler first turns every plus sign of the
    raw path into a space, then percent-decodes the result, then strips all
    leading slashes; the resolved path is [path.join] of the root and that
    path.  A malformed escape makes the decoding throw, and nothing is
    resolved.  The order matters only for an escaped plus sign: a raw path
    that contains neither [%2B] nor [%2b] resolves to the path the
    specification describes. *)
Theorem C6_path_resolution (root raw : jsstring) :
  resolve root raw
  = option_map
      (fun decoded =>
         mkContext (strip_slashes decoded) (path_join root (strip_slashes decoded)))
      (decodeURIComponent (plus_to_space raw))
  /\ (forall ctx,
        resolve root raw = Some ctx ->
        hd_error (pathname ctx) <> Some c_slash
        /\ (exists k, decodeURIComponent (plus_to_space raw)
                      = Some (repeat c_slash k ++ pathname ctx))
        /\ fullPath ctx = path_join root (pathname ctx))
  /\ (contains (js "%2B") raw = false ->
      contains (js "%2b") raw = false ->
      option_map pathname (resolve root raw) = spec_decodedPath raw).
Proof.
  assert (Hcode : resolve root raw
                  = option_map
                      (fun decoded =>
                         mkContext (strip_slashes decoded)
                           (path_join root (strip_slashes decoded)))
                      (decodeURIComponent (plus_to_space raw))).
  { unfold resolve. rewrite join_split_plus.
    now destruct (decodeURIComponent (plus_to_space raw)). }
  split; [exact Hcode|split].
  - intros ctx Hctx. rewrite Hcode in Hctx.
    destruct (decodeURIComponent (plus_to_space raw)) as [decoded|];
      [|discriminate].
    injection Hctx as <-. cbn [pathname fullPath].
    repeat split.
    + apply strip_slashes_head.
    + destruct (strip_slashes_spec decoded) as [k Hk].
      exists k. now rewrite <- Hk.
  - intros HB Hb. rewrite Hcode, (decode_plus_to_space raw HB Hb).
    unfold spec_decodedPath.
    now destruct (decodeURIComponent raw).
Qed.

Lemma C6_path_resolution_witness :
  resolve (js "/srv") (js "//sub+dir/a%20b.txt")
  = Some (mkContext (js "sub dir/a b.txt") (js "/srv/sub dir/a b.txt"))
  /\ spec_decodedPath (js "//sub+dir/a%20b.txt") = Some (js "sub dir/a b.txt").
Proof.
  destruct (C6_path_resolution (js "/srv") (js "//sub+dir/a%20b.txt"))
    as [Hcode [_ Hspec]].
  split.
  - rewrite Hcode. reflexivity.
  - rewrite <- Hspec by reflexivity. rewrite Hcode. reflexivity.
Defined.

(** C6 as stated fails on an escaped plus sign: for [/a%2Bb] the handler
    resolves [a+b], and serves the file of that name, where decoding before
    the replacement gives [a b]. *)
Lemma C6_counterexample :
  resolve (js "/srv") (js "/a%2Bb")
  = Some (mkContext (js "a+b") (js "/srv/a+b"))
  /\ spec_decodedPath (js "/a%2Bb") = Some (js "a b")
  /\ body_of (Streaming.handler Example.cfg Example.world (js "/a%2Bb"))
     = js "plus".
Proof. repeat split. Qed.

(** C7.  When [fs.statSync] fails on a child, the exception leaves the
    [readdir] callback uncaught: the request ends there, no status and no
    body are written, in both revisions.  The child is not skipped and no
    error response is sent. *)
Theorem C7_stat_failure_aborts_listing
    (cfg : Config) (w : World) (raw : jsstring) (ctx : RequestContext)
    (fd : N) (st : Stats) (children : list jsstring) :
  resolve (filesPath cfg) raw = Some ctx ->
  fs_exists w (fullPath ctx) = true ->
  fs_open w (fullPath ctx) = Some fd ->
  fs_fstat w fd = Some st ->
  fs_stat w (fullPath ctx) = Some st ->
  isDirectory st = true ->
  fs_readdir w (fullPath ctx) = Some children ->
  forallb (statable w (fullPath ctx)) children = false ->
  (status_of (Streaming.handler cfg w raw) = None
   /\ body_of (Streaming.handler cfg w raw) = []
   /\ last (Streaming.handler cfg w raw) (Uncaught URIError) = Uncaught StatError)
  /\ (status_of (V021.handler cfg w raw) = None
      /\ body_of (V021.handler cfg w raw) = []
      /\ last (V021.handler cfg w raw) (Uncaught URIError) = Uncaught StatError).
Proof.
  intros Hres Hex Hopen Hfstat Hstat Hdir Hread Hkids. split.
  - destruct (streaming_directory_crash cfg w raw ctx Hres fd st children
                Hex Hopen Hfstat Hdir Hread Hkids) as [n ->].
    repeat split.
    + unfold status_of. cbn [app first_head]. now rewrite first_head_statEvents.
    + cbn [app body_of]. now rewrite body_of_statEvents.
    + rewrite app_assoc. apply last_last.
  - destruct (v021_directory_crash cfg w raw ctx Hres st children
                Hex Hstat Hdir Hread Hkids) as [n ->].
    repeat split.
    + unfold status_of. cbn [app first_head]. now rewrite first_head_statEvents.
    + cbn [app body_of]. now rewrite body_of_statEvents.
    + rewrite app_assoc. apply last_last.
Qed.

Lemma C7_stat_failure_aborts_listing_witness :
  (status_of (Streaming.handler Example.cfg Example.world (js "/links")) = None
   /\ body_of (Streaming.handler Example.cfg Example.world (js "/links")) = []
   /\ last (Streaming.handler Example.cfg Example.world (js "/links"))
        (Uncaught URIError) = Uncaught StatError)
  /\ (status_of (V021.handler Example.cfg Example.world (js "/links")) = None
      /\ body_of (V021.handler Example.cfg Example.world (js "/links")) = []
      /\ last (V021.handler Example.cfg Example.world (js "/links"))
           (Uncaught URIError) = Uncaught StatError).
Proof.
  apply (C7_stat_failure_aborts_listing Example.cfg Example.world (js "/links")
           (mkContext (js "links") (js "/srv/links")) 21
           (mkStats S_IFDIR 4096) [js "ok.txt"; js "broken"]); reflexivity.
Defined.

(** C8.  When the read stream of a file reports an error, the handler has
    already written status 200 and now writes a second status line, 500,
    through [tellAboutError]: two status writes for one request. *)
Theorem C8_read_error_writes_second_head
    (cfg : Config) (w : World) (raw : jsstring) (ctx : RequestContext)
    (fd : N) (st : Stats) (chunks : list (list N)) :
  resolve (filesPath cfg) raw = Some ctx ->
  fs_exists w (fullPath ctx) = true ->
  fs_open w (fullPath ctx) = Some fd ->
  fs_fstat w fd = Some st ->
  isFile st = true ->
  fs_createReadStream w (fullPath ctx) = ReadError chunks ->
  filter is_writeHead (Streaming.handler cfg w raw)
  = [ResWriteHead 200 (Streaming.fileHead cfg (fullPath ctx) st);
     ResWriteHead 500 textPlain]
  /\ writeHead_count (Streaming.handler cfg w raw) = 2%nat.
Proof.
  intros Hres Hex Hopen Hstat Hfile Hread.
  assert (H : filter is_writeHead (Streaming.handler cfg w raw)
              = [ResWriteHead 200 (Streaming.fileHead cfg (fullPath ctx) st);
                 ResWriteHead 500 textPlain]).
  { rewrite (streaming_file cfg w raw ctx Hres fd st Hex Hopen Hstat Hfile), Hread.
    cbn [app filter is_writeHead]. f_equal.
    rewrite filter_app. cbn [filter is_writeHead].
    replace (filter is_writeHead (map ResWrite chunks)) with (@nil Event);
      [reflexivity|].
    clear. induction chunks; simpl; auto. }
  split; [exact H|]. unfold writeHead_count. now rewrite H.
Qed.

Lemma C8_read_error_writes_second_head_witness :
  filter is_writeHead (Streaming.handler Example.cfg Example.world (js "/bad.bin"))
  = [ResWriteHead 200
       (Streaming.fileHead Example.cfg (js "/srv/bad.bin") (mkStats S_IFREG 6));
     ResWriteHead 500 textPlain]
  /\ writeHead_count (Streaming.handler Example.cfg Example.world (js "/bad.bin"))
     = 2%nat.
Proof.
  apply (C8_read_error_writes_second_head Example.cfg Example.world
           (js "/bad.bin") (mkContext (js "bad.bin") (js "/srv/bad.bin")) 14
           (mkStats S_IFREG 6) [[1; 2; 3]]); reflexivity.
Defined.

(** C9.  The descriptor that [fs.open] hands out is never closed: the
    handler makes no [fs.close] call, so every request whose path opens ends
    with that descriptor still open.  Only the descriptor the read stream
    holds internally is released. *)
Theorem C9_descriptor_left_open
    (cfg : Config) (w : World) (raw : jsstring) (ctx : RequestContext) (fd : N) :
  resolve (filesPath cfg) raw = Some ctx ->
  fs_exists w (fullPath ctx) = true ->
  fs_open w (fullPath ctx) = Some fd ->
  leaked (Streaming.handler cfg w raw) = [Fd fd].
Proof.
  intros Hres Hex Hopen.
  destruct (fs_fstat w fd) as [st|] eqn:Hstat.
  - destruct (isFile st) eqn:Hfile.
    + rewrite (streaming_file cfg w raw ctx Hres fd st Hex Hopen Hstat Hfile).
      unfold leaked.
      destruct (fs_createReadStream w (fullPath ctx)) as [chunks|chunks];
        cbn [app open_after]; rewrite open_after_chunks; cbn [open_after];
        apply release_stream.
    + destruct (isDirectory st) eqn:Hdir.
      * destruct (fs_readdir w (fullPath ctx)) as [children|] eqn:Hread.
        -- destruct (forallb (statable w (fullPath ctx)) children) eqn:Hkids.
           ++ rewrite (streaming_directory cfg w raw ctx Hres fd st children
                         Hex Hopen Hstat Hdir Hread Hkids).
              unfold leaked. cbn [app open_after].
              now rewrite open_after_statEvents.
           ++ destruct (streaming_directory_crash cfg w raw ctx Hres fd st
                          children Hex Hopen Hstat Hdir Hread Hkids) as [n ->].
              unfold leaked. cbn [app open_after].
              now rewrite open_after_statEvents.
        -- unfold Streaming.handler, Streaming.serve.
           rewrite Hres, Hex, Hopen. cbn [negb].
           unfold Streaming.getStatCallback, Streaming.listDir.
           rewrite Hstat, Hfile, Hdir, Hread. reflexivity.
      * unfold Streaming.handler, Streaming.serve.
        rewrite Hres, Hex, Hopen. cbn [negb].
        unfold Streaming.getStatCallback.
        rewrite Hstat, Hfile, Hdir. reflexivity.
  - unfold Streaming.handler, Streaming.serve.
    rewrite Hres, Hex, Hopen. cbn [negb].
    unfold Streaming.getStatCallback. rewrite Hstat. reflexivity.
Qed.

Lemma C9_descriptor_left_open_witness :
  leaked (Streaming.handler Example.cfg Example.world (js "/a.txt")) = [Fd 4].
Proof.
  apply (C9_descriptor_left_open Example.cfg Example.world (js "/a.txt")
           (mkContext (js "a.txt") (js "/srv/a.txt")) 4); reflexivity.
Defined.

(** C10, as the code has it.  In a directory whose children can all be
    stat-ed, a child that is neither a regular file nor a directory (a
    socket, a device, a FIFO) is pushed on neither list: the page is built
    from the directory children and the file children alone, those lists
    are what they would be without that child, and the status is 200, in
    both revisions. *)
Theorem C10_special_child_omitted
    (cfg : Config) (w : World) (raw : jsstring) (ctx : RequestContext)
    (fd : N) (st : Stats) (children : list jsstring) :
  resolve (filesPath cfg) raw = Some ctx ->
  fs_exists w (fullPath ctx) = true ->
  fs_open w (fullPath ctx) = Some fd ->
  fs_fstat w fd = Some st ->
  fs_stat w (fullPath ctx) = Some st ->
  isDirectory st = true ->
  fs_readdir w (fullPath ctx) = Some children ->
  forallb (statable w (fullPath ctx)) children = true ->
  let dirs := filter (isDirChild w (fullPath ctx)) children in
  let files := filter (isFileChild w (fullPath ctx)) children in
  let html := listHtml (pathname ctx) dirs files in
  (status_of (Streaming.handler cfg w raw) = Some 200
   /\ body_of (Streaming.handler cfg w raw) = utf8_encode html)
  /\ (status_of (V021.handler cfg w raw) = Some 200
      /\ body_of (V021.handler cfg w raw) = utf8_encode html)
  /\ forall child st',
       fs_stat w (path_join (fullPath ctx) child) = Some st' ->
       isFile st' = false ->
       isDirectory st' = false ->
       (~ In child dirs /\ ~ In child files)
       /\ filter (isDirChild w (fullPath ctx))
            (filter (fun c => negb (jseqb c child)) children) = dirs
       /\ filter (isFileChild w (fullPath ctx))
            (filter (fun c => negb (jseqb c child)) children) = files.
Proof.
  intros Hres Hex Hopen Hfstat Hstat Hdir Hread Hkids dirs files html.
  split; [split|split; [split|]].
  - rewrite (streaming_directory cfg w raw ctx Hres fd st children
               Hex Hopen Hfstat Hdir Hread Hkids).
    unfold status_of. cbn [app first_head]. now rewrite first_head_statEvents.
  - rewrite (streaming_directory cfg w raw ctx Hres fd st children
               Hex Hopen Hfstat Hdir Hread Hkids).
    cbn [app body_of]. rewrite body_of_statEvents. simpl.
    now rewrite app_nil_r.
  - rewrite (v021_directory cfg w raw ctx Hres st children
               Hex Hstat Hdir Hread Hkids).
    unfold status_of. cbn [app first_head]. now rewrite first_head_statEvents.
  - rewrite (v021_directory cfg w raw ctx Hres st children
               Hex Hstat Hdir Hread Hkids).
    cbn [app body_of]. rewrite body_of_statEvents. simpl.
    now rewrite app_nil_r.
  - intros child st' Hchild Hnofile Hnodir.
    assert (Hd : isDirChild w (fullPath ctx) child = false)
      by (unfold isDirChild; now rewrite Hchild).
    assert (Hf : isFileChild w (fullPath ctx) child = false)
      by (unfold isFileChild; rewrite Hchild, Hnofile; apply andb_false_r).
    repeat split.
    + intros [_ Hin]%filter_In. congruence.
    + intros [_ Hin]%filter_In. congruence.
    + apply filter_filter_implied. intros x Hx.
      apply negb_true_iff, jseqb_neq. intros ->. congruence.
    + apply filter_filter_implied. intros x Hx.
      apply negb_true_iff, jseqb_neq. intros ->. congruence.
Qed.

Lemma C10_special_child_omitted_witness :
  let children := [js "zeta"; js "b.txt"; js "alpha"; js "a.txt"; js "pipe"] in
  let dirs := filter (isDirChild Example.world (js "/srv/mix")) children in
  let files := filter (isFileChild Example.world (js "/srv/mix")) children in
  fs_stat Example.world (js "/srv/mix/pipe") = Some (mkStats S_IFIFO 0)
  /\ (~ In (js "pipe") dirs /\ ~ In (js "pipe") files)
  /\ status_of (Streaming.handler Example.cfg Example.world (js "/mix")) = Some 200
  /\ status_of (V021.handler Example.cfg Example.world (js "/mix")) = Some 200
  /\ body_of (Streaming.handler Example.cfg Example.world (js "/mix"))
     = utf8_encode (listHtml (js "mix") dirs files).
Proof.
  intros children dirs files.
  destruct (C10_special_child_omitted Example.cfg Example.world (js "/mix")
              (mkContext (js "mix") (js "/srv/mix")) 15 (mkStats S_IFDIR 4096)
              children eq_refl eq_refl eq_refl eq_refl eq_refl eq_refl eq_refl
              eq_refl)
    as [[Hs Hb] [[Hs' _] Hkids]].
  destruct (Hkids (js "pipe") (mkStats S_IFIFO 0) eq_refl eq_refl eq_refl)
    as [Hout _].
  repeat split; try assumption; apply Hout.
Defined.

(** C10 as stated fails for a dangling symbolic link: [fs.statSync] follows
    links, so it throws on [/srv/links/broken], and the request for [/links]
    ends without any status, where the same directory without the link is
    answered with 200. *)
Lemma C10_counterexample :
  fs_readdir Example.world (js "/srv/links") = Some [js "ok.txt"; js "broken"]
  /\ fs_stat Example.world (js "/srv/links/broken") = None
  /\ status_of (Streaming.handler Example.cfg Example.world (js "/links")) = None
  /\ status_of (V021.handler Example.cfg Example.world (js "/links")) = None
  /\ fs_readdir Example.world_healed (js "/srv/links") = Some [js "ok.txt"]
  /\ status_of (Streaming.handler Example.cfg Example.world_healed (js "/links"))
     = Some 200
  /\ status_of (V021.handler Example.cfg Example.world_healed (js "/links"))
     = Some 200.
Proof. repeat split; vm_compute; reflexivity. Qed.

(** * Further properties of the request handlers *)

(** ** The shapes of a trace *)

Section StreamingErrors.
Variables (cfg : Config) (w : World) (raw : jsstring) (ctx : RequestContext).
Hypothesis Hresolve : resolve (filesPath cfg) raw = Some ctx.
Local Abbreviation full := (fullPath ctx).

Lemma streaming_open_error :
  fs_exists w full = true ->
  fs_open w full = None ->
  Streaming.handler cfg w raw
  = [FsExists full; FsOpen full None] ++ error500 (js "Cannot open this path.").
Proof.
  intros Hex Hopen. unfold Streaming.handler, Streaming.serve.
  rewrite Hresolve, Hex, Hopen. reflexivity.
Qed.

Lemma streaming_stat_error (fd : N) :
  fs_exists w full = true ->
  fs_open w full = Some fd ->
  match fs_fstat w fd with
  | None => True
  | Some st => isFile st = false /\ isDirectory st = false
  end ->
  Streaming.handler cfg w raw
  = [FsExists full; FsOpen full (Some fd); FsFstat fd]
    ++ error500 (js "Cannot open this path.").
Proof.
  intros Hex Hopen Hstat. unfold Streaming.handler, Streaming.serve.
  rewrite Hresolve, Hex, Hopen. cbn [negb]. unfold Streaming.getStatCallback.
  destruct (fs_fstat w fd) as [st|]; [|reflexivity].
  destruct Hstat as [-> ->]. reflexivity.
Qed.

Lemma streaming_readdir_error (fd : N) (st : Stats) :
  fs_exists w full = true ->
  fs_open w full = Some fd ->
  fs_fstat w fd = Some st ->
  isDirectory st = true ->
  fs_readdir w full = None ->
  Streaming.handler cfg w raw
  = [FsExists full; FsOpen full (Some fd); FsFstat fd; FsReaddir full]
    ++ error500 (js "Cannot read directory.").
Proof.
  intros Hex Hopen Hstat Hdir Hread. unfold Streaming.handler, Streaming.serve.
  rewrite Hresolve, Hex, Hopen. cbn [negb].
  unfold Streaming.getStatCallback, Streaming.listDir.
  rewrite Hstat, (isDirectory_not_file st Hdir), Hdir, Hread. reflexivity.
Qed.
End StreamingErrors.

(** Unless a read fails on a runtime that refuses the second status line,
    the runtime makes no difference. *)
Lemma streamingOn_same (rt : Runtime) (cfg : Config) (w : World) (raw : jsstring) :
  (forall ctx fd st chunks,
     resolve (filesPath cfg) raw = Some ctx ->
     fs_exists w (fullPath ctx) = true ->
     fs_open w (fullPath ctx) = Some fd ->
     fs_fstat w fd = Some st ->
     isFile st = true ->
     fs_createReadStream w (fullPath ctx) = ReadError chunks ->
     rt = HeadsTolerated) ->
  StreamingOn.handler rt cfg w raw = Streaming.handler cfg w raw.
Proof.
  intro Hrt.
  unfold StreamingOn.handler, StreamingOn.serve, Streaming.handler, Streaming.serve.
  destruct (resolve (filesPath cfg) raw) as [ctx|] eqn:Hres; [|reflexivity].
  destruct (fs_exists w (fullPath ctx)) eqn:Hex; [|reflexivity].
  destruct (fs_open w (fullPath ctx)) as [fd|] eqn:Hopen; [|reflexivity].
  unfold StreamingOn.getStatCallback, Streaming.getStatCallback.
  destruct (fs_fstat w fd) as [st|] eqn:Hstat; [|reflexivity].
  destruct (isFile st) eqn:Hfile; [|reflexivity].
  unfold StreamingOn.openFile, Streaming.openFile.
  destruct (fs_createReadStream w (fullPath ctx)) as [chunks|chunks] eqn:Hread;
    [reflexivity|].
  now rewrite (Hrt ctx fd st chunks eq_refl Hex Hopen Hstat Hfile Hread).
Qed.

Lemma streamingOn_refused
    (cfg : Config) (w : World) (raw : jsstring) (ctx : RequestContext)
    (fd : N) (st : Stats) (chunks : list (list N)) :
  resolve (filesPath cfg) raw = Some ctx ->
  fs_exists w (fullPath ctx) = true ->
  fs_open w (fullPath ctx) = Some fd ->
  fs_fstat w fd = Some st ->
  isFile st = true ->
  fs_createReadStream w (fullPath ctx) = ReadError chunks ->
  StreamingOn.handler HeadsRefused cfg w raw
  = [FsExists (fullPath ctx); FsOpen (fullPath ctx) (Some fd); FsFstat fd;
     StreamOpen (fullPath ctx);
     ResWriteHead 200 (Streaming.fileHead cfg (fullPath ctx) st)]
    ++ map ResWrite chunks ++ readFailure HeadsRefused (fullPath ctx).
Proof.
  intros Hres Hex Hopen Hstat Hfile Hread.
  unfold StreamingOn.handler, StreamingOn.serve.
  rewrite Hres, Hex, Hopen. cbn [negb].
  unfold StreamingOn.getStatCallback. rewrite Hstat, Hfile.
  unfold StreamingOn.openFile. rewrite Hread, writeChunks_trace.
  cbn. rewrite <- ?app_assoc. reflexivity.
Qed.

Lemma streamingOn_shape (rt : Runtime) (cfg : Config) (w : World) (raw : jsstring) :
  StreamingShape rt cfg w (StreamingOn.handler rt cfg w raw).
Proof.
  destruct (resolve (filesPath cfg) raw) as [ctx|] eqn:Hres.
  2:{ unfold StreamingOn.handler, StreamingOn.serve. rewrite Hres. constructor. }
  destruct (fs_exists w (fullPath ctx)) eqn:Hex.
  2:{ rewrite streamingOn_same by (intros; congruence).
      rewrite (streaming_not_found cfg w raw ctx Hres Hex). constructor. }
  destruct (fs_open w (fullPath ctx)) as [fd|] eqn:Hopen.
  2:{ rewrite streamingOn_same by (intros; congruence).
      rewrite (streaming_open_error cfg w raw ctx Hres Hex Hopen). constructor. }
  destruct (fs_fstat w fd) as [st|] eqn:Hstat.
  2:{ rewrite streamingOn_same by (intros; congruence).
      rewrite (streaming_stat_error cfg w raw ctx Hres fd Hex Hopen)
        by now rewrite Hstat.
      constructor. }
  destruct (isFile st) eqn:Hfile.
  { destruct (fs_createReadStream w (fullPath ctx)) as [chunks|chunks] eqn:Hread.
    - rewrite streamingOn_same by (intros; congruence).
      rewrite (streaming_file cfg w raw ctx Hres fd st Hex Hopen Hstat Hfile), Hread.
      constructor.
    - destruct rt.
      + rewrite streamingOn_same by reflexivity.
        rewrite (streaming_file cfg w raw ctx Hres fd st Hex Hopen Hstat Hfile),
          Hread.
        apply (ShapeFileError HeadsTolerated cfg w (fullPath ctx) fd st chunks).
      + rewrite (streamingOn_refused cfg w raw ctx fd st chunks
                   Hres Hex Hopen Hstat Hfile Hread).
        constructor. }
  destruct (isDirectory st) eqn:Hdir.
  2:{ rewrite streamingOn_same by (intros; congruence).
      rewrite (streaming_stat_error cfg w raw ctx Hres fd Hex Hopen)
        by now rewrite Hstat.
      constructor. }
  destruct (fs_readdir w (fullPath ctx)) as [children|] eqn:Hread.
  2:{ rewrite streamingOn_same by (intros; congruence).
      rewrite (streaming_readdir_error cfg w raw ctx Hres fd st
                 Hex Hopen Hstat Hdir Hread). constructor. }
  rewrite streamingOn_same by (intros; congruence).
  destruct (forallb (statable w (fullPath ctx)) children) eqn:Hkids.
  - rewrite (streaming_directory cfg w raw ctx Hres fd st children
               Hex Hopen Hstat Hdir Hread Hkids). constructor.
  - destruct (streaming_directory_crash cfg w raw ctx Hres fd st children
                Hex Hopen Hstat Hdir Hread Hkids) as [n ->]. constructor.
Qed.

Lemma streaming_shape (cfg : Config) (w : World) (raw : jsstring) :
  StreamingShape HeadsTolerated cfg w (Streaming.handler cfg w raw).
Proof.
  rewrite <- (streamingOn_same HeadsTolerated cfg w raw) by reflexivity.
  apply streamingOn_shape.
Qed.

Lemma res_events_chunks (chunks : list (list N)) :
  res_events (map ResWrite chunks) = map ResWrite chunks.
Proof.
  unfold res_events. induction chunks as [|c chunks IH]; [reflexivity|].
  simpl. now rewrite IH.
Qed.

Lemma res_events_statEvents (dir : jsstring) (children : list jsstring) :
  res_events (statEvents dir children) = [].
Proof. unfold res_events. induction children; simpl; auto. Qed.

Lemma res_events_app (a b : Trace) :
  res_events (a ++ b) = res_events a ++ res_events b.
Proof. apply filter_app. Qed.

(** X1.  What the streaming revision calls on the response, in order, on
    either runtime: nothing at all; or one status line, which is 200, 404 or
    500, and one [end]; or the status 200, the chunks of a file and an [end]
    without data; or, when the read of a file fails, the status 200, some
    chunks and a second status line 500, which is followed by the [end] of
    the error response where the runtime tolerates it and by nothing where
    the runtime refuses it.  Nothing is written after [end], and [end] is
    never called twice.  On Node 0.10 the handler is [Streaming.handler]. *)
Theorem streaming_response_grammar
    (rt : Runtime) (cfg : Config) (w : World) (raw : jsstring) :
  let calls := res_events (StreamingOn.handler rt cfg w raw) in
  (calls = []
   \/ (exists status head body,
         calls = [ResWriteHead status head; ResEnd body]
         /\ (status = 200 \/ status = 404 \/ status = 500))
   \/ (exists head chunks,
         calls = ResWriteHead 200 head :: map ResWrite chunks ++ [ResEnd NoData])
   \/ (exists head chunks,
         calls = ResWriteHead 200 head :: map ResWrite chunks
                   ++ ResWriteHead 500 textPlain
                      :: match rt with
                         | HeadsTolerated =>
                             [ResEnd (Text (js "Error 500. Cannot read file."))]
                         | HeadsRefused => []
                         end))
  /\ StreamingOn.handler HeadsTolerated cfg w raw = Streaming.handler cfg w raw.
Proof.
  cbv zeta. split; [|now apply streamingOn_same].
  destruct (streamingOn_shape rt cfg w raw).
  - now left.
  - right; left. eexists _, _, _. split; [reflexivity|auto].
  - right; left. eexists _, _, _. split; [reflexivity|auto].
  - right; left. eexists _, _, _. split; [reflexivity|auto].
  - right; left. eexists _, _, _. split; [reflexivity|auto].
  - right; right; left. exists (Streaming.fileHead cfg p st), chunks.
    rewrite res_events_app. cbn [res_events filter is_res app].
    fold (res_events (map ResWrite chunks ++ [ResEnd NoData; StreamClose p])).
    now rewrite res_events_app, res_events_chunks.
  - right; right; right.
    exists (Streaming.fileHead cfg p st), chunks.
    rewrite res_events_app. cbn [res_events filter is_res app].
    fold (res_events (map ResWrite chunks ++ readFailure rt p)).
    rewrite res_events_app, res_events_chunks. now destruct rt.
  - right; left. eexists _, _, _.
    rewrite !res_events_app, res_events_statEvents.
    split; [reflexivity|auto].
  - left. rewrite !res_events_app, res_events_statEvents. reflexivity.
Qed.

Section V021Errors.
Variables (cfg : Config) (w : World) (raw : jsstring) (ctx : RequestContext).
Hypothesis Hresolve : resolve (filesPath cfg) raw = Some ctx.
Local Abbreviation full := (fullPath ctx).

Lemma v021_stat_error :
  fs_exists w full = true ->
  fs_stat w full = None ->
  V021.handler cfg w raw = [FsExists full; FsStat full; Uncaught TypeError].
Proof.
  intros Hex Hstat. unfold V021.handler, V021.serve.
  rewrite Hresolve, Hex, Hstat. reflexivity.
Qed.

Lemma v021_other_inode (st : Stats) :
  fs_exists w full = true ->
  fs_stat w full = Some st ->
  isFile st = false ->
  isDirectory st = false ->
  V021.handler cfg w raw
  = [FsExists full; FsStat full] ++ error500 (js "Unknown type of inode.").
Proof.
  intros Hex Hstat Hfile Hdir. unfold V021.handler, V021.serve.
  rewrite Hresolve, Hex, Hstat, Hfile, Hdir. reflexivity.
Qed.

Lemma v021_readFile_error (st : Stats) :
  fs_exists w full = true ->
  fs_stat w full = Some st ->
  isFile st = true ->
  fs_readFile w full = None ->
  V021.handler cfg w raw
  = [FsExists full; FsStat full; FsReadFile full]
    ++ error500 (js "Can't open the file.").
Proof.
  intros Hex Hstat Hfile Hread. unfold V021.handler, V021.serve.
  rewrite Hresolve, Hex, Hstat, Hfile. cbn [negb].
  unfold V021.openFile. rewrite Hread. reflexivity.
Qed.

Lemma v021_readdir_error (st : Stats) :
  fs_exists w full = true ->
  fs_stat w full = Some st ->
  isDirectory st = true ->
  fs_readdir w full = None ->
  V021.handler cfg w raw
  = [FsExists full; FsStat full; FsReaddir full]
    ++ error500 (js "Can't read dir.").
Proof.
  intros Hex Hstat Hdir Hread. unfold V021.handler, V021.serve.
  rewrite Hresolve, Hex, Hstat, (isDirectory_not_file st Hdir), Hdir.
  cbn [negb]. unfold V021.listDir. rewrite Hread. reflexivity.
Qed.
End V021Errors.

Lemma v021_shape (cfg : Config) (w : World) (raw : jsstring) :
  V021Shape (V021.handler cfg w raw).
Proof.
  destruct (resolve (filesPath cfg) raw) as [ctx|] eqn:Hres.
  2:{ unfold V021.handler, V021.serve. rewrite Hres. constructor. }
  destruct (fs_exists w (fullPath ctx)) eqn:Hex.
  2:{ rewrite (v021_not_found cfg w raw ctx Hres Hex). constructor. }
  destruct (fs_stat w (fullPath ctx)) as [st|] eqn:Hstat.
  2:{ rewrite (v021_stat_error cfg w raw ctx Hres Hex Hstat). constructor. }
  destruct (isFile st) eqn:Hfile.
  { destruct (fs_readFile w (fullPath ctx)) as [data|] eqn:Hread.
    - destruct (v021_file cfg w raw ctx Hres st data Hex Hstat Hfile Hread)
        as [type ->]. constructor.
    - rewrite (v021_readFile_error cfg w raw ctx Hres st Hex Hstat Hfile Hread).
      constructor. }
  destruct (isDirectory st) eqn:Hdir.
  2:{ rewrite (v021_other_inode cfg w raw ctx Hres st Hex Hstat Hfile Hdir).
      constructor. }
  destruct (fs_readdir w (fullPath ctx)) as [children|] eqn:Hread.
  2:{ rewrite (v021_readdir_error cfg w raw ctx Hres st Hex Hstat Hdir Hread).
      constructor. }
  destruct (forallb (statable w (fullPath ctx)) children) eqn:Hkids.
  - rewrite (v021_directory cfg w raw ctx Hres st children
               Hex Hstat Hdir Hread Hkids). constructor.
  - destruct (v021_directory_crash cfg w raw ctx Hres st children
                Hex Hstat Hdir Hread Hkids) as [n ->]. constructor.
Qed.

(** X2.  Version 0.2.1 calls the response either not at all or exactly twice:
    one status line, which is 200, 404 or 500, and one [end]. It opens no
    descriptor of its own, so none is left open. *)
Theorem v021_single_response (cfg : Config) (w : World) (raw : jsstring) :
  (res_events (V021.handler cfg w raw) = []
   \/ exists status head body,
        res_events (V021.handler cfg w raw)
        = [ResWriteHead status head; ResEnd body]
        /\ (status = 200 \/ status = 404 \/ status = 500))
  /\ leaked (V021.handler cfg w raw) = [].
Proof.
  destruct (v021_shape cfg w raw); split;
    rewrite ?res_events_app, ?res_events_statEvents;
    try reflexivity;
    try (now left);
    try (right; eexists _, _, _; split; [reflexivity|auto]);
    unfold leaked; cbn [app open_after]; now rewrite open_after_statEvents.
Qed.

(** ** Headers *)

Lemma typeLoop_other (k : jsstring) (table : list (jsstring * jsstring))
    (e : jsstring) (head : Headers) :
  jseqb (js "Content-Type") k = false ->
  obj_get k (Streaming.typeLoop table e head) = obj_get k head.
Proof.
  intro Hk. revert head; induction table as [|[k' v] table IH]; intro head;
    [reflexivity|].
  cbn [Streaming.typeLoop].
  destruct (jseqb k' (js "*")); [apply IH|].
  destruct (jseqb k' e); [|apply IH].
  rewrite IH. now apply obj_get_set_other.
Qed.

Lemma fileHead_other (k : jsstring) (cfg : Config) (path : jsstring) (st : Stats) :
  jseqb (js "Content-Type") k = false ->
  obj_get k (Streaming.fileHead cfg path st) = obj_get k (lengthHead cfg st).
Proof.
  intro Hk. unfold Streaming.fileHead. fold (lengthHead cfg st).
  set (head := Streaming.typeLoop _ _ _).
  assert (Hhead : obj_get k head = obj_get k (lengthHead cfg st))
    by (subst head; now apply typeLoop_other).
  destruct (negb (obj_has (js "Content-Type") head)); [|exact Hhead].
  simpl. now rewrite obj_get_set_other.
Qed.

Lemma first_head_cons_fs (e : Event) (t : Trace) :
  is_res e = false -> first_head (e :: t) = first_head t.
Proof. now destruct e. Qed.

(** X3.  The three caching headers are sent with the first status line exactly
    when the server runs with [noCache] and that status is 200. *)
Theorem streaming_cache_headers (cfg : Config) (w : World) (raw : jsstring) :
  let t := Streaming.handler cfg w raw in
  let sent := noCache cfg && is_ok t in
  header_of (js "Cache-Control") t
  = (if sent then Some (HStr (js "no-cache, no-store, must-revalidate")) else None)
  /\ header_of (js "Pragma") t
     = (if sent then Some (HStr (js "no-cache")) else None)
  /\ header_of (js "Expires") t = (if sent then Some (HStr (js "0")) else None).
Proof.
  cbv zeta. destruct (streaming_shape cfg w raw);
    try (rewrite andb_false_r; repeat split; reflexivity).
  - unfold header_of, is_ok, status_of. cbn [app first_head option_map fst].
    rewrite !fileHead_other by reflexivity.
    unfold lengthHead. destruct (noCache cfg); repeat split; reflexivity.
  - unfold header_of, is_ok, status_of. cbn [app first_head option_map fst].
    rewrite !fileHead_other by reflexivity.
    unfold lengthHead. destruct (noCache cfg); repeat split; reflexivity.
  - unfold header_of, is_ok, status_of. cbn [app first_head].
    rewrite first_head_statEvents. cbn [app first_head option_map fst].
    unfold Streaming.dirHead. destruct (noCache cfg); repeat split; reflexivity.
  - unfold header_of, is_ok, status_of. cbn [app first_head].
    rewrite first_head_statEvents. rewrite andb_false_r. repeat split.
Qed.

(** X4.  The page of a directory is sent as HTML, and its Content-Length is
    the number of bytes of the body as it is encoded, not the number of code
    units of the page. *)
Theorem listing_announces_its_length
    (cfg : Config) (w : World) (raw : jsstring) (ctx : RequestContext)
    (fd : N) (st : Stats) (children : list jsstring) :
  resolve (filesPath cfg) raw = Some ctx ->
  fs_exists w (fullPath ctx) = true ->
  fs_open w (fullPath ctx) = Some fd ->
  fs_fstat w fd = Some st ->
  isDirectory st = true ->
  fs_readdir w (fullPath ctx) = Some children ->
  forallb (statable w (fullPath ctx)) children = true ->
  let t := Streaming.handler cfg w raw in
  header_of (js "Content-Type") t = Some (HStr (js "text/html; charset=utf-8"))
  /\ header_of (js "Content-Length") t
     = Some (HNum (N.of_nat (List.length (body_of t)))).
Proof.
  intros Hres Hex Hopen Hstat Hdir Hread Hkids. cbv zeta.
  rewrite (streaming_directory cfg w raw ctx Hres fd st children
             Hex Hopen Hstat Hdir Hread Hkids).
  cbv zeta. unfold header_of. cbn [app first_head body_of].
  rewrite first_head_statEvents, body_of_statEvents.
  cbn [first_head body_of body_bytes]. rewrite app_nil_r.
  unfold Streaming.dirHead, byteLength.
  destruct (noCache cfg); split; reflexivity.
Qed.

Lemma listing_announces_its_length_witness :
  header_of (js "Content-Type")
    (Streaming.handler Example.cfg Example.world (js "/mix"))
  = Some (HStr (js "text/html; charset=utf-8"))
  /\ header_of (js "Content-Length")
       (Streaming.handler Example.cfg Example.world (js "/mix"))
     = Some (HNum (N.of_nat (List.length
                (body_of (Streaming.handler Example.cfg Example.world (js "/mix")))))).
Proof.
  apply (listing_announces_its_length Example.cfg Example.world (js "/mix")
           (mkContext (js "mix") (js "/srv/mix")) 15 (mkStats S_IFDIR 4096)
           [js "zeta"; js "b.txt"; js "alpha"; js "a.txt"; js "pipe"]);
    reflexivity.
Defined.

(** ** The parent entry *)

Lemma resolve_pathname_head (root raw : jsstring) (ctx : RequestContext) :
  resolve root raw = Some ctx -> hd_error (pathname ctx) <> Some c_slash.
Proof.
  unfold resolve.
  destruct (decodeURIComponent _) as [decoded|]; [|discriminate].
  intros [= <-]. apply strip_slashes_head.
Qed.

(** X5.  The decoded path never starts with a slash, so the comparison with a
    single slash in [listDir] never decides: the parent entry is left out
    exactly for the empty path. *)
Theorem parent_entry_iff_nonempty (root raw : jsstring) (ctx : RequestContext) :
  resolve root raw = Some ctx ->
  (parentElement (pathname ctx) = [] <-> pathname ctx = [])
  /\ (pathname ctx <> [] -> parentElement (pathname ctx) = spec_parentEntry).
Proof.
  intro Hres. pose proof (resolve_pathname_head root raw ctx Hres) as Hhead.
  rewrite parentElement_eq. unfold is_root.
  destruct (pathname ctx) as [|c p] eqn:Ep.
  - split; [split; reflexivity|congruence].
  - assert (Hc : jseqb (c :: p) (js "/") = false).
    { apply jseqb_neq. intros [= -> ->]. now apply Hhead. }
    rewrite Hc. cbn [jseqb orb].
    split; [split; discriminate|reflexivity].
Qed.

Lemma parent_entry_iff_nonempty_witness :
  (parentElement (js "mix") = [] <-> js "mix" = [])
  /\ (js "mix" <> [] -> parentElement (js "mix") = spec_parentEntry).
Proof.
  apply (parent_entry_iff_nonempty (js "/srv") (js "/mix")
           (mkContext (js "mix") (js "/srv/mix"))).
  reflexivity.
Defined.

(** ** Known extensions *)

Lemma extname_not_star (p : jsstring) : jseqb (extname p) (js "*") = false.
Proof.
  destruct (extname_spec p) as [-> | Hspec]; [reflexivity|].
  apply jseqb_neq. intro Heq.
  unfold spec_extension in Hspec. rewrite Heq in Hspec.
  revert Hspec. generalize (final_segment p). intro seg.
  induction seg as [|c seg IH]; cbn [from_last_dot]; [discriminate|].
  destruct (from_last_dot seg); [exact IH|].
  destruct (c =? c_dot) eqn:Ec; [|discriminate].
  apply N.eqb_eq in Ec. subst c. intro H. inversion H.
Qed.

Lemma unique_keys_miss {V : Type} (k : jsstring) (v : V) (o : list (jsstring * V)) :
  unique_keys ((k, v) :: o) = true -> obj_get k o = None.
Proof.
  cbn [unique_keys]. intros [H _]%andb_true_iff.
  apply negb_true_iff in H. unfold obj_has in H.
  now destruct (obj_get k o).
Qed.

Lemma typeLoop_hit (table : list (jsstring * jsstring)) (e type : jsstring)
    (head : Headers) :
  unique_keys table = true ->
  obj_get e table = Some type ->
  jseqb e (js "*") = false ->
  obj_get (js "Content-Type") (Streaming.typeLoop table e head) = Some (HStr type).
Proof.
  intros Huniq Hget Hstar.
  revert head; induction table as [|[k v] table IH]; intro head; [discriminate|].
  cbn [obj_get] in Hget. cbn [Streaming.typeLoop].
  destruct (jseqb k e) eqn:Eke.
  - apply jseqb_eq in Eke. subst k. injection Hget as ->.
    rewrite Hstar.
    rewrite typeLoop_miss by exact (unique_keys_miss e type table Huniq).
    apply obj_get_set_same.
  - cbn [unique_keys] in Huniq. apply andb_true_iff in Huniq as [_ Huniq].
    destruct (jseqb k (js "*")); now apply IH.
Qed.

(** X6.  A file whose extension is written in the table, letter for letter, is
    served with the type the table gives. *)
Theorem known_extension_gets_its_type
    (cfg : Config) (w : World) (raw : jsstring) (ctx : RequestContext)
    (fd : N) (st : Stats) (type : jsstring) :
  resolve (filesPath cfg) raw = Some ctx ->
  fs_exists w (fullPath ctx) = true ->
  fs_open w (fullPath ctx) = Some fd ->
  fs_fstat w fd = Some st ->
  isFile st = true ->
  obj_get (extname (fullPath ctx)) Streaming.contentTypes = Some type ->
  header_of (js "Content-Type") (Streaming.handler cfg w raw) = Some (HStr type).
Proof.
  intros Hres Hex Hopen Hstat Hfile Htype.
  rewrite (streaming_file cfg w raw ctx Hres fd st Hex Hopen Hstat Hfile).
  unfold header_of. cbn [app first_head].
  pose proof (extname_not_star (fullPath ctx)) as Hstar.
  unfold Streaming.fileHead. fold (lengthHead cfg st).
  pose proof (typeLoop_hit Streaming.contentTypes (extname (fullPath ctx)) type
                (lengthHead cfg st) eq_refl Htype Hstar) as Hhit.
  unfold obj_has. now rewrite Hhit.
Qed.

Lemma known_extension_gets_its_type_witness :
  header_of (js "Content-Type")
    (Streaming.handler Example.cfg Example.world (js "/image.png"))
  = Some (HStr (js "image/png")).
Proof.
  apply (known_extension_gets_its_type Example.cfg Example.world (js "/image.png")
           (mkContext (js "image.png") (js "/srv/image.png")) 7
           (mkStats S_IFREG 4) (js "image/png")); reflexivity.
Defined.

Lemma v021_typeLoop_lookup (table : list (jsstring * jsstring)) (e : jsstring) :
  jseqb e (js "*") = false -> V021.typeLoop table e = obj_get e table.
Proof.
  intro Hstar. induction table as [|[k v] table IH]; [reflexivity|].
  cbn [obj_get V021.typeLoop].
  destruct (jseqb k e) eqn:Eke.
  - apply jseqb_eq in Eke. subst k. now rewrite Hstar.
  - now destruct (jseqb k (js "*")).
Qed.

(** X7.  Version 0.2.1 reads the whole file and sends it with one header, the
    content type: the type the table gives for the extension, letter for
    letter, else the fallback. There is no Content-Length. *)
Theorem v021_file_response
    (cfg : Config) (w : World) (raw : jsstring) (ctx : RequestContext)
    (st : Stats) (data : list N) :
  resolve (filesPath cfg) raw = Some ctx ->
  fs_exists w (fullPath ctx) = true ->
  fs_stat w (fullPath ctx) = Some st ->
  isFile st = true ->
  fs_readFile w (fullPath ctx) = Some data ->
  V021.handler cfg w raw
  = [FsExists (fullPath ctx); FsStat (fullPath ctx); FsReadFile (fullPath ctx);
     ResWriteHead 200
       [(js "Content-Type",
         HStr (match obj_get (extname (fullPath ctx)) V021.contentTypes with
               | Some type => type
               | None => js "application/octet-stream"
               end))];
     ResEnd (Bytes data)]
  /\ body_of (V021.handler cfg w raw) = data
  /\ header_of (js "Content-Length") (V021.handler cfg w raw) = None.
Proof.
  intros Hres Hex Hstat Hfile Hread.
  assert (Htrace : V021.handler cfg w raw
    = [FsExists (fullPath ctx); FsStat (fullPath ctx); FsReadFile (fullPath ctx);
       ResWriteHead 200
         [(js "Content-Type",
           HStr (match obj_get (extname (fullPath ctx)) V021.contentTypes with
                 | Some type => type
                 | None => js "application/octet-stream"
                 end))];
       ResEnd (Bytes data)]).
  { unfold V021.handler, V021.serve.
    rewrite Hres, Hex, Hstat, Hfile. cbn [negb].
    unfold V021.openFile. rewrite Hread.
    rewrite v021_typeLoop_lookup by apply extname_not_star.
    destruct (obj_get (extname (fullPath ctx)) V021.contentTypes); reflexivity. }
  rewrite Htrace. repeat split. simpl. apply app_nil_r.
Qed.

Lemma v021_file_response_witness :
  V021.handler Example.cfg Example.world (js "/a.txt")
  = [FsExists (js "/srv/a.txt"); FsStat (js "/srv/a.txt");
     FsReadFile (js "/srv/a.txt");
     ResWriteHead 200 [(js "Content-Type", HStr (js "text/plain; charset=utf-8"))];
     ResEnd (Bytes (js "hi"))]
  /\ body_of (V021.handler Example.cfg Example.world (js "/a.txt")) = js "hi"
  /\ header_of (js "Content-Length")
       (V021.handler Example.cfg Example.world (js "/a.txt")) = None.
Proof.
  apply (v021_file_response Example.cfg Example.world (js "/a.txt")
           (mkContext (js "a.txt") (js "/srv/a.txt")) (mkStats S_IFREG 2) (js "hi"));
    reflexivity.
Defined.

(** ** The order of [readdir] *)

Lemma sorted_unique (l1 l2 : list jsstring) :
  StronglySorted js_le l1 -> StronglySorted js_le l2 ->
  Permutation l1 l2 -> l1 = l2.
Proof.
  intros H1; revert l2; induction H1 as [|a l1 Hs1 IH Ha]; intros l2 H2 Hp.
  - apply Permutation_nil in Hp. now subst.
  - destruct H2 as [|b l2 Hs2 Hb].
    + symmetry in Hp. apply Permutation_nil in Hp. discriminate.
    + assert (Hab : a = b).
      { rewrite Forall_forall in Ha, Hb.
        assert (Hin_a : In a (b :: l2))
          by (apply Permutation_in with (l := a :: l1); [exact Hp|now left]).
        assert (Hin_b : In b (a :: l1))
          by (apply Permutation_in with (l := b :: l2);
              [now symmetry|now left]).
        destruct Hin_a as [-> | Hin_a]; [reflexivity|].
        destruct Hin_b as [-> | Hin_b]; [reflexivity|].
        apply js_le_antisym; auto. }
      subst b. f_equal. apply IH; [exact Hs2|].
      now apply Permutation_cons_inv with (a := a).
Qed.

Lemma sort_permutation (l l' : list jsstring) :
  Permutation l l' -> sort l = sort l'.
Proof.
  intro Hp. apply sorted_unique; try apply sort_strongly_sorted.
  rewrite <- (sort_perm l), <- (sort_perm l'). exact Hp.
Qed.

Lemma filter_permutation {A : Type} (p : A -> bool) (l l' : list A) :
  Permutation l l' -> Permutation (filter p l) (filter p l').
Proof.
  induction 1 as [|x l l' Hp IH|x y l|l l' l'' Hp1 IH1 Hp2 IH2]; simpl.
  - constructor.
  - destruct (p x); [now constructor|exact IH].
  - destruct (p x), (p y); try reflexivity. apply perm_swap.
  - now transitivity (filter p l').
Qed.

Lemma listHtml_permutation (pathname : jsstring) (d d' f f' : list jsstring) :
  Permutation d d' -> Permutation f f' ->
  listHtml pathname d f = listHtml pathname d' f'.
Proof.
  intros Hd Hf. unfold listHtml, listElements.
  now rewrite (sort_permutation d d' Hd), (sort_permutation f f' Hf).
Qed.

Lemma forallb_permutation {A : Type} (p : A -> bool) (l l' : list A) :
  Permutation l l' -> forallb p l = forallb p l'.
Proof.
  induction 1 as [|x l l' Hp IH|x y l|l l' l'' Hp1 IH1 Hp2 IH2]; simpl.
  - reflexivity.
  - now rewrite IH.
  - destruct (p x), (p y); reflexivity.
  - congruence.
Qed.

(** X8.  The page does not depend on the order in which [readdir] names the
    children: with the names in another order the response is the same, call
    for call. *)
Theorem listing_ignores_readdir_order
    (cfg : Config) (w : World) (raw : jsstring) (ctx : RequestContext)
    (fd : N) (st : Stats) (children children' : list jsstring) :
  resolve (filesPath cfg) raw = Some ctx ->
  fs_exists w (fullPath ctx) = true ->
  fs_open w (fullPath ctx) = Some fd ->
  fs_fstat w fd = Some st ->
  isDirectory st = true ->
  fs_readdir w (fullPath ctx) = Some children ->
  forallb (statable w (fullPath ctx)) children = true ->
  Permutation children children' ->
  res_events (Streaming.handler cfg (with_readdir w (fun _ => Some children')) raw)
  = res_events (Streaming.handler cfg w raw).
Proof.
  intros Hres Hex Hopen Hstat Hdir Hread Hkids Hperm.
  set (w' := with_readdir w (fun _ => Some children')).
  assert (Hkids' : forallb (statable w' (fullPath ctx)) children' = true).
  { rewrite <- Hkids. symmetry. now apply forallb_permutation. }
  rewrite (streaming_directory cfg w raw ctx Hres fd st children
             Hex Hopen Hstat Hdir Hread Hkids).
  rewrite (streaming_directory cfg w' raw ctx Hres fd st children'
             Hex Hopen Hstat Hdir eq_refl Hkids').
  cbv zeta. rewrite !res_events_app, !res_events_statEvents.
  change (isDirChild w' (fullPath ctx)) with (isDirChild w (fullPath ctx)).
  change (isFileChild w' (fullPath ctx)) with (isFileChild w (fullPath ctx)).
  rewrite (listHtml_permutation (pathname ctx)
             (filter (isDirChild w (fullPath ctx)) children')
             (filter (isDirChild w (fullPath ctx)) children)
             (filter (isFileChild w (fullPath ctx)) children')
             (filter (isFileChild w (fullPath ctx)) children));
    [reflexivity| |]; apply filter_permutation; now symmetry.
Qed.

Lemma listing_ignores_readdir_order_witness :
  res_events
    (Streaming.handler Example.cfg
       (with_readdir Example.world
          (fun _ => Some [js "b.txt"; js "zeta"; js "alpha"; js "a.txt"; js "pipe"]))
       (js "/mix"))
  = res_events (Streaming.handler Example.cfg Example.world (js "/mix")).
Proof.
  apply (listing_ignores_readdir_order Example.cfg Example.world (js "/mix")
           (mkContext (js "mix") (js "/srv/mix")) 15 (mkStats S_IFDIR 4096)
           [js "zeta"; js "b.txt"; js "alpha"; js "a.txt"; js "pipe"]
           [js "b.txt"; js "zeta"; js "alpha"; js "a.txt"; js "pipe"]);
    try reflexivity.
  apply perm_swap.
Defined.

(** ** Escapes in the request path *)

Lemma escape_ok_plus_to_space (t : jsstring) :
  escape_ok (plus_to_space t) = escape_ok t.
Proof.
  destruct t as [|h [|l t]]; try reflexivity.
  cbn [plus_to_space map escape_ok]. now rewrite !hex_val_plus_space.
Qed.

Lemma uri_tokens_bad_escape (s t : jsstring) :
  escape_ok t = false -> uri_tokens (s ++ c_percent :: t) = None.
Proof.
  intro Hbad.
  remember (List.length s) as n eqn:Hn.
  revert s Hn. induction n as [n IH] using lt_wf_ind. intros s Hn.
  destruct s as [|c s].
  - cbn [app uri_tokens]. rewrite N.eqb_refl.
    destruct t as [|h [|l t]]; try reflexivity.
    cbn [escape_ok] in Hbad.
    destruct (hex_val h); [|reflexivity].
    destruct (hex_val l); [discriminate|reflexivity].
  - cbn [app uri_tokens].
    destruct (c =? c_percent) eqn:Ec.
    + destruct s as [|h [|l s]].
      * cbn [app]. destruct t; reflexivity.
      * cbn [app]. now destruct (hex_val h).
      * cbn [app].
        rewrite (IH (List.length s)) by (subst n; simpl; lia || reflexivity).
        destruct (hex_val h); [|reflexivity]. now destruct (hex_val l).
    + rewrite (IH (List.length s)) by (subst n; simpl; lia || reflexivity).
      reflexivity.
Qed.

Lemma resolve_bad_escape (root s t : jsstring) :
  escape_ok t = false -> resolve root (s ++ c_percent :: t) = None.
Proof.
  intro Hbad. unfold resolve. rewrite join_split_plus.
  unfold plus_to_space. rewrite map_app. cbn [map].
  change (c_percent =? c_plus) with false. cbv iota.
  fold (plus_to_space s). fold (plus_to_space t).
  unfold decodeURIComponent.
  rewrite uri_tokens_bad_escape by now rewrite escape_ok_plus_to_space.
  reflexivity.
Qed.

(** X9.  A percent sign that is not followed by two hexadecimal digits,
    anywhere in the request path, makes [decodeURIComponent] throw inside the
    request handler, which does not catch: no file system call is made and
    nothing is written to the response, in both revisions. *)
Theorem malformed_escape_is_uncaught
    (cfg : Config) (w : World) (s t : jsstring) :
  escape_ok t = false ->
  Streaming.handler cfg w (s ++ c_percent :: t) = [Uncaught URIError]
  /\ V021.handler cfg w (s ++ c_percent :: t) = [Uncaught URIError].
Proof.
  intro Hbad. unfold Streaming.handler, Streaming.serve, V021.handler, V021.serve.
  rewrite (resolve_bad_escape (filesPath cfg) s t Hbad). split; reflexivity.
Qed.

Lemma malformed_escape_is_uncaught_witness :
  Streaming.handler Example.cfg Example.world (js "/a%zz") = [Uncaught URIError]
  /\ V021.handler Example.cfg Example.world (js "/a%zz") = [Uncaught URIError].
Proof.
  apply (malformed_escape_is_uncaught Example.cfg Example.world (js "/a") (js "zz")).
  reflexivity.
Defined.

Lemma uri_tokens_free (s : jsstring) :
  free c_percent s = true -> uri_tokens s = Some (map Lit s).
Proof.
  induction s as [|c s IH]; [reflexivity|].
  rewrite free_cons. intros [Hc Hs]%andb_true_iff.
  apply negb_true_iff in Hc. cbn [uri_tokens map]. rewrite Hc, (IH Hs).
  reflexivity.
Qed.

Lemma utf8_tokens_lit (s : jsstring) : utf8_tokens None (map Lit s) = Some s.
Proof.
  induction s as [|c s IH]; [reflexivity|].
  cbn [map utf8_tokens]. now rewrite IH.
Qed.

Lemma decode_free (s : jsstring) :
  free c_percent s = true -> decodeURIComponent s = Some s.
Proof.
  intro H. unfold decodeURIComponent. rewrite (uri_tokens_free s H).
  apply utf8_tokens_lit.
Qed.

Lemma free_percent_plus_to_space (s : jsstring) :
  free c_percent (plus_to_space s) = free c_percent s.
Proof.
  induction s as [|c s IH]; [reflexivity|].
  cbn [plus_to_space map]. fold (plus_to_space s). rewrite !free_cons, IH.
  destruct (c =? c_plus) eqn:E; [|reflexivity].
  apply N.eqb_eq in E. now subst c.
Qed.

(** X10.  A request path without a percent sign always resolves: every plus
    sign becomes a space, the leading slashes go, and nothing else changes,
    whatever code units the path is made of. *)
Theorem path_without_escape_resolves (root raw : jsstring) :
  free c_percent raw = true ->
  resolve root raw
  = Some (mkContext (strip_slashes (plus_to_space raw))
            (path_join root (strip_slashes (plus_to_space raw)))).
Proof.
  intro H. unfold resolve. rewrite join_split_plus.
  rewrite decode_free by now rewrite free_percent_plus_to_space.
  reflexivity.
Qed.

Lemma path_without_escape_resolves_witness :
  resolve (js "/srv") (js "//mix+up/a.txt")
  = Some (mkContext (js "mix up/a.txt") (js "/srv/mix up/a.txt")).
Proof.
  apply (path_without_escape_resolves (js "/srv") (js "//mix+up/a.txt")).
  reflexivity.
Defined.

(** ** Leading slashes *)

Lemma uri_tokens_slashes (n : nat) (s : jsstring) :
  uri_tokens (repeat c_slash n ++ s)
  = option_map (app (repeat (Lit c_slash) n)) (uri_tokens s).
Proof.
  induction n as [|n IH]; [cbn [repeat app]; now destruct (uri_tokens s)|].
  cbn [repeat app uri_tokens]. change (c_slash =? c_percent) with false.
  cbv iota. rewrite IH. now destruct (uri_tokens s).
Qed.

Lemma utf8_tokens_slashes (n : nat) (ts : list UriTok) :
  utf8_tokens None (repeat (Lit c_slash) n ++ ts)
  = option_map (app (repeat c_slash n)) (utf8_tokens None ts).
Proof.
  induction n as [|n IH];
    [cbn [repeat app]; now destruct (utf8_tokens None ts)|].
  cbn [repeat app utf8_tokens]. rewrite IH.
  now destruct (utf8_tokens None ts).
Qed.

Lemma strip_slashes_repeat (n : nat) (s : jsstring) :
  strip_slashes (repeat c_slash n ++ s) = strip_slashes s.
Proof.
  induction n as [|n IH]; [reflexivity|].
  cbn [repeat app strip_slashes]. now rewrite N.eqb_refl.
Qed.

Lemma plus_to_space_slashes (n : nat) (s : jsstring) :
  plus_to_space (repeat c_slash n ++ s) = repeat c_slash n ++ plus_to_space s.
Proof.
  unfold plus_to_space. rewrite map_app. f_equal.
  induction n as [|n IH]; [reflexivity|]. cbn [repeat map]. now rewrite IH.
Qed.

Lemma resolve_slashes (root : jsstring) (n : nat) (raw : jsstring) :
  resolve root (repeat c_slash n ++ raw) = resolve root raw.
Proof.
  unfold resolve. rewrite !join_split_plus, plus_to_space_slashes.
  unfold decodeURIComponent. rewrite uri_tokens_slashes.
  destruct (uri_tokens (plus_to_space raw)) as [ts|]; [|reflexivity].
  cbn [option_map]. rewrite utf8_tokens_slashes.
  destruct (utf8_tokens None ts) as [decoded|]; [|reflexivity].
  cbn [option_map]. now rewrite strip_slashes_repeat.
Qed.

(** X11.  Slashes in front of the request path change nothing: with any number
    of them the handler makes the same calls, in both revisions. *)
Theorem leading_slashes_are_ignored
    (cfg : Config) (w : World) (n : nat) (raw : jsstring) :
  Streaming.handler cfg w (repeat c_slash n ++ raw) = Streaming.handler cfg w raw
  /\ V021.handler cfg w (repeat c_slash n ++ raw) = V021.handler cfg w raw.
Proof.
  unfold Streaming.handler, Streaming.serve, V021.handler, V021.serve.
  now rewrite resolve_slashes.
Qed.

(** ** Which requests are answered with 404 *)

Lemma streaming_status_when_present
    (cfg : Config) (w : World) (raw : jsstring) (ctx : RequestContext) :
  resolve (filesPath cfg) raw = Some ctx ->
  fs_exists w (fullPath ctx) = true ->
  status_of (Streaming.handler cfg w raw) <> Some 404.
Proof.
  intros Hres Hex.
  destruct (fs_open w (fullPath ctx)) as [fd|] eqn:Hopen.
  2:{ now rewrite (streaming_open_error cfg w raw ctx Hres Hex Hopen). }
  destruct (fs_fstat w fd) as [st|] eqn:Hstat.
  2:{ rewrite (streaming_stat_error cfg w raw ctx Hres fd Hex Hopen)
        by now rewrite Hstat.
      discriminate. }
  destruct (isFile st) eqn:Hfile.
  { rewrite (streaming_file cfg w raw ctx Hres fd st Hex Hopen Hstat Hfile).
    discriminate. }
  destruct (isDirectory st) eqn:Hdir.
  2:{ rewrite (streaming_stat_error cfg w raw ctx Hres fd Hex Hopen)
        by now rewrite Hstat.
      discriminate. }
  destruct (fs_readdir w (fullPath ctx)) as [children|] eqn:Hread.
  2:{ now rewrite (streaming_readdir_error cfg w raw ctx Hres fd st
                     Hex Hopen Hstat Hdir Hread). }
  destruct (forallb (statable w (fullPath ctx)) children) eqn:Hkids.
  - rewrite (streaming_directory cfg w raw ctx Hres fd st children
               Hex Hopen Hstat Hdir Hread Hkids).
    unfold status_of. cbn [app first_head]. rewrite first_head_statEvents.
    discriminate.
  - destruct (streaming_directory_crash cfg w raw ctx Hres fd st children
                Hex Hopen Hstat Hdir Hread Hkids) as [n ->].
    unfold status_of. cbn [app first_head]. rewrite first_head_statEvents.
    discriminate.
Qed.

Lemma v021_status_when_present
    (cfg : Config) (w : World) (raw : jsstring) (ctx : RequestContext) :
  resolve (filesPath cfg) raw = Some ctx ->
  fs_exists w (fullPath ctx) = true ->
  status_of (V021.handler cfg w raw) <> Some 404.
Proof.
  intros Hres Hex.
  destruct (fs_stat w (fullPath ctx)) as [st|] eqn:Hstat.
  2:{ now rewrite (v021_stat_error cfg w raw ctx Hres Hex Hstat). }
  destruct (isFile st) eqn:Hfile.
  { destruct (fs_readFile w (fullPath ctx)) as [data|] eqn:Hread.
    - destruct (v021_file cfg w raw ctx Hres st data Hex Hstat Hfile Hread)
        as [type ->]. discriminate.
    - now rewrite (v021_readFile_error cfg w raw ctx Hres st Hex Hstat Hfile Hread). }
  destruct (isDirectory st) eqn:Hdir.
  2:{ now rewrite (v021_other_inode cfg w raw ctx Hres st Hex Hstat Hfile Hdir). }
  destruct (fs_readdir w (fullPath ctx)) as [children|] eqn:Hread.
  2:{ now rewrite (v021_readdir_error cfg w raw ctx Hres st Hex Hstat Hdir Hread). }
  destruct (forallb (statable w (fullPath ctx)) children) eqn:Hkids.
  - rewrite (v021_directory cfg w raw ctx Hres st children
               Hex Hstat Hdir Hread Hkids).
    unfold status_of. cbn [app first_head]. rewrite first_head_statEvents.
    discriminate.
  - destruct (v021_directory_crash cfg w raw ctx Hres st children
                Hex Hstat Hdir Hread Hkids) as [n ->].
    unfold status_of. cbn [app first_head]. rewrite first_head_statEvents.
    discriminate.
Qed.

(** X12.  Status 404 is the answer exactly when the path decodes and
    [fs.exists] says no, in both revisions: a path that exists but cannot be
    opened, stat-ed or read is never reported as missing. *)
Theorem not_found_iff_missing (cfg : Config) (w : World) (raw : jsstring) :
  (status_of (Streaming.handler cfg w raw) = Some 404
   <-> exists ctx, resolve (filesPath cfg) raw = Some ctx
                   /\ fs_exists w (fullPath ctx) = false)
  /\ (status_of (V021.handler cfg w raw) = Some 404
      <-> exists ctx, resolve (filesPath cfg) raw = Some ctx
                      /\ fs_exists w (fullPath ctx) = false).
Proof.
  split; split.
  - intro H404.
    destruct (resolve (filesPath cfg) raw) as [ctx|] eqn:Hres.
    + exists ctx. split; [reflexivity|].
      destruct (fs_exists w (fullPath ctx)) eqn:Hex; [|reflexivity].
      now destruct (streaming_status_when_present cfg w raw ctx Hres Hex).
    + unfold Streaming.handler, Streaming.serve in H404. rewrite Hres in H404.
      discriminate.
  - intros [ctx [Hres Hex]].
    now rewrite (streaming_not_found cfg w raw ctx Hres Hex).
  - intro H404.
    destruct (resolve (filesPath cfg) raw) as [ctx|] eqn:Hres.
    + exists ctx. split; [reflexivity|].
      destruct (fs_exists w (fullPath ctx)) eqn:Hex; [|reflexivity].
      now destruct (v021_status_when_present cfg w raw ctx Hres Hex).
    + unfold V021.handler, V021.serve in H404. rewrite Hres in H404.
      discriminate.
  - intros [ctx [Hres Hex]].
    now rewrite (v021_not_found cfg w raw ctx Hres Hex).
Qed.

Lemma not_found_iff_missing_witness :
  status_of (Streaming.handler Example.cfg Example.world (js "/missing")) = Some 404
  /\ status_of (V021.handler Example.cfg Example.world (js "/missing")) = Some 404.
Proof.
  destruct (not_found_iff_missing Example.cfg Example.world (js "/missing"))
    as [[_ Hs] [_ Hv]].
  split; [apply Hs|apply Hv];
    exists (mkContext (js "missing") (js "/srv/missing")); split; reflexivity.
Defined.

(** ** Requests that climb out of the root *)

Lemma split_free (sep : N) (s : jsstring) : free sep s = true -> split sep s = [s].
Proof.
  induction s as [|c s IH]; [reflexivity|].
  rewrite free_cons. intros [Hc Hs]%andb_true_iff.
  apply negb_true_iff in Hc. cbn [split]. now rewrite Hc, (IH Hs).
Qed.

Lemma split_app (sep : N) (a b : jsstring) :
  split sep (a ++ sep :: b) = split sep a ++ split sep b.
Proof.
  induction a as [|c a IH].
  - cbn [app split]. now rewrite N.eqb_refl.
  - cbn [app split]. rewrite IH.
    destruct (c =? sep); [reflexivity|].
    pose proof (split_nonempty sep a) as Hne.
    now destruct (split sep a).
Qed.

Lemma segment_nonempty (s : jsstring) : segment s = true -> nonempty s = true.
Proof.
  unfold segment. intro H.
  apply andb_true_iff in H as [H _]. apply andb_true_iff in H as [H _].
  now apply andb_true_iff in H as [H _].
Qed.

Lemma segment_free (s : jsstring) : segment s = true -> free c_slash s = true.
Proof.
  unfold segment. intro H.
  apply andb_true_iff in H as [H _]. apply andb_true_iff in H as [H _].
  now apply andb_true_iff in H as [_ H].
Qed.

Lemma segment_not_dots (s : jsstring) :
  segment s = true -> jseqb s (js ".") = false /\ jseqb s (js "..") = false.
Proof.
  unfold segment. intro H.
  apply andb_true_iff in H as [H H2]. apply andb_true_iff in H as [_ H1].
  split; now apply negb_true_iff.
Qed.

Lemma filter_split_join (segs : list jsstring) :
  forallb (fun s => nonempty s && free c_slash s) segs = true ->
  filter nonempty (split c_slash (join (js "/") segs)) = segs.
Proof.
  induction segs as [|x segs IH]; [reflexivity|].
  cbn [forallb]. intros [Hx Hsegs]%andb_true_iff.
  apply andb_true_iff in Hx as [Hne Hfree].
  destruct segs as [|y segs].
  - cbn [join]. rewrite (split_free _ _ Hfree). cbn [filter]. now rewrite Hne.
  - change (join (js "/") (x :: y :: segs))
      with (x ++ c_slash :: join (js "/") (y :: segs)).
    rewrite split_app, filter_app, (split_free _ _ Hfree), (IH Hsegs).
    cbn [filter]. now rewrite Hne.
Qed.

Lemma normalizeArray_up_segments (parts : list jsstring) :
  forallb segment parts = true -> normalizeArray_up parts = (parts, O).
Proof.
  induction parts as [|p parts IH]; [reflexivity|].
  cbn [forallb]. intros [Hp Hparts]%andb_true_iff.
  cbn [normalizeArray_up]. rewrite (IH Hparts).
  destruct (segment_not_dots p Hp) as [-> ->]. reflexivity.
Qed.

Lemma normalizeArray_up_dots (n : nat) (rest kept : list jsstring) (up : nat) :
  normalizeArray_up rest = (kept, up) ->
  normalizeArray_up (repeat (js "..") n ++ rest) = (kept, (n + up)%nat).
Proof.
  intro H. induction n as [|n IH]; [exact H|].
  cbn [repeat app normalizeArray_up plus]. rewrite IH. reflexivity.
Qed.

Lemma normalizeArray_up_cancel (r rest kept : list jsstring) (up : nat) :
  forallb segment r = true ->
  normalizeArray_up rest = (kept, (List.length r + up)%nat) ->
  normalizeArray_up (r ++ rest) = (kept, up).
Proof.
  revert up. induction r as [|x r IH]; intros up Hr H; [exact H|].
  cbn [forallb] in Hr. apply andb_true_iff in Hr as [Hx Hr].
  cbn [app normalizeArray_up].
  rewrite (IH (S up) Hr)
    by (rewrite H; f_equal; cbn [List.length]; symmetry; apply Nat.add_succ_r).
  destruct (segment_not_dots x Hx) as [-> ->]. reflexivity.
Qed.

Lemma free_join (c : N) (sep : jsstring) (segs : list jsstring) :
  free c sep = true -> forallb (free c) segs = true ->
  free c (join sep segs) = true.
Proof.
  intros Hsep. induction segs as [|x segs IH]; [reflexivity|].
  cbn [forallb]. intros [Hx Hsegs]%andb_true_iff.
  destruct segs as [|y segs]; [exact Hx|].
  change (join sep (x :: y :: segs)) with (x ++ sep ++ join sep (y :: segs)).
  now rewrite !free_app, Hx, Hsep, (IH Hsegs).
Qed.

Lemma plus_to_space_free (s : jsstring) :
  free c_plus s = true -> plus_to_space s = s.
Proof.
  induction s as [|c s IH]; [reflexivity|].
  rewrite free_cons. intros [Hc Hs]%andb_true_iff.
  apply negb_true_iff in Hc. cbn [plus_to_space map]. fold (plus_to_space s).
  now rewrite Hc, (IH Hs).
Qed.

Lemma join_last_unit (segs : list jsstring) :
  segs <> [] ->
  forallb (fun s => nonempty s && free c_slash s) segs = true ->
  exists q c, join (js "/") segs = q ++ [c] /\ (c =? c_slash) = false.
Proof.
  induction segs as [|x segs IH]; [congruence|].
  intros _. cbn [forallb]. intros [Hx Hsegs]%andb_true_iff.
  destruct segs as [|y segs].
  - apply andb_true_iff in Hx as [Hne Hfree]. cbn [join].
    destruct (exists_last (l := x)) as [q [c ->]].
    { intros ->. discriminate. }
    exists q, c. split; [reflexivity|].
    rewrite free_app in Hfree. apply andb_true_iff in Hfree as [_ Hc].
    cbn in Hc. rewrite andb_true_r in Hc. now apply negb_true_iff.
  - destruct (IH ltac:(discriminate) Hsegs) as [q [c [Hq Hc]]].
    exists (x ++ js "/" ++ q), c. split; [|exact Hc].
    change (join (js "/") (x :: y :: segs))
      with (x ++ js "/" ++ join (js "/") (y :: segs)).
    now rewrite Hq, <- !app_assoc.
Qed.

Lemma join_head (segs : list jsstring) :
  segs <> [] ->
  forallb (fun s => nonempty s && free c_slash s) segs = true ->
  exists c r, join (js "/") segs = c :: r /\ (c =? c_slash) = false.
Proof.
  destruct segs as [|x segs]; [congruence|].
  intros _. cbn [forallb]. intros [Hx _]%andb_true_iff.
  apply andb_true_iff in Hx as [Hne Hfree].
  destruct x as [|c x]; [discriminate|].
  rewrite free_cons in Hfree. apply andb_true_iff in Hfree as [Hc _].
  apply negb_true_iff in Hc.
  destruct segs as [|y segs].
  - now exists c, x.
  - now exists c, (x ++ js "/" ++ join (js "/") (y :: segs)).
Qed.

Lemma simple_of_segment (segs : list jsstring) :
  forallb segment segs = true ->
  forallb (fun s => nonempty s && free c_slash s) segs = true.
Proof.
  intro H. rewrite forallb_forall in *. intros s Hs.
  now rewrite (segment_nonempty s (H s Hs)), (segment_free s (H s Hs)).
Qed.

Lemma simple_dots (n : nat) :
  forallb (fun s => nonempty s && free c_slash s) (repeat (js "..") n) = true.
Proof. induction n; [reflexivity|exact IHn]. Qed.

(** Normalising an absolute path whose components are [root], then as many
    [..] as [root] has components, then [target]. *)
Lemma normalize_climb (rootsegs target : list jsstring) :
  forallb segment rootsegs = true ->
  forallb segment target = true ->
  target <> [] ->
  normalize ((js "/" ++ join (js "/") rootsegs) ++ js "/"
             ++ join (js "/") (repeat (js "..") (List.length rootsegs) ++ target))
  = js "/" ++ join (js "/") target.
Proof.
  intros Hroot Htarget Hne.
  set (R := join (js "/") rootsegs).
  set (J := join (js "/") (repeat (js "..") (List.length rootsegs) ++ target)).
  assert (Hsimple : forallb (fun s => nonempty s && free c_slash s)
                      (repeat (js "..") (List.length rootsegs) ++ target) = true).
  { rewrite forallb_app, simple_dots. now apply simple_of_segment. }
  assert (Hne' : repeat (js "..") (List.length rootsegs) ++ target <> []).
  { intros [_ H]%app_eq_nil. contradiction. }
  destruct (join_last_unit _ Hne' Hsimple) as [q [c [HJ Hc]]]. fold J in HJ.
  unfold normalize.
  change ((js "/" ++ R) ++ js "/" ++ J) with (c_slash :: (R ++ c_slash :: J)).
  cbn [negb]. rewrite N.eqb_refl.
  replace (rev (c_slash :: R ++ c_slash :: J))
    with (c :: rev (c_slash :: R ++ [c_slash] ++ q)).
  2:{ rewrite HJ.
      change (c_slash :: R ++ c_slash :: q ++ [c])
        with ((c_slash :: R ++ [c_slash] ++ q ++ [c])).
      replace (c_slash :: R ++ [c_slash] ++ q ++ [c])
        with ((c_slash :: R ++ [c_slash] ++ q) ++ [c])
        by (cbn [app]; now rewrite <- !app_assoc).
      now rewrite rev_app_distr. }
  rewrite Hc, !andb_false_r.
  cbn [split]. rewrite N.eqb_refl. cbn [filter nonempty].
  rewrite split_app, filter_app.
  unfold R, J.
  rewrite (filter_split_join rootsegs (simple_of_segment _ Hroot)).
  rewrite (filter_split_join _ Hsimple).
  unfold normalizeArray.
  rewrite (normalizeArray_up_cancel rootsegs _ target O Hroot).
  2:{ rewrite (normalizeArray_up_dots _ target target O)
        by now apply normalizeArray_up_segments.
      reflexivity. }
  cbn [andb]. reflexivity.
Qed.

Lemma starts_with_eq (p a : jsstring) :
  starts_with p a = true -> a = p ++ skipn (List.length p) a.
Proof.
  revert a; induction p as [|x p IH]; intros [|y a] H; try reflexivity;
    try discriminate.
  cbn [starts_with] in H. apply andb_true_iff in H as [Hxy H].
  apply N.eqb_eq in Hxy. subst y. cbn [List.length skipn app]. f_equal.
  now apply IH.
Qed.

Lemma split_join (segs : list jsstring) :
  segs <> [] ->
  forallb (free c_slash) segs = true ->
  split c_slash (join (js "/") segs) = segs.
Proof.
  induction segs as [|x segs IH]; [congruence|].
  intros _. cbn [forallb]. intros [Hx Hsegs]%andb_true_iff.
  destruct segs as [|y segs].
  - cbn [join]. now apply split_free.
  - change (join (js "/") (x :: y :: segs))
      with (x ++ c_slash :: join (js "/") (y :: segs)).
    rewrite split_app, (split_free _ _ Hx), IH; [reflexivity|discriminate|exact Hsegs].
Qed.

Lemma free_of_segment (segs : list jsstring) :
  forallb segment segs = true -> forallb (free c_slash) segs = true.
Proof.
  intro H. rewrite forallb_forall in *. intros s Hs.
  apply segment_free. now apply H.
Qed.

(** A path made of the components [target] that is the path made of
    [rootsegs], or goes on from it after a slash, has [rootsegs] as its
    first components. *)
Lemma below_root_components (rootsegs target : list jsstring) :
  forallb segment rootsegs = true ->
  forallb segment target = true ->
  rootsegs <> [] ->
  target <> [] ->
  js "/" ++ join (js "/") target = js "/" ++ join (js "/") rootsegs
  \/ starts_with ((js "/" ++ join (js "/") rootsegs) ++ js "/")
       (js "/" ++ join (js "/") target) = true ->
  firstn (List.length rootsegs) target = rootsegs.
Proof.
  intros Hroot Htarget Hr Ht [Heq | Hbelow].
  - injection Heq as Heq.
    apply (f_equal (split c_slash)) in Heq.
    rewrite (split_join target Ht (free_of_segment _ Htarget)) in Heq.
    rewrite (split_join rootsegs Hr (free_of_segment _ Hroot)) in Heq.
    subst target. apply firstn_all.
  - apply starts_with_eq in Hbelow.
    set (rest := skipn _ _) in Hbelow.
    rewrite <- !app_assoc in Hbelow. injection Hbelow as Hbelow.
    change (js "/" ++ rest) with (c_slash :: rest) in Hbelow.
    apply (f_equal (split c_slash)) in Hbelow.
    rewrite (split_app c_slash) in Hbelow.
    rewrite (split_join target Ht (free_of_segment _ Htarget)) in Hbelow.
    rewrite (split_join rootsegs Hr (free_of_segment _ Hroot)) in Hbelow.
    rewrite Hbelow, firstn_app, firstn_all, Nat.sub_diag. cbn [firstn].
    apply app_nil_r.
Qed.

Lemma first_event (e : Event) (m : IO unit) : hd_error (run (emit e ;; m)) = Some e.
Proof. destruct m as [t [a|x]]; reflexivity. Qed.

(** X13.  The handler joins the decoded path to the root and does not check
    the result.  For a root [/r1/.../rn], a request path that climbs with n
    components [..] and goes on with the components [target] resolves to the
    path [target] counted from the top of the file system.  Unless [target]
    itself begins with the components of the root, that path is neither the
    root nor a path below it, and it is the path both revisions ask the file
    system about. *)
Theorem request_can_leave_the_root
    (rootsegs target : list jsstring) (cfg : Config) (w : World) :
  forallb segment rootsegs = true ->
  forallb segment target = true ->
  forallb unescaped target = true ->
  target <> [] ->
  firstn (List.length rootsegs) target <> rootsegs ->
  filesPath cfg = js "/" ++ join (js "/") rootsegs ->
  let climb := join (js "/") (repeat (js "..") (List.length rootsegs) ++ target) in
  let full := js "/" ++ join (js "/") target in
  resolve (filesPath cfg) (js "/" ++ climb) = Some (mkContext climb full)
  /\ full <> filesPath cfg
  /\ starts_with (filesPath cfg ++ js "/") full = false
  /\ hd_error (Streaming.handler cfg w (js "/" ++ climb)) = Some (FsExists full)
  /\ hd_error (V021.handler cfg w (js "/" ++ climb)) = Some (FsExists full).
Proof.
  intros Hroot Htarget Hplain Hne Hout Hcfg climb full.
  assert (Hr : rootsegs <> []) by (intros ->; now apply Hout).
  assert (Hres : resolve (filesPath cfg) (js "/" ++ climb)
                 = Some (mkContext climb full)).
  { rewrite Hcfg.
    assert (Hsimple : forallb (fun s => nonempty s && free c_slash s)
                        (repeat (js "..") (List.length rootsegs) ++ target) = true).
    { rewrite forallb_app, simple_dots. now apply simple_of_segment. }
    assert (Hne' : repeat (js "..") (List.length rootsegs) ++ target <> []).
    { intros [_ H]%app_eq_nil. contradiction. }
    assert (Hfree : forall c, free c (js "/") = true -> free c (js "..") = true ->
                      forallb (free c) target = true ->
                      free c (js "/" ++ climb) = true).
    { intros c Hs Hd Ht. rewrite free_app, Hs. cbn [andb].
      apply free_join; [exact Hs|]. rewrite forallb_app, Ht, andb_true_r.
      clear -Hd. induction (List.length rootsegs); [reflexivity|].
      cbn [repeat forallb]. now rewrite Hd. }
    assert (Hpercent : forallb (free c_percent) target = true
                       /\ forallb (free c_plus) target = true).
    { split; rewrite forallb_forall in *; intros s Hs;
        specialize (Hplain s Hs); unfold unescaped in Hplain;
        now apply andb_true_iff in Hplain. }
    destruct Hpercent as [Hpercent Hplus].
    unfold resolve. rewrite join_split_plus.
    rewrite (plus_to_space_free (js "/" ++ climb))
      by (apply Hfree; [reflexivity|reflexivity|exact Hplus]).
    rewrite decode_free by (apply Hfree; [reflexivity|reflexivity|exact Hpercent]).
    destruct (join_head _ Hne' Hsimple) as [c [r [Hclimb Hc]]].
    fold climb in Hclimb.
    assert (Hstrip : strip_slashes (js "/" ++ climb) = climb).
    { change (js "/" ++ climb) with (c_slash :: climb). cbn [strip_slashes].
      rewrite N.eqb_refl, Hclimb. cbn [strip_slashes]. now rewrite Hc. }
    rewrite Hstrip. f_equal. f_equal.
    unfold path_join. cbn [filter].
    change (nonempty (js "/" ++ join (js "/") rootsegs)) with true. cbv iota.
    rewrite Hclimb. cbn [nonempty]. rewrite <- Hclimb.
    cbn [join]. unfold climb. now apply normalize_climb. }
  split; [exact Hres|]. split; [|split].
  - intro Heq. apply Hout.
    apply (below_root_components rootsegs target Hroot Htarget Hr Hne).
    left. unfold full in Heq. now rewrite Heq, Hcfg.
  - destruct (starts_with (filesPath cfg ++ js "/") full) eqn:Hbelow;
      [|reflexivity].
    destruct Hout.
    apply (below_root_components rootsegs target Hroot Htarget Hr Hne).
    right. rewrite <- Hcfg. exact Hbelow.
  - unfold Streaming.handler, Streaming.serve, V021.handler, V021.serve.
    rewrite Hres. cbn [fullPath]. split; apply first_event.
Qed.

Lemma request_can_leave_the_root_witness :
  resolve (js "/srv") (js "/../etc/passwd")
  = Some (mkContext (js "../etc/passwd") (js "/etc/passwd"))
  /\ js "/etc/passwd" <> js "/srv"
  /\ starts_with (js "/srv/") (js "/etc/passwd") = false
  /\ hd_error (Streaming.handler Example.cfg Example.world (js "/../etc/passwd"))
     = Some (FsExists (js "/etc/passwd"))
  /\ hd_error (V021.handler Example.cfg Example.world (js "/../etc/passwd"))
     = Some (FsExists (js "/etc/passwd")).
Proof.
  apply (request_can_leave_the_root [js "srv"] [js "etc"; js "passwd"]
           Example.cfg Example.world); try reflexivity; discriminate.
Defined.

(** ** Error responses *)

(** X14.  When the path exists but [fs.open] fails, or [fs.fstat] fails, or
    the inode is neither a regular file nor a directory, the streaming
    revision answers once, with status 500, a plain-text content type and the
    message [Cannot open this path.]. *)
Theorem streaming_cannot_open
    (cfg : Config) (w : World) (raw : jsstring) (ctx : RequestContext) :
  resolve (filesPath cfg) raw = Some ctx ->
  fs_exists w (fullPath ctx) = true ->
  match fs_open w (fullPath ctx) with
  | None => True
  | Some fd =>
      match fs_fstat w fd with
      | None => True
      | Some st => isFile st = false /\ isDirectory st = false
      end
  end ->
  res_events (Streaming.handler cfg w raw)
  = [ResWriteHead 500 textPlain;
     ResEnd (Text (js "Error 500. Cannot open this path."))]
  /\ body_of (Streaming.handler cfg w raw) = js "Error 500. Cannot open this path.".
Proof.
  intros Hres Hex Hfail.
  destruct (fs_open w (fullPath ctx)) as [fd|] eqn:Hopen.
  - rewrite (streaming_stat_error cfg w raw ctx Hres fd Hex Hopen Hfail).
    split; reflexivity.
  - rewrite (streaming_open_error cfg w raw ctx Hres Hex Hopen).
    split; reflexivity.
Qed.

Lemma streaming_cannot_open_witness :
  (res_events (Streaming.handler Example.cfg Example.world (js "/mix/pipe"))
   = [ResWriteHead 500 textPlain;
      ResEnd (Text (js "Error 500. Cannot open this path."))]
   /\ body_of (Streaming.handler Example.cfg Example.world (js "/mix/pipe"))
      = js "Error 500. Cannot open this path.")
  /\ (res_events
        (Streaming.handler Example.cfg (Faults.exhausted Example.world) (js "/a.txt"))
      = [ResWriteHead 500 textPlain;
         ResEnd (Text (js "Error 500. Cannot open this path."))]
      /\ body_of
           (Streaming.handler Example.cfg (Faults.exhausted Example.world)
              (js "/a.txt"))
         = js "Error 500. Cannot open this path.").
Proof.
  split.
  - apply (streaming_cannot_open Example.cfg Example.world (js "/mix/pipe")
             (mkContext (js "mix/pipe") (js "/srv/mix/pipe")));
      [reflexivity|reflexivity|].
    vm_compute. split; reflexivity.
  - apply (streaming_cannot_open Example.cfg (Faults.exhausted Example.world)
             (js "/a.txt") (mkContext (js "a.txt") (js "/srv/a.txt")));
      [reflexivity|reflexivity|exact I].
Defined.

(** X15.  When [fs.readdir] fails on a directory, the streaming revision
    answers once, with status 500 and the message [Cannot read directory.]; no
    child is stat-ed. *)
Theorem streaming_unreadable_directory
    (cfg : Config) (w : World) (raw : jsstring) (ctx : RequestContext)
    (fd : N) (st : Stats) :
  resolve (filesPath cfg) raw = Some ctx ->
  fs_exists w (fullPath ctx) = true ->
  fs_open w (fullPath ctx) = Some fd ->
  fs_fstat w fd = Some st ->
  isDirectory st = true ->
  fs_readdir w (fullPath ctx) = None ->
  Streaming.handler cfg w raw
  = [FsExists (fullPath ctx); FsOpen (fullPath ctx) (Some fd); FsFstat fd;
     FsReaddir (fullPath ctx); ResWriteHead 500 textPlain;
     ResEnd (Text (js "Error 500. Cannot read directory."))].
Proof.
  intros Hres Hex Hopen Hstat Hdir Hread.
  now rewrite (streaming_readdir_error cfg w raw ctx Hres fd st
                 Hex Hopen Hstat Hdir Hread).
Qed.

Lemma streaming_unreadable_directory_witness :
  Streaming.handler Example.cfg (Faults.unreadable Example.world) (js "/mix")
  = [FsExists (js "/srv/mix"); FsOpen (js "/srv/mix") (Some 15); FsFstat 15;
     FsReaddir (js "/srv/mix"); ResWriteHead 500 textPlain;
     ResEnd (Text (js "Error 500. Cannot read directory."))].
Proof.
  apply (streaming_unreadable_directory Example.cfg (Faults.unreadable Example.world)
           (js "/mix") (mkContext (js "mix") (js "/srv/mix")) 15
           (mkStats S_IFDIR 4096)); reflexivity.
Defined.

(** X16.  Version 0.2.1 does not look at the error of [fs.stat]: when the call
    fails after [fs.exists] said yes, [stat] is undefined, the method call on
    it throws, and the request ends without a response. *)
Theorem v021_stat_failure_is_uncaught
    (cfg : Config) (w : World) (raw : jsstring) (ctx : RequestContext) :
  resolve (filesPath cfg) raw = Some ctx ->
  fs_exists w (fullPath ctx) = true ->
  fs_stat w (fullPath ctx) = None ->
  V021.handler cfg w raw
  = [FsExists (fullPath ctx); FsStat (fullPath ctx); Uncaught TypeError]
  /\ status_of (V021.handler cfg w raw) = None
  /\ body_of (V021.handler cfg w raw) = [].
Proof.
  intros Hres Hex Hstat.
  rewrite (v021_stat_error cfg w raw ctx Hres Hex Hstat). repeat split.
Qed.

Lemma v021_stat_failure_is_uncaught_witness :
  V021.handler Example.cfg (Faults.vanishing Example.world) (js "/a.txt")
  = [FsExists (js "/srv/a.txt"); FsStat (js "/srv/a.txt"); Uncaught TypeError]
  /\ status_of (V021.handler Example.cfg (Faults.vanishing Example.world) (js "/a.txt"))
     = None
  /\ body_of (V021.handler Example.cfg (Faults.vanishing Example.world) (js "/a.txt"))
     = [].
Proof.
  apply (v021_stat_failure_is_uncaught Example.cfg (Faults.vanishing Example.world)
           (js "/a.txt") (mkContext (js "a.txt") (js "/srv/a.txt"))); reflexivity.
Defined.

(** X17.  The three error responses of version 0.2.1 for a path that can be
    stat-ed: [Unknown type of inode.] for what is neither file nor directory,
    [Can't open the file.] when [fs.readFile] fails and [Can't read dir.] when
    [fs.readdir] fails, each with status 500. *)
Theorem v021_error_responses
    (cfg : Config) (w : World) (raw : jsstring) (ctx : RequestContext) (st : Stats) :
  resolve (filesPath cfg) raw = Some ctx ->
  fs_exists w (fullPath ctx) = true ->
  fs_stat w (fullPath ctx) = Some st ->
  (isFile st = false -> isDirectory st = false ->
   V021.handler cfg w raw
   = [FsExists (fullPath ctx); FsStat (fullPath ctx); ResWriteHead 500 textPlain;
      ResEnd (Text (js "Error 500. Unknown type of inode."))])
  /\ (isFile st = true -> fs_readFile w (fullPath ctx) = None ->
      V021.handler cfg w raw
      = [FsExists (fullPath ctx); FsStat (fullPath ctx); FsReadFile (fullPath ctx);
         ResWriteHead 500 textPlain;
         ResEnd (Text (js "Error 500. Can't open the file."))])
  /\ (isDirectory st = true -> fs_readdir w (fullPath ctx) = None ->
      V021.handler cfg w raw
      = [FsExists (fullPath ctx); FsStat (fullPath ctx); FsReaddir (fullPath ctx);
         ResWriteHead 500 textPlain;
         ResEnd (Text (js "Error 500. Can't read dir."))]).
Proof.
  intros Hres Hex Hstat. repeat split.
  - intros Hfile Hdir.
    now rewrite (v021_other_inode cfg w raw ctx Hres st Hex Hstat Hfile Hdir).
  - intros Hfile Hread.
    now rewrite (v021_readFile_error cfg w raw ctx Hres st Hex Hstat Hfile Hread).
  - intros Hdir Hread.
    now rewrite (v021_readdir_error cfg w raw ctx Hres st Hex Hstat Hdir Hread).
Qed.

Lemma v021_error_responses_witness :
  V021.handler Example.cfg Example.world (js "/mix/pipe")
  = [FsExists (js "/srv/mix/pipe"); FsStat (js "/srv/mix/pipe");
     ResWriteHead 500 textPlain;
     ResEnd (Text (js "Error 500. Unknown type of inode."))]
  /\ V021.handler Example.cfg (Faults.unreadable Example.world) (js "/a.txt")
     = [FsExists (js "/srv/a.txt"); FsStat (js "/srv/a.txt");
        FsReadFile (js "/srv/a.txt"); ResWriteHead 500 textPlain;
        ResEnd (Text (js "Error 500. Can't open the file."))]
  /\ V021.handler Example.cfg (Faults.unreadable Example.world) (js "/mix")
     = [FsExists (js "/srv/mix"); FsStat (js "/srv/mix"); FsReaddir (js "/srv/mix");
        ResWriteHead 500 textPlain;
        ResEnd (Text (js "Error 500. Can't read dir."))].
Proof.
  split; [|split].
  - apply (v021_error_responses Example.cfg Example.world (js "/mix/pipe")
             (mkContext (js "mix/pipe") (js "/srv/mix/pipe")) (mkStats S_IFIFO 0));
      reflexivity.
  - apply (v021_error_responses Example.cfg (Faults.unreadable Example.world)
             (js "/a.txt") (mkContext (js "a.txt") (js "/srv/a.txt"))
             (mkStats S_IFREG 2)); reflexivity.
  - apply (v021_error_responses Example.cfg (Faults.unreadable Example.world)
             (js "/mix") (mkContext (js "mix") (js "/srv/mix"))
             (mkStats S_IFDIR 4096)); reflexivity.
Defined.

(** * Properties of the start-up code *)

(** ** The argument loop *)

Lemma option_value_some (p a v : jsstring) :
  Startup.option_value p a = Some v -> a = p ++ v /\ value_ok v = true.
Proof.
  unfold Startup.option_value, value_ok.
  destruct (starts_with p a) eqn:Hp; [|discriminate]. cbn [andb].
  destruct (nonempty (skipn (List.length p) a)
            && forallb (fun c => negb (Startup.is_line_terminator c))
                 (skipn (List.length p) a)) eqn:Hv; [|discriminate].
  intros [= <-]. split; [now apply starts_with_eq|exact Hv].
Qed.

Lemma option_value_app (p v : jsstring) :
  Startup.option_value p (p ++ v) = if value_ok v then Some v else None.
Proof.
  unfold Startup.option_value, value_ok.
  rewrite starts_with_app, skipn_length_app. cbn [andb]. reflexivity.
Qed.

Lemma option_value_none (p a : jsstring) :
  starts_with p a = false -> Startup.option_value p a = None.
Proof. unfold Startup.option_value. now intros ->. Qed.

(** What an argument that lets the loop go on has done. *)
Lemma loopBody_done (k : bool) (x : jsstring) (st st' : Startup.Settings) :
  Startup.loopBody k x st = Startup.Done st' ->
  (exists v, x = js "--path=" ++ v /\ value_ok v = true
             /\ st' = match Startup.filesPath st with
                      | None =>
                          Startup.mkSettings (Startup.host st) (Startup.port st)
                            (Some v) (Startup.browse st) (Startup.debug st)
                            (Startup.noCache st)
                      | Some _ => st
                      end)
  \/ (exists v, x = js "--host=" ++ v /\ value_ok v = true
                /\ st' = Startup.mkSettings
                           (if jseqb v (js "*") then None else Some v)
                           (Startup.port st) (Startup.filesPath st)
                           (Startup.browse st) (Startup.debug st)
                           (Startup.noCache st))
  \/ (exists v, x = js "--port=" ++ v /\ value_ok v = true
                /\ st' = Startup.mkSettings (Startup.host st)
                           (Startup.PortText v) (Startup.filesPath st)
                           (Startup.browse st) (Startup.debug st)
                           (Startup.noCache st))
  \/ (x = js "--browse"
      /\ st' = Startup.mkSettings (Startup.host st) (Startup.port st)
                 (Startup.filesPath st) true (Startup.debug st)
                 (Startup.noCache st))
  \/ (x = js "--debug"
      /\ st' = Startup.mkSettings (Startup.host st) (Startup.port st)
                 (Startup.filesPath st) (Startup.browse st) true
                 (Startup.noCache st))
  \/ (k = true /\ x = js "--no-cache"
      /\ st' = Startup.mkSettings (Startup.host st) (Startup.port st)
                 (Startup.filesPath st) (Startup.browse st) (Startup.debug st)
                 true).
Proof.
  unfold Startup.loopBody.
  destruct (jseqb x (js "--help")); [discriminate|].
  destruct (Startup.option_value (js "--path=") x) as [v|] eqn:Epath.
  { intros [= <-]. left. exists v.
    destruct (option_value_some _ _ _ Epath) as [-> Hv]. now repeat split. }
  destruct (Startup.option_value (js "--host=") x) as [v|] eqn:Ehost.
  { intros [= <-]. right; left. exists v.
    destruct (option_value_some _ _ _ Ehost) as [-> Hv]. now repeat split. }
  destruct (Startup.option_value (js "--port=") x) as [v|] eqn:Eport.
  { intros [= <-]. right; right; left. exists v.
    destruct (option_value_some _ _ _ Eport) as [-> Hv]. now repeat split. }
  destruct (jseqb x (js "--browse")) eqn:Eb.
  { intros [= <-]. apply jseqb_eq in Eb. right; right; right; left. now split. }
  destruct (jseqb x (js "--debug")) eqn:Ed.
  { intros [= <-]. apply jseqb_eq in Ed. right; right; right; right; left.
    now split. }
  destruct (k && jseqb x (js "--no-cache")) eqn:En; [|discriminate].
  apply andb_true_iff in En as [-> En]. apply jseqb_eq in En.
  intros [= <-]. right; right; right; right; right. now repeat split.
Qed.

Lemma loopBody_path (k : bool) (v : jsstring) (st : Startup.Settings) :
  value_ok v = true ->
  Startup.loopBody k (js "--path=" ++ v) st
  = Startup.Done
      match Startup.filesPath st with
      | None =>
          Startup.mkSettings (Startup.host st) (Startup.port st) (Some v)
            (Startup.browse st) (Startup.debug st) (Startup.noCache st)
      | Some _ => st
      end.
Proof.
  intro Hv. unfold Startup.loopBody.
  change (jseqb (js "--path=" ++ v) (js "--help")) with false. cbv iota.
  now rewrite option_value_app, Hv.
Qed.

Lemma loopBody_host (k : bool) (v : jsstring) (st : Startup.Settings) :
  value_ok v = true ->
  Startup.loopBody k (js "--host=" ++ v) st
  = Startup.Done
      (Startup.mkSettings (if jseqb v (js "*") then None else Some v)
         (Startup.port st) (Startup.filesPath st) (Startup.browse st)
         (Startup.debug st) (Startup.noCache st)).
Proof.
  intro Hv. unfold Startup.loopBody.
  change (jseqb (js "--host=" ++ v) (js "--help")) with false. cbv iota.
  rewrite (option_value_none (js "--path=")) by reflexivity.
  now rewrite option_value_app, Hv.
Qed.

Lemma parseArgs_app (k : bool) (a b : list jsstring) (st : Startup.Settings) :
  Startup.parseArgs k (a ++ b) st
  = match Startup.parseArgs k a st with
    | Startup.Done st1 => Startup.parseArgs k b st1
    | Startup.Exit code out => Startup.Exit code out
    end.
Proof.
  revert st; induction a as [|x a IH]; intro st; [reflexivity|].
  cbn [app Startup.parseArgs].
  destruct (Startup.loopBody k x st); [apply IH|reflexivity].
Qed.

(** What every round keeps, the whole loop keeps. *)
Lemma parseArgs_invariant (k : bool) (P : Startup.Settings -> Prop)
    (ok : jsstring -> Prop) :
  (forall x st st', ok x -> P st -> Startup.loopBody k x st = Startup.Done st' ->
                    P st') ->
  forall args st st',
    (forall x, In x args -> ok x) -> P st ->
    Startup.parseArgs k args st = Startup.Done st' -> P st'.
Proof.
  intros Hstep args. induction args as [|x args IH]; intros st st' Hok HP H.
  - injection H as <-. exact HP.
  - cbn [Startup.parseArgs] in H.
    destruct (Startup.loopBody k x st) as [st1|] eqn:E; [|discriminate].
    apply (IH st1 st'); [intros y Hy; apply Hok; now right| |exact H].
    apply (Hstep x st st1); [apply Hok; now left|exact HP|exact E].
Qed.

Lemma path_stays_unset (k : bool) (args : list jsstring)
    (st st' : Startup.Settings) :
  (forall x, In x args -> starts_with (js "--path=") x = false) ->
  Startup.filesPath st = None ->
  Startup.parseArgs k args st = Startup.Done st' ->
  Startup.filesPath st' = None.
Proof.
  apply (parseArgs_invariant k (fun st => Startup.filesPath st = None)
           (fun x => starts_with (js "--path=") x = false)).
  clear. intros x st st' Hx Hst Hbody.
  destruct (loopBody_done k x st st' Hbody)
    as [[v [-> _]] | [[v [_ [_ ->]]] | [[v [_ [_ ->]]] | [[_ ->] | [[_ ->] | [_ [_ ->]]]]]]];
    try exact Hst.
  rewrite starts_with_app in Hx. discriminate.
Qed.

Lemma path_stays_set (k : bool) (p : jsstring) (args : list jsstring)
    (st st' : Startup.Settings) :
  Startup.filesPath st = Some p ->
  Startup.parseArgs k args st = Startup.Done st' ->
  Startup.filesPath st' = Some p.
Proof.
  intros Hst H.
  apply (parseArgs_invariant k (fun st => Startup.filesPath st = Some p)
           (fun _ => True)) with (args := args) (st := st); auto.
  clear. intros x st st' _ Hst Hbody.
  destruct (loopBody_done k x st st' Hbody)
    as [[v [_ [_ ->]]] | [[v [_ [_ ->]]] | [[v [_ [_ ->]]] | [[_ ->] | [[_ ->] | [_ [_ ->]]]]]]];
    try exact Hst.
  now rewrite Hst.
Qed.

(** X18.  Only the first [--path=] counts: the loop assigns [filesPath] while
    it is still [null], so a later [--path=] changes nothing; the server then
    serves that path, expanded, and prints no warning. *)
Theorem first_path_wins
    (k : bool) (env : Startup.Env) (pre : list jsstring) (v : jsstring)
    (rest : list jsstring) (s : Startup.Started) :
  (forall x, In x pre -> starts_with (js "--path=") x = false) ->
  value_ok v = true ->
  Startup.argv env = pre ++ (js "--path=" ++ v) :: rest ->
  Startup.main k env = inl s ->
  Startup.filesPath (Startup.settings s) = Some v
  /\ Startup.root s = Startup.expandPath env v
  /\ forall text, ~ In (Startup.Warn text) (Startup.outputs s).
Proof.
  intros Hpre Hv Hargv H. unfold Startup.main in H. rewrite Hargv in H.
  destruct (Startup.parseArgs k (pre ++ (js "--path=" ++ v) :: rest)
              Startup.defaults) as [st'|] eqn:E; [|discriminate].
  assert (Hpath : Startup.filesPath st' = Some v).
  { rewrite parseArgs_app in E.
    destruct (Startup.parseArgs k pre Startup.defaults) as [st1|] eqn:E1;
      [|discriminate].
    pose proof (path_stays_unset k pre Startup.defaults st1 Hpre eq_refl E1)
      as Hnone.
    cbn [Startup.parseArgs] in E.
    rewrite (loopBody_path k v st1 Hv), Hnone in E.
    now apply (path_stays_set k v rest) in E. }
  rewrite Hpath in H. injection H as <-.
  cbn [Startup.settings Startup.root Startup.outputs app].
  repeat split; [exact Hpath|].
  intros text [Hin | Hin]; [discriminate|].
  destruct (Startup.listens env (Startup.port st') (Startup.host st'));
    [|exact Hin].
  unfold Startup.onListening in Hin. destruct Hin as [Hin | Hin]; [discriminate|].
  destruct (Startup.browse st'); [|exact Hin].
  destruct Hin as [Hin | [Hin | []]]; discriminate.
Qed.

Lemma first_path_wins_witness :
  exists s,
    Startup.main false
      (Startup.mkEnv [js "--browse"; js "--path=/a"; js "--path=/b"] (js "/work")
         None listen_ok)
    = inl s
    /\ Startup.filesPath (Startup.settings s) = Some (js "/a")
    /\ Startup.root s = js "/a".
Proof.
  eexists. split; [reflexivity|].
  destruct (first_path_wins false
              (Startup.mkEnv [js "--browse"; js "--path=/a"; js "--path=/b"]
                 (js "/work") None listen_ok)
              [js "--browse"] (js "/a") [js "--path=/b"] _
              ltac:(intros x [<- | []]; reflexivity) eq_refl eq_refl eq_refl)
    as [Hpath [Hroot _]].
  split; [exact Hpath|exact Hroot].
Defined.

Lemma host_stays (k : bool) (args : list jsstring) (st st' : Startup.Settings) :
  (forall x, In x args -> starts_with (js "--host=") x = false) ->
  Startup.parseArgs k args st = Startup.Done st' ->
  Startup.host st' = Startup.host st.
Proof.
  intros Hargs H.
  apply (parseArgs_invariant k (fun s => Startup.host s = Startup.host st)
           (fun x => starts_with (js "--host=") x = false))
    with (args := args) (st := st); auto.
  clear. intros x st1 st' Hx Hst Hbody.
  destruct (loopBody_done k x st1 st' Hbody)
    as [[v [_ [_ ->]]] | [[v [-> _]] | [[v [_ [_ ->]]] | [[_ ->] | [[_ ->] | [_ [_ ->]]]]]]];
    try exact Hst.
  - now destruct (Startup.filesPath st1).
  - rewrite starts_with_app in Hx. discriminate.
Qed.

(** X19.  The last [--host=] counts, and the value [*] stands for [null],
    which makes the server listen on every address. *)
Theorem last_host_wins
    (k : bool) (pre : list jsstring) (v : jsstring) (rest : list jsstring)
    (st st' : Startup.Settings) :
  value_ok v = true ->
  (forall x, In x rest -> starts_with (js "--host=") x = false) ->
  Startup.parseArgs k (pre ++ (js "--host=" ++ v) :: rest) st = Startup.Done st' ->
  Startup.host st' = if jseqb v (js "*") then None else Some v.
Proof.
  intros Hv Hrest H. rewrite parseArgs_app in H.
  destruct (Startup.parseArgs k pre st) as [st1|]; [|discriminate].
  cbn [Startup.parseArgs] in H. rewrite (loopBody_host k v st1 Hv) in H.
  now rewrite (host_stays k rest _ st' Hrest H).
Qed.

Lemma last_host_wins_witness :
  exists st',
    Startup.parseArgs false [js "--host=example.org"; js "--host=*"; js "--port=80"]
      Startup.defaults
    = Startup.Done st'
    /\ Startup.host st' = None.
Proof.
  eexists. split; [reflexivity|].
  apply (last_host_wins false [js "--host=example.org"] (js "*") [js "--port=80"]
           Startup.defaults).
  - reflexivity.
  - intros x [<- | []]. reflexivity.
  - reflexivity.
Defined.

(** X20.  [--help] prints the usage text and ends the process with code 0; the
    defaults the text quotes are the values of [host] and [port] as the
    arguments before [--help] have left them. *)
Theorem help_quotes_current_settings
    (k : bool) (pre rest : list jsstring) (st st1 : Startup.Settings) :
  Startup.parseArgs k pre st = Startup.Done st1 ->
  Startup.parseArgs k (pre ++ js "--help" :: rest) st
  = Startup.Exit 0 [Startup.Log (Startup.usage k st1)].
Proof.
  intro H. rewrite parseArgs_app, H. reflexivity.
Qed.

Lemma help_quotes_current_settings_witness :
  Startup.parseArgs true [js "--port=99"; js "--help"; js "--bogus"] Startup.defaults
  = Startup.Exit 0
      [Startup.Log
         (Startup.usage true
            (Startup.mkSettings (Some (js "localhost")) (Startup.PortText (js "99"))
               None false false false))].
Proof.
  apply (help_quotes_current_settings true [js "--port=99"] [js "--bogus"]
           Startup.defaults).
  reflexivity.
Defined.

Lemma loopBody_exit (k : bool) (x : jsstring) (st : Startup.Settings)
    (code : N) (out : list Startup.Output) :
  Startup.loopBody k x st = Startup.Exit code out ->
  (code = 0 /\ x = js "--help" /\ out = [Startup.Log (Startup.usage k st)])
  \/ (code = 1
      /\ out = [Startup.Err (js "Unknown argument " ++ [c_dquote] ++ x
                             ++ [c_dquote]);
                Startup.Log
                  (js "Run with --help argument for view usage information")]).
Proof.
  unfold Startup.loopBody.
  destruct (jseqb x (js "--help")) eqn:Eh.
  { apply jseqb_eq in Eh. intros [= <- <-]. now left. }
  destruct (Startup.option_value (js "--path=") x); [discriminate|].
  destruct (Startup.option_value (js "--host=") x); [discriminate|].
  destruct (Startup.option_value (js "--port=") x); [discriminate|].
  destruct (jseqb x (js "--browse")); [discriminate|].
  destruct (jseqb x (js "--debug")); [discriminate|].
  destruct (k && jseqb x (js "--no-cache")); [discriminate|].
  intros [= <- <-]. now right.
Qed.

Lemma loopBody_help (k : bool) (st : Startup.Settings) :
  Startup.loopBody k (js "--help") st
  = Startup.Exit 0 [Startup.Log (Startup.usage k st)].
Proof. reflexivity. Qed.

(** X21.  The loop ends the process in two ways only: with code 0 and the
    usage text, at a [--help]; with code 1 and a message that quotes the
    argument, at the first argument it does not know. With [--help] among the
    arguments the server never starts. *)
Theorem exit_is_help_or_unknown
    (k : bool) (args : list jsstring) (st : Startup.Settings) :
  (forall code out,
     Startup.parseArgs k args st = Startup.Exit code out ->
     (code = 0 /\ In (js "--help") args
      /\ exists st1, out = [Startup.Log (Startup.usage k st1)])
     \/ (code = 1
         /\ exists arg,
              In arg args /\ arg <> js "--help"
              /\ out = [Startup.Err (js "Unknown argument " ++ [c_dquote] ++ arg
                                     ++ [c_dquote]);
                        Startup.Log
                          (js "Run with --help argument for view usage information")]))
  /\ (In (js "--help") args ->
      exists code out, Startup.parseArgs k args st = Startup.Exit code out).
Proof.
  split.
  - revert st; induction args as [|x args IH]; intros st code out H;
      [discriminate|].
    cbn [Startup.parseArgs] in H.
    destruct (Startup.loopBody k x st) as [st1|code1 out1] eqn:E.
    + destruct (IH st1 code out H) as [[-> [Hin Hout]] | [-> [arg [Hin Hout]]]].
      * left. repeat split; [now right|exact Hout].
      * right. split; [reflexivity|]. exists arg. split; [now right|exact Hout].
    + injection H as <- <-.
      destruct (loopBody_exit k x st code1 out1 E) as [[-> [-> ->]] | [-> ->]].
      * left. repeat split; [now left|now exists st].
      * right. split; [reflexivity|]. exists x. repeat split; [now left|].
        intros ->. rewrite loopBody_help in E. discriminate.
  - revert st; induction args as [|x args IH]; intros st Hin; [destruct Hin|].
    cbn [Startup.parseArgs].
    destruct (Startup.loopBody k x st) as [st1|code1 out1] eqn:E.
    + destruct Hin as [-> | Hin]; [rewrite loopBody_help in E; discriminate|].
      now apply IH.
    + now exists code1, out1.
Qed.

Lemma exit_is_help_or_unknown_witness :
  exists code out,
    Startup.parseArgs false [js "--debug"; js "--help"] Startup.defaults
    = Startup.Exit code out.
Proof.
  destruct (exit_is_help_or_unknown false [js "--debug"; js "--help"]
              Startup.defaults) as [_ H].
  apply H. right; left. reflexivity.
Defined.

(** X22.  An option without a value, or with a line terminator in its value,
    does not pass the test of its own branch and ends as an unknown argument. *)
Theorem bad_value_is_unknown_argument
    (k : bool) (prefix v : jsstring) (rest : list jsstring)
    (st : Startup.Settings) :
  In prefix [js "--path="; js "--host="; js "--port="] ->
  value_ok v = false ->
  Startup.parseArgs k ((prefix ++ v) :: rest) st
  = Startup.Exit 1
      [Startup.Err (js "Unknown argument " ++ [c_dquote] ++ (prefix ++ v)
                    ++ [c_dquote]);
       Startup.Log (js "Run with --help argument for view usage information")].
Proof.
  intros Hprefix Hv. cbn [Startup.parseArgs]. unfold Startup.loopBody.
  destruct Hprefix as [<- | [<- | [<- | []]]].
  - change (jseqb (js "--path=" ++ v) (js "--help")) with false. cbv iota.
    rewrite option_value_app, Hv.
    rewrite (option_value_none (js "--host=")) by reflexivity.
    rewrite (option_value_none (js "--port=")) by reflexivity.
    change (jseqb (js "--path=" ++ v) (js "--browse")) with false.
    change (jseqb (js "--path=" ++ v) (js "--debug")) with false.
    change (jseqb (js "--path=" ++ v) (js "--no-cache")) with false.
    now rewrite andb_false_r.
  - change (jseqb (js "--host=" ++ v) (js "--help")) with false. cbv iota.
    rewrite (option_value_none (js "--path=")) by reflexivity.
    rewrite option_value_app, Hv.
    rewrite (option_value_none (js "--port=")) by reflexivity.
    change (jseqb (js "--host=" ++ v) (js "--browse")) with false.
    change (jseqb (js "--host=" ++ v) (js "--debug")) with false.
    change (jseqb (js "--host=" ++ v) (js "--no-cache")) with false.
    now rewrite andb_false_r.
  - change (jseqb (js "--port=" ++ v) (js "--help")) with false. cbv iota.
    rewrite (option_value_none (js "--path=")) by reflexivity.
    rewrite (option_value_none (js "--host=")) by reflexivity.
    rewrite option_value_app, Hv.
    change (jseqb (js "--port=" ++ v) (js "--browse")) with false.
    change (jseqb (js "--port=" ++ v) (js "--debug")) with false.
    change (jseqb (js "--port=" ++ v) (js "--no-cache")) with false.
    now rewrite andb_false_r.
Qed.

Lemma bad_value_is_unknown_argument_witness :
  Startup.parseArgs false [js "--port="; js "--browse"] Startup.defaults
  = Startup.Exit 1
      [Startup.Err (js "Unknown argument " ++ [c_dquote] ++ js "--port="
                    ++ [c_dquote]);
       Startup.Log (js "Run with --help argument for view usage information")].
Proof.
  apply (bad_value_is_unknown_argument false (js "--port=") [] [js "--browse"]
           Startup.defaults).
  - right; right; left. reflexivity.
  - reflexivity.
Defined.

(** ** The root path *)

Lemma replace_first_from_free (repl seen s : jsstring) :
  free c_tilde s = true ->
  Startup.replace_first_from (js "~") repl seen s = s.
Proof.
  revert seen; induction s as [|c s IH]; intros seen; [reflexivity|].
  rewrite free_cons. intros [Hc Hs]%andb_true_iff.
  apply negb_true_iff in Hc. cbn [Startup.replace_first_from].
  change (starts_with (js "~") (c :: s)) with ((c_tilde =? c) && true).
  rewrite N.eqb_sym, Hc. cbn [andb]. now rewrite IH.
Qed.

Lemma replace_first_from_hit (repl seen a b : jsstring) :
  free c_tilde a = true ->
  Startup.replace_first_from (js "~") repl seen (a ++ c_tilde :: b)
  = a ++ expand repl (js "~") (seen ++ a) b ++ b.
Proof.
  revert seen; induction a as [|c a IH]; intros seen.
  - intros _. cbn [app Startup.replace_first_from].
    change (starts_with (js "~") (c_tilde :: b)) with true. cbv iota.
    now rewrite app_nil_r.
  - rewrite free_cons. intros [Hc Ha]%andb_true_iff.
    apply negb_true_iff in Hc. cbn [app Startup.replace_first_from].
    change (starts_with (js "~") (c :: a ++ c_tilde :: b))
      with ((c_tilde =? c) && true).
    rewrite N.eqb_sym, Hc. cbn [andb]. rewrite IH by exact Ha.
    now rewrite <- app_assoc.
Qed.

Lemma free_dollar_inert (s : jsstring) : free c_dollar s = true -> inert s = true.
Proof.
  induction s as [|c s IH]; [reflexivity|].
  rewrite free_cons. intros [Hc Hs]%andb_true_iff.
  apply negb_true_iff in Hc. cbn [inert]. now rewrite Hc, (IH Hs).
Qed.

(** X23.  A root path without a tilde is left as it is, unless it starts with
    [./]: then, and only then, the working directory is put in front. A path
    such as [sub/dir] or [../www] stays relative. *)
Theorem expandPath_without_tilde (env : Startup.Env) (p : jsstring) :
  free c_tilde p = true ->
  free c_dollar (Startup.cwd env) = true ->
  Startup.expandPath env p
  = if starts_with (js "./") p
    then Startup.cwd env ++ js "/" ++ skipn 2 p
    else p.
Proof.
  intros Hp Hcwd. unfold Startup.expandPath, Startup.replace_first.
  rewrite (replace_first_from_free _ [] p Hp).
  unfold Startup.replace_leading_dot_slash.
  destruct (starts_with (js "./") p); [|reflexivity].
  rewrite expand_inert; [now rewrite <- app_assoc|].
  apply free_dollar_inert. rewrite free_app, Hcwd. reflexivity.
Qed.

Lemma expandPath_without_tilde_witness :
  Startup.expandPath (Startup.mkEnv [] (js "/home/u/site") None listen_ok)
    (js "./pub")
  = js "/home/u/site/pub"
  /\ Startup.expandPath (Startup.mkEnv [] (js "/home/u/site") None listen_ok)
       (js "../pub")
     = js "../pub".
Proof.
  split.
  - apply (expandPath_without_tilde
             (Startup.mkEnv [] (js "/home/u/site") None listen_ok)
             (js "./pub")); reflexivity.
  - apply (expandPath_without_tilde
             (Startup.mkEnv [] (js "/home/u/site") None listen_ok)
             (js "../pub")); reflexivity.
Defined.

(** X24.  The first tilde of the root path, wherever it stands, is replaced by
    the text of [HOME], or by the word [undefined] when the variable is not
    set; what follows it, later tildes included, is kept. *)
Theorem expandPath_first_tilde (env : Startup.Env) (a b : jsstring) :
  free c_tilde a = true ->
  inert (Startup.home_text (Startup.home env)) = true ->
  starts_with (js "./") (a ++ Startup.home_text (Startup.home env) ++ b) = false ->
  Startup.expandPath env (a ++ c_tilde :: b)
  = a ++ Startup.home_text (Startup.home env) ++ b.
Proof.
  intros Ha Hhome Hdot. unfold Startup.expandPath, Startup.replace_first.
  rewrite (replace_first_from_hit _ [] a b Ha), (expand_inert _ _ _ _ Hhome).
  unfold Startup.replace_leading_dot_slash. now rewrite Hdot.
Qed.

Lemma expandPath_first_tilde_witness :
  Startup.expandPath
    (Startup.mkEnv [] (js "/") (Some (js "/home/u")) listen_ok) (js "~/www")
  = js "/home/u/www"
  /\ Startup.expandPath
       (Startup.mkEnv [] (js "/") (Some (js "/home/u")) listen_ok)
       (js "/data/v~1/~")
     = js "/data/v/home/u1/~"
  /\ Startup.expandPath (Startup.mkEnv [] (js "/") None listen_ok) (js "~/www")
     = js "undefined/www".
Proof.
  split; [|split].
  - apply (expandPath_first_tilde
             (Startup.mkEnv [] (js "/") (Some (js "/home/u")) listen_ok)
             [] (js "/www")); reflexivity.
  - apply (expandPath_first_tilde
             (Startup.mkEnv [] (js "/") (Some (js "/home/u")) listen_ok)
             (js "/data/v") (js "1/~")); reflexivity.
  - apply (expandPath_first_tilde (Startup.mkEnv [] (js "/") None listen_ok)
             [] (js "/www")); reflexivity.
Defined.

(** ** The listening server *)

Lemma in_onListening_log (st : Startup.Settings) (root : jsstring) :
  In (Startup.Log
        (js "HTTP-server started at *:" ++ Startup.port_text (Startup.port st)
         ++ js ", files path is: " ++ [c_dquote] ++ root ++ [c_dquote]))
     (Startup.onListening st root).
Proof. now left. Qed.

Lemma in_onListening_spawn (st : Startup.Settings) (root command : jsstring)
    (args : list jsstring) :
  In (Startup.Spawn command args) (Startup.onListening st root) <->
  Startup.browse st = true
  /\ command = js "xdg-open"
  /\ args = [js "http://localhost:" ++ Startup.port_text (Startup.port st)].
Proof.
  unfold Startup.onListening. cbn [Startup.truthy]. cbv zeta. cbv iota. split.
  - intros [H | H]; [discriminate|].
    destruct (Startup.browse st); [|destruct H].
    destruct H as [H | [H | []]]; [discriminate|].
    injection H as <- <-. now repeat split.
  - intros [Hb [-> ->]]. right. rewrite Hb. right. now left.
Qed.

Lemma in_warned (env : Startup.Env) (st : Startup.Settings) (o : Startup.Output) :
  In o match Startup.filesPath st with
       | Some _ => []
       | None =>
           [Startup.Warn (js "Path is empty! Will be used current work dir: "
                          ++ [c_dquote] ++ Startup.cwd env ++ [c_dquote]);
            Startup.Warn
              (js "For specific path, start this app with: --path=/specific/path")]
       end ->
  exists text, o = Startup.Warn text.
Proof.
  destruct (Startup.filesPath st); [intros []|].
  intros [<- | [<- | []]]; now eexists.
Qed.

(** X25.  The script calls [listen] with the port and the host of the command
    line.  When the server comes to listen, the callback runs; it declares a
    variable [host] of its own, not yet assigned when the address is built,
    so the message always names [*], and [xdg-open] is spawned exactly when
    [--browse] was given, always with the address of [localhost], whatever
    host was configured.  When the server does not come to listen, nothing
    is logged and nothing is spawned. *)
Theorem browser_is_sent_to_localhost
    (k : bool) (env : Startup.Env) (s : Startup.Started) :
  Startup.main k env = inl s ->
  let st := Startup.settings s in
  In (Startup.Listen (Startup.port st) (Startup.host st)) (Startup.outputs s)
  /\ Startup.listening s = Startup.listens env (Startup.port st) (Startup.host st)
  /\ (Startup.listening s = true ->
      In (Startup.Log
            (js "HTTP-server started at *:" ++ Startup.port_text (Startup.port st)
             ++ js ", files path is: " ++ [c_dquote] ++ Startup.root s
             ++ [c_dquote]))
         (Startup.outputs s)
      /\ forall command args,
           In (Startup.Spawn command args) (Startup.outputs s) <->
           Startup.browse st = true
           /\ command = js "xdg-open"
           /\ args = [js "http://localhost:"
                      ++ Startup.port_text (Startup.port st)])
  /\ (Startup.listening s = false ->
      (forall text, ~ In (Startup.Log text) (Startup.outputs s))
      /\ forall command args, ~ In (Startup.Spawn command args) (Startup.outputs s)).
Proof.
  intros H. unfold Startup.main in H.
  destruct (Startup.parseArgs k (Startup.argv env) Startup.defaults) as [st|];
    [|discriminate].
  injection H as <-.
  cbn [Startup.settings Startup.root Startup.outputs Startup.listening].
  cbv zeta.
  split; [apply in_or_app; right; now left|].
  split; [reflexivity|].
  split; intro Hl; rewrite Hl; split.
  - apply in_or_app. right. right. apply in_onListening_log.
  - intros command args. rewrite <- in_onListening_spawn with (root :=
      Startup.expandPath env
        match Startup.filesPath st with
        | Some p => p
        | None => Startup.cwd env
        end).
    split.
    + intros Hin. apply in_app_or in Hin as [Hin | [Hin | Hin]];
        [|discriminate|exact Hin].
      destruct (in_warned env st _ Hin) as [text Htext]. discriminate.
    + intro Hin. apply in_or_app. right. right. exact Hin.
  - intros text Hin. apply in_app_or in Hin as [Hin | [Hin | []]];
      [|discriminate].
    destruct (in_warned env st _ Hin) as [text' Htext]. discriminate.
  - intros command args Hin. apply in_app_or in Hin as [Hin | [Hin | []]];
      [|discriminate].
    destruct (in_warned env st _ Hin) as [text Htext]. discriminate.
Qed.

Lemma browser_is_sent_to_localhost_witness :
  (exists s,
     Startup.main false
       (Startup.mkEnv [js "--host=127.0.0.1"; js "--port=8081"; js "--browse"]
          (js "/srv") None listen_ok)
     = inl s
     /\ In (Startup.Listen (Startup.PortText (js "8081")) (Some (js "127.0.0.1")))
          (Startup.outputs s)
     /\ In (Startup.Spawn (js "xdg-open") [js "http://localhost:8081"])
          (Startup.outputs s))
  /\ (exists s,
        Startup.main false
          (Startup.mkEnv [js "--host=example.org"; js "--port=81"; js "--browse"]
             (js "/srv") None listen_fails)
        = inl s
        /\ In (Startup.Listen (Startup.PortText (js "81")) (Some (js "example.org")))
             (Startup.outputs s)
        /\ forall command args,
             ~ In (Startup.Spawn command args) (Startup.outputs s)).
Proof.
  split.
  - eexists. split; [reflexivity|].
    destruct (browser_is_sent_to_localhost false
                (Startup.mkEnv
                   [js "--host=127.0.0.1"; js "--port=8081"; js "--browse"]
                   (js "/srv") None listen_ok) _ eq_refl)
      as [Hlisten [_ [Hon _]]].
    split; [exact Hlisten|].
    destruct (Hon eq_refl) as [_ Hspawn]. apply Hspawn. repeat split.
  - eexists. split; [reflexivity|].
    destruct (browser_is_sent_to_localhost false
                (Startup.mkEnv
                   [js "--host=example.org"; js "--port=81"; js "--browse"]
                   (js "/srv") None listen_fails) _ eq_refl)
      as [Hlisten [_ [_ Hoff]]].
    split; [exact Hlisten|].
    destruct (Hoff eq_refl) as [_ Hspawn]. exact Hspawn.
Defined.

Lemma loopBody_noCache (k : bool) (x : jsstring) (st st' : Startup.Settings) :
  Startup.loopBody k x st = Startup.Done st' ->
  Startup.noCache st' = Startup.noCache st || jseqb (js "--no-cache") x
  /\ (k = false -> jseqb (js "--no-cache") x = false).
Proof.
  intro H.
  destruct (loopBody_done k x st st' H)
    as [[v [-> [_ ->]]] | [[v [-> [_ ->]]] | [[v [-> [_ ->]]]
        | [[-> ->] | [[-> ->] | [-> [-> ->]]]]]]];
    cbn [Startup.noCache];
    try (change (jseqb (js "--no-cache") _) with false;
         rewrite orb_false_r; split; [|reflexivity]).
  - now destruct (Startup.filesPath st).
  - reflexivity.
  - reflexivity.
  - reflexivity.
  - reflexivity.
  - split; [now rewrite orb_true_r|discriminate].
Qed.

Lemma parseArgs_noCache (k : bool) (args : list jsstring)
    (st st' : Startup.Settings) :
  Startup.parseArgs k args st = Startup.Done st' ->
  Startup.noCache st'
  = Startup.noCache st || existsb (jseqb (js "--no-cache")) args
  /\ (k = false -> existsb (jseqb (js "--no-cache")) args = false).
Proof.
  revert st; induction args as [|x args IH]; intros st H.
  - injection H as <-. cbn [existsb]. now rewrite orb_false_r.
  - cbn [Startup.parseArgs] in H.
    destruct (Startup.loopBody k x st) as [st1|] eqn:E; [|discriminate].
    destruct (loopBody_noCache k x st st1 E) as [H1 Hk1].
    destruct (IH st1 H) as [H2 Hk2].
    cbn [existsb]. split.
    + now rewrite H2, H1, orb_assoc.
    + intros ->. now rewrite Hk1, Hk2.
Qed.

(** X26.  The request handler of the streaming revision runs with [noCache]
    exactly when [--no-cache] is among the arguments. Version 0.2.1 does not
    know the flag: a server that started was not given it, and its handler
    never runs with [noCache]. *)
Theorem no_cache_is_set_by_the_flag_only (env : Startup.Env) :
  (forall s, Startup.main true env = inl s ->
             noCache (Startup.config s)
             = existsb (jseqb (js "--no-cache")) (Startup.argv env))
  /\ (forall s, Startup.main false env = inl s ->
                noCache (Startup.config s) = false
                /\ existsb (jseqb (js "--no-cache")) (Startup.argv env) = false).
Proof.
  split; intros s H; unfold Startup.main in H.
  - destruct (Startup.parseArgs true (Startup.argv env) Startup.defaults)
      as [st|] eqn:E; [|discriminate].
    injection H as <-. cbn [Startup.config Startup.settings noCache].
    now destruct (parseArgs_noCache _ _ _ _ E) as [-> _].
  - destruct (Startup.parseArgs false (Startup.argv env) Startup.defaults)
      as [st|] eqn:E; [|discriminate].
    injection H as <-. cbn [Startup.config Startup.settings noCache].
    destruct (parseArgs_noCache _ _ _ _ E) as [-> Hk].
    now rewrite (Hk eq_refl).
Qed.

Lemma no_cache_is_set_by_the_flag_only_witness :
  exists s,
    Startup.main true
      (Startup.mkEnv [js "--path=/srv"; js "--no-cache"] (js "/") None listen_ok)
    = inl s
    /\ noCache (Startup.config s) = true.
Proof.
  eexists. split; [reflexivity|].
  destruct (no_cache_is_set_by_the_flag_only
              (Startup.mkEnv [js "--path=/srv"; js "--no-cache"] (js "/") None
                 listen_ok))
    as [H _].
  exact (H _ eq_refl).
Defined.

(** X27.  Without any [--path=] the server serves the working directory, after
    the same expansion as a given path, and warns twice before it listens. *)
Theorem default_root_is_working_directory
    (k : bool) (env : Startup.Env) (s : Startup.Started) :
  (forall x, In x (Startup.argv env) -> starts_with (js "--path=") x = false) ->
  Startup.main k env = inl s ->
  Startup.root s = Startup.expandPath env (Startup.cwd env)
  /\ exists later,
       Startup.outputs s
       = Startup.Warn (js "Path is empty! Will be used current work dir: "
                       ++ [c_dquote] ++ Startup.cwd env ++ [c_dquote])
         :: Startup.Warn
              (js "For specific path, start this app with: --path=/specific/path")
         :: Startup.Listen (Startup.port (Startup.settings s))
              (Startup.host (Startup.settings s))
         :: later.
Proof.
  intros Hargs H. unfold Startup.main in H.
  destruct (Startup.parseArgs k (Startup.argv env) Startup.defaults)
    as [st|] eqn:E; [|discriminate].
  pose proof (path_stays_unset k _ Startup.defaults st Hargs eq_refl E) as Hnone.
  rewrite Hnone in H. injection H as <-.
  cbn [Startup.root Startup.outputs Startup.settings app].
  split; [reflexivity|]. now eexists.
Qed.

Lemma default_root_is_working_directory_witness :
  exists s,
    Startup.main true
      (Startup.mkEnv [js "--no-cache"] (js "/home/u/site")
         (Some (js "/home/u")) listen_ok)
    = inl s
    /\ Startup.root s = js "/home/u/site".
Proof.
  eexists. split; [reflexivity|].
  destruct (default_root_is_working_directory true
              (Startup.mkEnv [js "--no-cache"] (js "/home/u/site")
                 (Some (js "/home/u")) listen_ok) _
              ltac:(intros x [<- | []]; reflexivity) eq_refl) as [Hroot _].
  exact Hroot.
Defined.

(** ** Version 0.1 *)

Lemma parseArgs_findPath (k : bool) (args : list jsstring)
    (st st' : Startup.Settings) :
  Startup.parseArgs k args st = Startup.Done st' ->
  Startup.filesPath st' = V01.findPath args (Startup.filesPath st).
Proof.
  revert st; induction args as [|x args IH]; intros st H.
  - now injection H as <-.
  - cbn [Startup.parseArgs] in H.
    destruct (Startup.loopBody k x st) as [st1|] eqn:E; [|discriminate].
    rewrite (IH st1 H). cbn [V01.findPath]. f_equal.
    destruct (loopBody_done k x st st1 E)
      as [[v [-> [Hv ->]]] | [[v [-> [_ ->]]] | [[v [-> [_ ->]]]
          | [[-> ->] | [[-> ->] | [_ [-> ->]]]]]]];
      cbn [Startup.filesPath];
      try (destruct (Startup.filesPath st); reflexivity).
    rewrite option_value_app, Hv.
    destruct st as [h p [f|] b d n]; reflexivity.
Qed.

(** X28.  On a command line that version 0.2.1 or the streaming revision
    accepts, version 0.1 serves the same root, although it reads all of
    [process.argv] and knows no other option. *)
Theorem v01_serves_the_same_root
    (k : bool) (execPath script : jsstring) (env : Startup.Env)
    (s : Startup.Started) :
  starts_with (js "--path=") execPath = false ->
  starts_with (js "--path=") script = false ->
  Startup.main k env = inl s ->
  snd (V01.main execPath script env) = Startup.root s.
Proof.
  intros Hexec Hscript H. unfold Startup.main in H.
  destruct (Startup.parseArgs k (Startup.argv env) Startup.defaults)
    as [st|] eqn:E; [|discriminate].
  injection H as <-. cbn [Startup.root].
  unfold V01.main. cbn [snd V01.findPath].
  rewrite (option_value_none _ _ Hexec), (option_value_none _ _ Hscript).
  now rewrite (parseArgs_findPath k _ _ st E).
Qed.

Lemma v01_serves_the_same_root_witness :
  exists s,
    Startup.main true
      (Startup.mkEnv [js "--debug"; js "--path=./pub"; js "--no-cache"]
         (js "/home/u") None listen_ok)
    = inl s
    /\ snd (V01.main (js "/usr/bin/node") (js "/opt/http-file-server.js")
              (Startup.mkEnv [js "--debug"; js "--path=./pub"; js "--no-cache"]
                 (js "/home/u") None listen_ok))
       = Startup.root s
    /\ Startup.root s = js "/home/u/pub".
Proof.
  eexists. split; [reflexivity|]. split; [|reflexivity].
  apply (v01_serves_the_same_root true (js "/usr/bin/node")
           (js "/opt/http-file-server.js")
           (Startup.mkEnv [js "--debug"; js "--path=./pub"; js "--no-cache"]
              (js "/home/u") None listen_ok)); reflexivity.
Defined.
